(** * A shallow embedding of the segregated-fit allocator of [mm.c]

    The allocator manages one contiguous heap obtained from a grow-only
    region provider.  Blocks carry boundary tags (a header and a footer
    word packing the block size with an allocated bit); free blocks are
    threaded on fifteen doubly linked lists whose heads live in the first
    words of the heap.

    The embedding follows the C text function by function.  The heap is a
    finite map from byte addresses to words, the C globals are fields of a
    state record, and every routine is a computation in a state-and-error
    monad: a computation yields [None] when the C program would read a
    word that was never written, touch an address outside the region
    obtained so far, or violate one of its own [assert]s. *)

From Stdlib Require Import ZArith Lia List Bool.
From stdpp Require Import base option numbers gmap list.

Local Open Scope Z_scope.

(** ** Data model *)

(** [WSIZE] is [sizeof(void * )]; the source is written for both 32-bit and
    64-bit targets, so the embedding is parametric in the data model. *)
Inductive arch := ILP32 | LP64.

Definition WSIZE (a : arch) : Z :=
  match a with ILP32 => 4 | LP64 => 8 end.

Definition ASIZE : Z := 8.
Definition DSIZE (a : arch) : Z := 2 * WSIZE a.
Definition TSIZE (a : arch) : Z := 3 * WSIZE a.
Definition CHUNKSIZE : Z := 4104.
Definition BIN_NUM : Z := 15.
Definition BOUND : Z := 128.
Definition NULL : Z := 0.

(** Unsigned pointer-sized arithmetic ([size_t], [uintptr_t]) wraps modulo
    [2 ^ (8 * WSIZE)]; [int] is a 32-bit two's complement integer on both
    targets. *)
Definition size_t (a : arch) (z : Z) : Z := z mod 2 ^ (8 * WSIZE a).
Definition int (z : Z) : Z := (z + 2 ^ 31) mod 2 ^ 32 - 2 ^ 31.

(** [(void * )-1], the failure value of the region provider. *)
Definition SBRK_FAILED (a : arch) : Z := size_t a (-1).

Definition MAX (x y : Z) : Z := if x >? y then x else y.
Definition PACK (size alloc : Z) : Z := Z.lor size alloc.
Definition GET_SIZE (a : arch) (w : Z) : Z := Z.land w (Z.lnot (WSIZE a - 1)).
Definition GET_ALLOC (w : Z) : Z := Z.land w 1.
Definition HDRP (a : arch) (bp : Z) : Z := bp - WSIZE a.

(** The allocator state: the heap words, the region provider's three
    variables, and the two globals of [mm.c].  [sbrk_failures] is a ghost
    counter of refused extension requests; no routine reads it. *)
Record heap := Heap {
  mem : gmap Z Z;
  mem_heap : Z;
  mem_brk : Z;
  mem_max_addr : Z;
  heap_listp : Z;
  bin_list : Z;
  sbrk_failures : nat
}.

Definition set_mem (m : gmap Z Z) (st : heap) : heap :=
  Heap m (mem_heap st) (mem_brk st) (mem_max_addr st)
       (heap_listp st) (bin_list st) (sbrk_failures st).
Definition set_brk (b : Z) (st : heap) : heap :=
  Heap (mem st) (mem_heap st) b (mem_max_addr st)
       (heap_listp st) (bin_list st) (sbrk_failures st).
Definition set_heap_listp (p : Z) (st : heap) : heap :=
  Heap (mem st) (mem_heap st) (mem_brk st) (mem_max_addr st)
       p (bin_list st) (sbrk_failures st).
Definition set_bin_list (p : Z) (st : heap) : heap :=
  Heap (mem st) (mem_heap st) (mem_brk st) (mem_max_addr st)
       (heap_listp st) p (sbrk_failures st).
Definition note_failure (st : heap) : heap :=
  Heap (mem st) (mem_heap st) (mem_brk st) (mem_max_addr st)
       (heap_listp st) (bin_list st) (S (sbrk_failures st)).

(** ** The state-and-error monad *)

Definition M (A : Type) : Type := heap -> option (A * heap).

Definition ret {A} (x : A) : M A := fun st => Some (x, st).
Definition fail {A} : M A := fun _ => None.
Definition bind {A B} (c : M A) (k : A -> M B) : M B :=
  fun st => match c st with
            | Some (x, st') => k x st'
            | None => None
            end.

Notation "'let!' x ':=' c 'in' k" := (bind c (fun x => k))
  (at level 10, x name, c at level 100, k at level 200).
Notation "c '>>' k" := (bind c (fun _ => k))
  (at level 190, right associativity).

Definition assert (b : bool) : M unit := if b then ret tt else fail.
Definition lift {A} (o : option A) : M A :=
  fun st => match o with Some x => Some (x, st) | None => None end.
Definition gets {A} (f : heap -> A) : M A := fun st => Some (f st, st).
Definition modify (f : heap -> heap) : M unit := fun st => Some (tt, f st).

Section Allocator.

Context (a : arch).

Local Abbreviation W := (WSIZE a).

(** ** Memory access *)

(** A word access is defined at addresses that are word aligned and lie
    inside the region handed out so far. *)
Definition accessible (st : heap) (p : Z) : bool :=
  (p mod W =? 0) && (mem_heap st <=? p) && (p + W <=? mem_brk st).

(** [GET(p)] *)
Definition GET (p : Z) : M Z := fun st =>
  if accessible st p then
    match mem st !! p with
    | Some v => Some (v, st)
    | None => None
    end
  else None.

(** [PUT(p, val)] *)
Definition PUT (p val : Z) : M unit := fun st =>
  if accessible st p then Some (tt, set_mem (<[p := size_t a val]> (mem st)) st)
  else None.

(** [FTRP(bp)], [NEXT_BLKP(bp)] and [PREV_BLKP(bp)] each read one tag. *)
Definition FTRP (bp : Z) : M Z :=
  let! h := GET (HDRP a bp) in ret (bp + GET_SIZE a h - DSIZE a).
Definition NEXT_BLKP (bp : Z) : M Z :=
  let! h := GET (bp - W) in ret (bp + GET_SIZE a h).
Definition PREV_BLKP (bp : Z) : M Z :=
  let! f := GET (bp - DSIZE a) in ret (bp - GET_SIZE a f).

(** The fields of [struct node]: [next] at offset 0, [prev] one word on. *)
Definition node_next (bp : Z) : Z := bp.
Definition node_prev (bp : Z) : Z := bp + W.

(** [bin_list[i]] *)
Definition bin_slot (st : heap) (i : Z) : Z := bin_list st + i * W.
Definition get_bin (i : Z) : M Z :=
  let! b := gets bin_list in GET (b + i * W).
Definition set_bin (i v : Z) : M unit :=
  let! b := gets bin_list in PUT (b + i * W) v.

(** ** The region provider *)

(** Modelled from the spec: [mem_sbrk] of [memlib.c], which is not part of
    the sources at hand.  A request for [incr] bytes appends them to the
    region and returns the address of the first new byte, or the failure
    value when the region cannot grow that far; a refused request leaves
    the region as it was. *)
Definition mem_sbrk (incr : Z) : M Z := fun st =>
  if (incr <? 0) || (mem_max_addr st <? mem_brk st + incr)
  then Some (SBRK_FAILED a, note_failure st)
  else Some (mem_brk st, set_brk (mem_brk st + incr) st).

(** ** Segregated list index *)

Fixpoint get_list_index_loop (n : nat) (list count : Z) : Z :=
  match n with
  | O => BIN_NUM - 1
  | S n' =>
      if (count <=? BOUND) || (list =? BIN_NUM - 1) then list
      else get_list_index_loop n' (list + 1) (Z.shiftr count 1)
  end.

Definition get_list_index (size : Z) : option Z :=
  if 0 <=? size then Some (get_list_index_loop (Z.to_nat BIN_NUM) 0 size)
  else None.

(** ** Free-list maintenance *)

Definition insert_block (bp size : Z) : M unit :=
  assert (negb (bp =? NULL)) >>
  let! h := GET (HDRP a bp) in
  assert (size =? int (GET_SIZE a h)) >>
  let! list_idx := lift (get_list_index size) in
  let! start_block := get_bin list_idx in
  if start_block =? NULL then
    PUT (node_prev bp) NULL >>
    PUT (node_next bp) NULL >>
    set_bin list_idx bp
  else
    PUT (node_prev bp) NULL >>
    PUT (node_next bp) start_block >>
    PUT (node_prev start_block) bp >>
    set_bin list_idx bp.

Definition delete_block (bp : Z) : M unit :=
  assert (negb (bp =? NULL)) >>
  let! h := GET (HDRP a bp) in
  let block_size := GET_SIZE a h in
  let! list_idx := lift (get_list_index (int block_size)) in
  let! bigger := GET (node_prev bp) in
  let! smaller := GET (node_next bp) in
  if bigger =? NULL then
    if smaller =? NULL then set_bin list_idx NULL
    else PUT (node_prev smaller) NULL >> set_bin list_idx smaller
  else
    if smaller =? NULL then PUT (node_next bigger) NULL
    else PUT (node_next bigger) smaller >> PUT (node_prev smaller) bigger.

(** ** First fit *)

(** The [while] loop of [find_block_list]; [fuel] bounds the number of
    nodes visited. *)
Fixpoint find_block_loop (fuel : nat) (bp asize : Z) : M Z :=
  match fuel with
  | O => fail
  | S fuel' =>
      if bp =? NULL then ret NULL
      else
        let! h := GET (HDRP a bp) in
        let block_size := GET_SIZE a h in
        if int block_size >=? asize then ret bp
        else let! nxt := GET (node_next bp) in
             find_block_loop fuel' nxt asize
  end.

Definition find_block_list (fuel : nat) (bp asize : Z) : M Z :=
  assert (asize >? 0) >> find_block_loop fuel bp asize.

(** The [for] loop of [find_fit], with [n] bins left to scan from [i]. *)
Fixpoint find_fit_loop (fuel : nat) (n : nat) (i asize : Z) : M Z :=
  match n with
  | O => ret NULL
  | S n' =>
      let! bp := get_bin i in
      let! bp := find_block_list fuel bp (int asize) in
      if negb (bp =? NULL) then ret bp
      else find_fit_loop fuel n' (i + 1) asize
  end.

Definition find_fit (fuel : nat) (asize : Z) : M Z :=
  let! list_idx := lift (get_list_index (int asize)) in
  find_fit_loop fuel (Z.to_nat (BIN_NUM - list_idx)) list_idx asize.

(** ** Boundary-tag coalescing *)

Definition coalesce (bp : Z) : M Z :=
  let! h := GET (HDRP a bp) in
  let size := GET_SIZE a h in
  let! prev := PREV_BLKP bp in
  let! pf := FTRP prev in
  let! pw := GET pf in
  let prev_alloc := negb (GET_ALLOC pw =? 0) in
  let! next := NEXT_BLKP bp in
  let! nw := GET (HDRP a next) in
  let next_alloc := negb (GET_ALLOC nw =? 0) in
  if prev_alloc && next_alloc then                       (* Case 1 *)
    ret bp
  else if prev_alloc && negb next_alloc then             (* Case 2 *)
    delete_block bp >>
    let! next := NEXT_BLKP bp in
    delete_block next >>
    let! next := NEXT_BLKP bp in
    let! nh := GET (HDRP a next) in
    let size := size_t a (size + GET_SIZE a nh) in
    PUT (HDRP a bp) (PACK size 0) >>
    let! f := FTRP bp in
    PUT f (PACK size 0) >>
    insert_block bp (int size) >>
    ret bp
  else if negb prev_alloc && next_alloc then             (* Case 3 *)
    delete_block bp >>
    let! prev := PREV_BLKP bp in
    delete_block prev >>
    let! prev := PREV_BLKP bp in
    let! ph := GET (HDRP a prev) in
    let size := size_t a (size + GET_SIZE a ph) in
    let! f := FTRP bp in
    PUT f (PACK size 0) >>
    let! prev := PREV_BLKP bp in
    PUT (HDRP a prev) (PACK size 0) >>
    let! bp := PREV_BLKP bp in
    insert_block bp (int size) >>
    ret bp
  else                                                   (* Case 4 *)
    delete_block bp >>
    let! next := NEXT_BLKP bp in
    delete_block next >>
    let! prev := PREV_BLKP bp in
    delete_block prev >>
    let! prev := PREV_BLKP bp in
    let! ph := GET (HDRP a prev) in
    let! next := NEXT_BLKP bp in
    let! nf := FTRP next in
    let! nfw := GET nf in
    let size := size_t a (size + (GET_SIZE a ph + GET_SIZE a nfw)) in
    let! prev := PREV_BLKP bp in
    PUT (HDRP a prev) (PACK size 0) >>
    let! next := NEXT_BLKP bp in
    let! nf := FTRP next in
    PUT nf (PACK size 0) >>
    let! bp := PREV_BLKP bp in
    insert_block bp (int size) >>
    ret bp.

(** ** Heap extension *)

(** The number of bytes [extend_heap] requests for [words] words: an even
    number of words. *)
Definition extend_size (words : Z) : Z :=
  if negb (words mod 2 =? 0) then size_t a ((words + 1) * W)
  else size_t a (words * W).

Definition extend_heap (words : Z) : M Z :=
  let size := extend_size words in
  let! bp := mem_sbrk size in
  if bp =? SBRK_FAILED a then ret NULL
  else
    PUT (HDRP a bp) (PACK size 0) >>
    let! f := FTRP bp in
    PUT f (PACK size 0) >>
    let! next := NEXT_BLKP bp in
    PUT (HDRP a next) (PACK 0 1) >>
    let! h := GET (HDRP a bp) in
    insert_block bp (int (GET_SIZE a h)) >>
    coalesce bp.

(** ** Placement *)

Definition place (bp asize : Z) : M Z :=
  let! h := GET (HDRP a bp) in
  let csize := GET_SIZE a h in
  if size_t a (csize - asize) >=? W + TSIZE a then
    delete_block bp >>
    PUT (HDRP a bp) (PACK asize 1) >>
    let! f := FTRP bp in
    PUT f (PACK asize 1) >>
    let! bp := NEXT_BLKP bp in
    PUT (HDRP a bp) (PACK (size_t a (csize - asize)) 0) >>
    let! f := FTRP bp in
    PUT f (PACK (size_t a (csize - asize)) 0) >>
    insert_block bp (int (size_t a (csize - asize))) >>
    ret bp
  else
    delete_block bp >>
    PUT (HDRP a bp) (PACK csize 1) >>
    let! f := FTRP bp in
    PUT f (PACK csize 1) >>
    ret bp.

(** ** The allocator interface *)

Fixpoint clear_bins (n : nat) (i : Z) : M unit :=
  match n with
  | O => ret tt
  | S n' => set_bin i NULL >> clear_bins n' (i + 1)
  end.

Definition mm_init : M Z :=
  let! p := mem_sbrk ((4 + BIN_NUM) * W) in
  modify (set_heap_listp p) >>
  if p =? SBRK_FAILED a then ret (-1)
  else
    modify (set_bin_list p) >>
    clear_bins (Z.to_nat BIN_NUM) 0 >>
    PUT (p + BIN_NUM * W) 0 >>
    PUT (p + (BIN_NUM + 1) * W) (PACK (DSIZE a) 1) >>
    PUT (p + (BIN_NUM + 2) * W) (PACK (DSIZE a) 1) >>
    PUT (p + (BIN_NUM + 3) * W) (PACK 0 1) >>
    modify (set_heap_listp (p + (BIN_NUM + 4) * W)) >>
    let! bp := extend_heap (CHUNKSIZE / W) in
    if bp =? NULL then ret (-1) else ret 0.

(** The adjusted block size computed at the head of [mm_malloc]. *)
Definition adjusted_size (size : Z) : Z :=
  let asize :=
    if size <=? DSIZE a then size_t a (ASIZE + TSIZE a)
    else if size mod W =? 0 then size_t a (DSIZE a + size)
    else size_t a (DSIZE a + (size / W + 1) * W) in
  let asize :=
    if (size mod BOUND =? 0) && negb (size =? BOUND)
    then size_t a (DSIZE a + size + BOUND) else asize in
  if size =? 4092 then size_t a (W + CHUNKSIZE) else asize.

(** The number of words [mm_malloc] asks [extend_heap] for. *)
Definition extend_words (asize : Z) : Z :=
  let extendsize := MAX asize CHUNKSIZE in
  let extendsize :=
    if negb (extendsize mod W =? 0) then size_t a ((extendsize / W + 1) * W)
    else extendsize in
  extendsize / W.

Definition mm_malloc (fuel : nat) (size : Z) : M Z :=
  if size =? 0 then ret NULL
  else
    let asize := adjusted_size size in
    let! bp := find_fit fuel asize in
    if negb (bp =? NULL) then place bp asize >> ret bp
    else
      let! bp := extend_heap (extend_words asize) in
      if bp =? NULL then ret NULL
      else place bp asize >> ret bp.

Definition mm_free (bp : Z) : M unit :=
  if bp =? NULL then ret tt
  else
    let! h := GET (HDRP a bp) in
    let size := GET_SIZE a h in
    PUT (HDRP a bp) (PACK size 0) >>
    let! f := FTRP bp in
    PUT f (PACK size 0) >>
    insert_block bp (int size) >>
    coalesce bp >>
    ret tt.

(** [memcpy] on the word-granular heap.  A full word is copied as it is;
    of a trailing partial word the low-order [n] bytes are taken from the
    source and the rest kept.  A word never written is indeterminate, and
    so is every word computed from one. *)
Definition copy_word (dst src n : Z) : M unit := fun st =>
  if accessible st dst && accessible st src then
    let w :=
      match mem st !! src, mem st !! dst with
      | Some s, Some d =>
          if n >=? W then Some s
          else Some (s mod 2 ^ (8 * n) + d / 2 ^ (8 * n) * 2 ^ (8 * n))
      | Some s, None => if n >=? W then Some s else None
      | None, _ => None
      end in
    Some (tt, set_mem (match w with
                       | Some v => <[dst := v]> (mem st)
                       | None => delete dst (mem st)
                       end) st)
  else None.

Fixpoint memcpy_loop (k : nat) (dst src n : Z) : M unit :=
  match k with
  | O => ret tt
  | S k' =>
      if n <=? 0 then ret tt
      else copy_word dst src n >> memcpy_loop k' (dst + W) (src + W) (n - W)
  end.

Definition memcpy (dst src n : Z) : M unit :=
  memcpy_loop (Z.to_nat ((n + W - 1) / W)) dst src n.

(** The tail of [mm_realloc], reached when the block cannot be resized in
    place. *)
Definition realloc_fallback (fuel : nat) (ptr size oldsize : Z) : M Z :=
  let! newptr := mm_malloc fuel size in
  if newptr =? NULL then ret NULL
  else
    let oldsize := if size <? oldsize then size else oldsize in
    memcpy newptr ptr oldsize >>
    mm_free ptr >>
    ret newptr.

Definition mm_realloc (fuel : nat) (ptr size : Z) : M Z :=
  if size =? 0 then mm_free ptr >> ret NULL
  else if ptr =? NULL then mm_malloc fuel size
  else
    let new_size := int size in
    let new_size :=
      if negb (size_t a new_size mod W =? 0)
      then int (size_t a ((size_t a new_size / W + 1) * W))
      else new_size in
    let realloc_asize := int (new_size + int (DSIZE a)) in
    let! h := GET (HDRP a ptr) in
    let oldsize := GET_SIZE a h in
    let diffsize := int (size_t a (oldsize - realloc_asize)) in
    if realloc_asize =? int oldsize then ret ptr
    else if diffsize >? 0 then
      if diffsize >=? int (2 * DSIZE a) then
        PUT (HDRP a ptr) (PACK realloc_asize 1) >>
        let! f := FTRP ptr in
        PUT f (PACK realloc_asize 1) >>
        let! ptr := NEXT_BLKP ptr in
        PUT (HDRP a ptr) (PACK diffsize 0) >>
        let! f := FTRP ptr in
        PUT f (PACK diffsize 0) >>
        insert_block ptr diffsize >>
        coalesce ptr >>
        PREV_BLKP ptr
      else ret ptr
    else if diffsize <? 0 then
      let! next := NEXT_BLKP ptr in
      let! nh := GET (HDRP a next) in
      let nextsize := GET_SIZE a nh in
      let! next := NEXT_BLKP ptr in
      let! nw := GET (HDRP a next) in
      if GET_ALLOC nw =? 0 then
        if int nextsize >=? int (size_t a (Z.abs diffsize + 2 * DSIZE a)) then
          let! next := NEXT_BLKP ptr in
          delete_block next >>
          PUT (HDRP a ptr) (PACK realloc_asize 1) >>
          let! f := FTRP ptr in
          PUT f (PACK realloc_asize 1) >>
          let! ptr := NEXT_BLKP ptr in
          let newNextSize := int (int nextsize - Z.abs diffsize) in
          PUT (HDRP a ptr) (PACK newNextSize 0) >>
          let! f := FTRP ptr in
          PUT f (PACK newNextSize 0) >>
          insert_block ptr newNextSize >>
          coalesce ptr >>
          PREV_BLKP ptr
        else if int nextsize >=? Z.abs diffsize then
          let! next := NEXT_BLKP ptr in
          delete_block next >>
          PUT (HDRP a ptr) (PACK (int (size_t a (oldsize + nextsize))) 1) >>
          let! f := FTRP ptr in
          PUT f (PACK (int (size_t a (oldsize + nextsize))) 1) >>
          ret ptr
        else realloc_fallback fuel ptr size oldsize
      else realloc_fallback fuel ptr size oldsize
    else realloc_fallback fuel ptr size oldsize.

(** ** The consistency checker *)

(** The test of [checkblock] for a free block that escaped coalescing: for
    a free [bp] it reports whether the block before it or the block after
    it is not marked allocated. *)
Definition escaped_coalescing (bp : Z) : M bool :=
  let! h := GET (HDRP a bp) in
  if GET_ALLOC h =? 0 then
    let! prev := PREV_BLKP bp in
    let! ph := GET (HDRP a prev) in
    if negb (GET_ALLOC ph =? 1) then ret true
    else
      let! next := NEXT_BLKP bp in
      let! nh := GET (HDRP a next) in
      ret (negb (GET_ALLOC nh =? 1))
  else ret false.

(** The lines [checkblock] prints. *)
Inductive complaint :=
  | NotWordAligned
  | HeaderFooterMismatch
  | EscapedCoalescing
  | NotInFreeList.

(** What [checkblock] does besides reading the heap: the lines it prints,
    in order, and whether it ends the program with [exit(1)]. *)
Definition verdict : Type := list complaint * bool.

(** The [while] loop of [checkblock] that looks for [bp] on a list; it
    walks the whole list. *)
Fixpoint binl_loop (fuel : nat) (binl bp : Z) (binlflag : bool) : M bool :=
  match fuel with
  | O => fail
  | S fuel' =>
      if binl =? NULL then ret binlflag
      else
        let binlflag := if binl =? bp then true else binlflag in
        let! nxt := GET (node_next binl) in
        binl_loop fuel' nxt bp binlflag
  end.

(** [checkblock(bp)], with [ourVerbose] at its value [false]. *)
Definition checkblock (fuel : nat) (bp : Z) : M verdict :=
  let c1 := if negb (size_t a bp mod W =? 0) then [NotWordAligned] else [] in
  let! h := GET (HDRP a bp) in
  let! f := FTRP bp in
  let! fw := GET f in
  let c2 := if negb (h =? fw) then [HeaderFooterMismatch] else [] in
  let! h := GET (HDRP a bp) in
  if int (GET_ALLOC h) =? 0 then
    let! escaped := escaped_coalescing bp in
    if escaped then ret (c1 ++ c2 ++ [EscapedCoalescing], true)
    else
      let! h := GET (HDRP a bp) in
      let! list_idx := lift (get_list_index (int (GET_SIZE a h))) in
      let! binl := get_bin list_idx in
      let! binlflag := binl_loop fuel binl bp false in
      if negb binlflag then ret (c1 ++ c2 ++ [NotInFreeList], true)
      else ret (c1 ++ c2, false)
  else ret (c1 ++ c2, false).

End Allocator.

(** Modelled from the spec: [mem_init] of [memlib.c], which is not part of
    the sources at hand.  The region provider starts with an empty region
    at [start] that may grow up to [max]. *)
Definition mem_init (start max : Z) : heap :=
  Heap ∅ start start max NULL NULL 0.

(** ** Request sequences *)

(** The calls a client can make, as in the driver's trace files. *)
Inductive request :=
| Malloc (size : Z)
| Free (ptr : Z)
| Realloc (ptr size : Z).

Definition run_request (a : arch) (fuel : nat) (r : request) : M Z :=
  match r with
  | Malloc size => mm_malloc a fuel size
  | Free ptr => mm_free a ptr >> ret NULL
  | Realloc ptr size => mm_realloc a fuel ptr size
  end.

(** * The vocabulary of the properties *)

(** ** Bins *)

(** The bin of a size, as a total function on the non-negative sizes. *)
Definition bin_of (size : Z) : Z :=
  get_list_index_loop (Z.to_nat BIN_NUM) 0 size.

(** ** Free blocks and the free-list index *)

(** A block is given by its payload address and its size; it occupies the
    bytes from its header, one word below the payload address, up to its
    footer. *)
Definition block : Type := Z * Z.

Definition disjoint (b1 b2 : block) : Prop :=
  b1.1 + b1.2 <= b2.1 \/ b2.1 + b2.2 <= b1.1.

Section Representation.

Context (a : arch).
Local Abbreviation W := (WSIZE a).

(** [b] is a free block of bin [i]: aligned, of at least the minimum size,
    above the table of bin heads and below the end of the heap, with a
    header that carries its size and a clear allocated bit. *)
Record block_ok (st : heap) (i : Z) (b : block) : Prop := {
  bo_aligned : b.1 mod W = 0;
  bo_size_aligned : b.2 mod W = 0;
  bo_min : 4 * W <= b.2;
  bo_int : b.2 < 2 ^ 31;
  bo_low : bin_list st + BIN_NUM * W <= b.1 - W;
  bo_high : b.1 + b.2 <= mem_brk st;
  bo_header : exists h, mem st !! (b.1 - W) = Some h /\
                        GET_SIZE a h = b.2 /\ GET_ALLOC h = 0;
  bo_bin : bin_of b.2 = i
}.

(** The blocks [l] are linked from [h] to [tl] in this order, the first of
    them pointing back to [prev]. *)
Fixpoint seg (st : heap) (i prev h : Z) (l : list block) (tl : Z) : Prop :=
  match l with
  | [] => h = tl
  | b :: l' =>
      h = b.1 /\ block_ok st i b /\
      mem st !! node_prev a b.1 = Some prev /\
      exists nxt, mem st !! node_next b.1 = Some nxt /\ seg st i b.1 nxt l' tl
  end.

(** The index [L], which gives the blocks of every bin in list order, is
    what the heap holds: every bin head starts a well-linked list of the
    blocks of its bin, no block is listed twice, and listed blocks do not
    overlap. *)
Record index_ok (st : heap) (L : Z -> list block) : Prop := {
  io_base : 0 < bin_list st;
  io_base_aligned : bin_list st mod W = 0;
  io_base_low : mem_heap st <= bin_list st;
  io_base_high : bin_list st + BIN_NUM * W <= mem_brk st;
  io_brk : mem_brk st <= 2 ^ (8 * W);
  io_bins : forall i, 0 <= i < BIN_NUM ->
      exists h, mem st !! (bin_list st + i * W) = Some h /\
                seg st i NULL h (L i) NULL;
  io_nodup : forall i, 0 <= i < BIN_NUM -> List.NoDup (L i);
  io_sep : forall i j b1 b2, 0 <= i < BIN_NUM -> 0 <= j < BIN_NUM ->
      In b1 (L i) -> In b2 (L j) -> b1 = b2 \/ disjoint b1 b2
}.

(** The last block of the heap, the one just below the epilogue: [t] is
    its footer.  It is either allocated, and then every listed block lies
    below it, or free and listed. *)
Record tail_ok (st : heap) (L : Z -> list block) (t : Z) : Prop := {
  tl_footer : mem st !! (mem_brk st - 2 * W) = Some t;
  tl_header : exists ph, mem st !! (mem_brk st - GET_SIZE a t - W) = Some ph /\
                         GET_SIZE a ph = GET_SIZE a t;
  tl_size : 2 * W <= GET_SIZE a t;
  tl_low : bin_list st + BIN_NUM * W <= mem_brk st - GET_SIZE a t - W;
  tl_aligned : mem_brk st mod W = 0;
  tl_cases :
    (GET_ALLOC t <> 0 /\
     forall j d, 0 <= j < BIN_NUM -> In d (L j) ->
                 d.1 + d.2 <= mem_brk st - GET_SIZE a t) \/
    (GET_ALLOC t = 0 /\
     In (mem_brk st - GET_SIZE a t, GET_SIZE a t) (L (bin_of (GET_SIZE a t))))
}.

(** *** Deciding the representation predicates on a concrete heap *)

Definition block_okb (st : heap) (i : Z) (b : block) : bool :=
  (b.1 mod W =? 0) && (b.2 mod W =? 0) && (4 * W <=? b.2) && (b.2 <? 2 ^ 31) &&
  (bin_list st + BIN_NUM * W <=? b.1 - W) && (b.1 + b.2 <=? mem_brk st) &&
  match mem st !! (b.1 - W) with
  | Some h => (GET_SIZE a h =? b.2) && (GET_ALLOC h =? 0)
  | None => false
  end &&
  (bin_of b.2 =? i).

Fixpoint segb (st : heap) (i prev h : Z) (l : list block) (tl : Z) : bool :=
  match l with
  | [] => h =? tl
  | b :: l' =>
      (h =? b.1) && block_okb st i b &&
      match mem st !! (b.1 + W), mem st !! b.1 with
      | Some p, Some nxt => (p =? prev) && segb st i b.1 nxt l' tl
      | _, _ => false
      end
  end.

Definition block_eqb (b1 b2 : block) : bool := (b1.1 =? b2.1) && (b1.2 =? b2.2).

Definition disjointb (b1 b2 : block) : bool :=
  (b1.1 + b1.2 <=? b2.1) || (b2.1 + b2.2 <=? b1.1).

Fixpoint nodupb (l : list block) : bool :=
  match l with
  | [] => true
  | b :: l' => negb (existsb (block_eqb b) l') && nodupb l'
  end.

Definition index_okb (st : heap) (L : Z -> list block) : bool :=
  (0 <? bin_list st) && (bin_list st mod W =? 0) &&
  (mem_heap st <=? bin_list st) && (bin_list st + BIN_NUM * W <=? mem_brk st) &&
  (mem_brk st <=? 2 ^ (8 * W)) &&
  forallb (fun i => match mem st !! (bin_list st + i * W) with
                    | Some h => segb st i NULL h (L i) NULL
                    | None => false
                    end) (seqZ 0 BIN_NUM) &&
  forallb (fun i => nodupb (L i)) (seqZ 0 BIN_NUM) &&
  forallb (fun i => forallb (fun j =>
    forallb (fun b1 => forallb (fun b2 => block_eqb b1 b2 || disjointb b1 b2) (L j))
            (L i)) (seqZ 0 BIN_NUM)) (seqZ 0 BIN_NUM).

End Representation.

(** *** Operations on the index *)

(** The address of the last block of [l], or [prev] when [l] is empty. *)
Definition last_addr (prev : Z) (l : list block) : Z :=
  match rev l with
  | [] => prev
  | b :: _ => b.1
  end.

(** Removing the block at address [n] from a list. *)
Fixpoint remove_block (n : Z) (l : list block) : list block :=
  match l with
  | [] => []
  | c :: l' => if c.1 =? n then remove_block n l' else c :: remove_block n l'
  end.

Definition index_remove (b : block) (L : Z -> list block) : Z -> list block :=
  fun j => if j =? bin_of b.2 then remove_block b.1 (L j) else L j.

Definition index_insert (b : block) (L : Z -> list block) : Z -> list block :=
  fun j => if j =? bin_of b.2 then b :: L j else L j.

(** *** First fit over the index, in the words of the specification *)

Definition bins_from (L : Z -> list block) (i : Z) : list block :=
  concat (map L (seqZ i (BIN_NUM - i))).

Definition first_fit_spec (asize : Z) (l : list block) : Z :=
  match find (fun b : block => asize <=? b.2) l with
  | Some b => b.1
  | None => NULL
  end.

(** ** Sizes, in the words of the specification *)

(** [x] rounded up to a multiple of [k]. *)
Definition round_up (x k : Z) : Z := (x + k - 1) / k * k.

(** The adjusted block size as the specification words it: four words for
    a request of at most two words, otherwise two words of overhead on the
    request rounded up to a word; then the two overrides. *)
Definition adjusted_size_spec (a : arch) (s : Z) : Z :=
  let asize :=
    if s <=? 2 * WSIZE a then 4 * WSIZE a
    else 2 * WSIZE a + round_up s (WSIZE a) in
  let asize :=
    if (s mod 128 =? 0) && negb (s =? 0) && negb (s =? 128)
    then 2 * WSIZE a + s + 128 else asize in
  if s =? 4092 then WSIZE a + CHUNKSIZE else asize.

(** ** Computations that only write heap words, or nothing at all *)

Definition mem_only {A} (c : M A) : Prop :=
  forall st r st', c st = Some (r, st') -> exists m, st' = set_mem m st.

Definition read_only {A} (c : M A) : Prop :=
  forall st r st', c st = Some (r, st') -> st' = st.

(** A computation that either leaves the failure count alone or returns
    [NULL] from the state in which it started, with one more failure. *)
Definition refusal_safe (c : M Z) : Prop :=
  forall st r st', c st = Some (r, st') ->
    sbrk_failures st' = sbrk_failures st \/ (r = NULL /\ st' = note_failure st).

(** ** Concrete heaps and runs *)

(** The state in which a computation ends, or the initial state when it
    does not end normally. *)
Definition final_state {A} (c : M A) (st : heap) : heap :=
  match c st with
  | Some (_, st') => st'
  | None => st
  end.

(** The 64-bit heap right after [mm_init], in a region of one megabyte
    that starts at address 4096: one free block of 4112 bytes at 4248. *)
Definition heap0 : heap :=
  match mm_init LP64 (mem_init 4096 1048576) with
  | Some (_, st) => st
  | None => mem_init 4096 1048576
  end.

Definition index0 : Z -> list block :=
  fun j => if j =? 5 then [(4248, 4112)] else [].

(** A heap whose region is used up: the region ends where the first
    extension ended, and the one block of the heap is allocated. *)
Definition heap1 : heap :=
  match (mm_init LP64 >> mm_malloc LP64 4 4080) (mem_init 4096 8360) with
  | Some (_, st) => st
  | None => mem_init 4096 8360
  end.

(** [p = malloc(200); q = malloc(200); realloc(p, 1); x = malloc(176);
    free(p); free(x)] on a fresh heap; the run yields [p] and [x]. *)
Definition coalescing_trace : M (Z * Z) :=
  mm_init LP64 >>
  let! p := mm_malloc LP64 4 200 in
  let! q := mm_malloc LP64 4 200 in
  let! p' := mm_realloc LP64 4 p 1 in
  let! x := mm_malloc LP64 4 176 in
  mm_free LP64 p >>
  mm_free LP64 x >>
  ret (p, x).

(** [p = malloc(200); realloc(p, 1)] on a fresh heap. *)
Definition shrink_trace : M Z :=
  mm_init LP64 >>
  let! p := mm_malloc LP64 4 200 in
  mm_realloc LP64 4 p 1.

(** The heap in the middle of freeing the first block: after [mm_init] and
    [p = malloc(200)], header and footer of [p] have been marked free, and
    [p] is not listed yet. *)
Definition heap2 : heap :=
  final_state (mm_init LP64 >> mm_malloc LP64 2 200 >>
               PUT LP64 (HDRP LP64 4248) (PACK 216 0) >>
               PUT LP64 (4248 + 216 - DSIZE LP64) (PACK 216 0))
              (mem_init 4096 1048576).

Definition index2 : Z -> list block :=
  fun j => if j =? 5 then [(4464, 3896)] else [].

(** The heap after [mm_init], [p = malloc(200)], [q = malloc(200)] and
    [malloc(3664)]: three allocated blocks at 4248, 4464 and 4680 fill the
    heap, and no block is free. *)
Definition heap_full : heap :=
  final_state (mm_init LP64 >> mm_malloc LP64 2 200 >> mm_malloc LP64 2 200 >>
               mm_malloc LP64 2 3664) (mem_init 4096 1048576).

Definition index_full : Z -> list block := fun _ => [].

(** The same heap after [free(p)]: the first block is free. *)
Definition heap_freed : heap := final_state (mm_free LP64 4248) heap_full.

Definition index_freed : Z -> list block :=
  fun j => if j =? 1 then [(4248, 216)] else [].

(** A heap with two free blocks of the same bin: after [mm_init],
    [p = malloc(200)], [q = malloc(200)], [r = malloc(200)], [malloc(3448)],
    [free(p)] and [free(r)], the list of bin 1 holds [r] and then [p]. *)
Definition heap_two : heap :=
  final_state (mm_init LP64 >> mm_malloc LP64 2 200 >> mm_malloc LP64 2 200 >>
               mm_malloc LP64 2 200 >> mm_malloc LP64 2 3448 >>
               mm_free LP64 4248 >> mm_free LP64 4680) (mem_init 4096 1048576).

Definition index_two : Z -> list block :=
  fun j => if j =? 1 then [(4680, 216); (4248, 216)] else [].

(** * Properties *)

(** ** The bin of a size *)

Lemma get_list_index_loop_S n l c :
  get_list_index_loop (S n) l c =
  if (c <=? BOUND) || (l =? BIN_NUM - 1) then l
  else get_list_index_loop n (l + 1) (Z.shiftr c 1).
Proof. reflexivity. Qed.

Lemma get_list_index_loop_range n l c :
  l <= BIN_NUM - 1 -> l <= get_list_index_loop n l c <= BIN_NUM - 1.
Proof.
  revert l c. induction n as [|n IH]; intros l c Hl; simpl.
  - lia.
  - destruct ((c <=? BOUND) || (l =? BIN_NUM - 1)) eqn:E; [lia|].
    apply orb_false_iff in E as [_ E]. apply Z.eqb_neq in E.
    specialize (IH (l + 1) (Z.shiftr c 1)). lia.
Qed.

Lemma get_list_index_loop_mono n l c1 c2 :
  l <= BIN_NUM - 1 -> c1 <= c2 ->
  get_list_index_loop n l c1 <= get_list_index_loop n l c2.
Proof.
  revert l c1 c2. induction n as [|n IH]; intros l c1 c2 Hl Hc; simpl; [lia|].
  destruct (l =? BIN_NUM - 1) eqn:El.
  - rewrite !orb_true_r. lia.
  - rewrite !orb_false_r. apply Z.eqb_neq in El.
    destruct (c2 <=? BOUND) eqn:E2.
    + apply Z.leb_le in E2. destruct (c1 <=? BOUND) eqn:E1; [lia|].
      apply Z.leb_gt in E1. lia.
    + destruct (c1 <=? BOUND) eqn:E1.
      * pose proof (get_list_index_loop_range n (l + 1) (Z.shiftr c2 1)). lia.
      * apply IH; [lia|]. rewrite !Z.shiftr_div_pow2 by lia.
        apply Z.div_le_mono; lia.
Qed.

(** Starting the scan one bin later is the same as adding one to the
    result, up to the cap at the last bin. *)
Lemma get_list_index_loop_step n l c :
  l + 1 + Z.of_nat n = BIN_NUM -> 0 <= l ->
  get_list_index_loop n (l + 1) c =
  Z.min (BIN_NUM - 1) (1 + get_list_index_loop (S n) l c).
Proof.
  revert l c. induction n as [|n IH]; intros l c Hn Hl.
  - simpl. assert (l = 14) by (unfold BIN_NUM in *; lia). subst.
    rewrite orb_true_r. unfold BIN_NUM. lia.
  - rewrite (get_list_index_loop_S (S n) l c), (get_list_index_loop_S n (l + 1) c).
    assert ((l =? BIN_NUM - 1) = false) as ->
      by (apply Z.eqb_neq; unfold BIN_NUM in *; lia).
    rewrite orb_false_r.
    destruct (c <=? BOUND) eqn:Ec.
    + simpl. unfold BIN_NUM in *. lia.
    + simpl orb at 1.
      destruct (l + 1 =? BIN_NUM - 1) eqn:E1.
      * apply Z.eqb_eq in E1. rewrite get_list_index_loop_S, E1, orb_true_r.
        unfold BIN_NUM in *. lia.
      * rewrite IH by lia. reflexivity.
Qed.

Lemma get_list_index_bin_of s : 0 <= s -> get_list_index s = Some (bin_of s).
Proof.
  intros Hs. unfold get_list_index. destruct (0 <=? s) eqn:E; [done|].
  apply Z.leb_gt in E. lia.
Qed.

Lemma bin_of_range s : 0 <= bin_of s <= BIN_NUM - 1.
Proof. apply get_list_index_loop_range. unfold BIN_NUM. lia. Qed.

Lemma bin_of_mono s1 s2 : s1 <= s2 -> bin_of s1 <= bin_of s2.
Proof. apply get_list_index_loop_mono. unfold BIN_NUM. lia. Qed.

Lemma bin_of_small s : s <= BOUND -> bin_of s = 0.
Proof.
  intros Hs. unfold bin_of. change (Z.to_nat BIN_NUM) with 15%nat.
  rewrite get_list_index_loop_S.
  apply Z.leb_le in Hs. rewrite Hs. reflexivity.
Qed.

Lemma bin_of_halve s :
  BOUND < s -> bin_of s = Z.min (BIN_NUM - 1) (1 + bin_of (Z.shiftr s 1)).
Proof.
  intros Hs. unfold bin_of. change (Z.to_nat BIN_NUM) with 15%nat.
  rewrite (get_list_index_loop_S 14 0 s).
  apply Z.leb_gt in Hs. rewrite Hs. simpl orb. cbv iota.
  apply (get_list_index_loop_step 14 0); unfold BIN_NUM; lia.
Qed.

(** Bin [k] and the bins below it hold exactly the sizes below
    [129 * 2 ^ k], for every bin but the last. *)
Lemma bin_of_le_iff (k : nat) s :
  (k < 14)%nat -> 0 <= s -> bin_of s <= Z.of_nat k <-> s < 129 * 2 ^ Z.of_nat k.
Proof.
  revert s. induction k as [|k IH]; intros s Hk Hs.
  - change (129 * 2 ^ Z.of_nat 0) with 129.
    destruct (Z_le_gt_dec s BOUND) as [Hle|Hgt].
    + rewrite bin_of_small by done. unfold BOUND in *. lia.
    + rewrite bin_of_halve by lia.
      pose proof (bin_of_range (Z.shiftr s 1)). unfold BOUND, BIN_NUM in *. lia.
  - replace (2 ^ Z.of_nat (S k)) with (2 * 2 ^ Z.of_nat k)
      by (rewrite Nat2Z.inj_succ, Z.pow_succ_r; lia).
    assert (0 < 2 ^ Z.of_nat k) by (apply Z.pow_pos_nonneg; lia).
    destruct (Z_le_gt_dec s BOUND) as [Hle|Hgt].
    + rewrite bin_of_small by done. unfold BOUND in *. lia.
    + rewrite bin_of_halve by lia.
      assert (0 <= Z.shiftr s 1) as H1 by (apply Z.shiftr_nonneg; lia).
      specialize (IH (Z.shiftr s 1) ltac:(lia) H1).
      rewrite Z.shiftr_div_pow2 in * by lia. change (2 ^ 1) with 2 in *.
      pose proof (bin_of_range (s / 2)). unfold BIN_NUM in *.
      generalize dependent (2 ^ Z.of_nat k).
      generalize dependent (bin_of (s / 2)). intros b Hb p Hp IH'.
      Z.div_mod_to_equations. lia.
Qed.

Lemma bin_of_lt s : 0 <= bin_of s < BIN_NUM.
Proof. pose proof (bin_of_range s). lia. Qed.

(** ** Running the monad *)

Lemma bind_assoc {A B C} (c : M A) (k1 : A -> M B) (k2 : B -> M C) st :
  bind (bind c k1) k2 st = bind c (fun x => bind (k1 x) k2) st.
Proof. unfold bind. destruct (c st) as [[x st']|]; reflexivity. Qed.

Lemma bind_step {A B} (c : M A) (k : A -> M B) st x st' :
  c st = Some (x, st') -> bind c k st = k x st'.
Proof. unfold bind. intros ->. reflexivity. Qed.

Lemma bind_ret {A B} (x : A) (k : A -> M B) st : bind (ret x) k st = k x st.
Proof. reflexivity. Qed.

Lemma bind_gets {A B} (f : heap -> A) (k : A -> M B) st :
  bind (gets f) k st = k (f st) st.
Proof. reflexivity. Qed.

Lemma bind_inv {A B} (c : M A) (k : A -> M B) st r st' :
  bind c k st = Some (r, st') ->
  exists x st1, c st = Some (x, st1) /\ k x st1 = Some (r, st').
Proof.
  unfold bind. destruct (c st) as [[x st1]|]; [|discriminate]. eauto.
Qed.

(** ** Free blocks and the free-list index *)

Section Index.

Context (a : arch).

Local Abbreviation W := (WSIZE a).

Lemma W_cases : W = 4 \/ W = 8.
Proof. destruct a; auto. Qed.

Ltac arith :=
  unfold DSIZE, TSIZE, BIN_NUM, BOUND, CHUNKSIZE, ASIZE, NULL, node_prev, node_next, HDRP in *;
  destruct a; simpl WSIZE in *; Z.div_mod_to_equations; lia.

Lemma block_ok_pos st i b : 0 < bin_list st -> block_ok a st i b -> 0 < b.1.
Proof. intros H0 [? ? ? ? ? ? ? ?]. arith. Qed.

Lemma accessible_true st p :
  p mod W = 0 -> mem_heap st <= p -> p + W <= mem_brk st ->
  accessible a st p = true.
Proof.
  intros H1 H2 H3. unfold accessible.
  apply Z.eqb_eq in H1. apply Z.leb_le in H2, H3. by rewrite H1, H2, H3.
Qed.

Lemma GET_ok st p v :
  accessible a st p = true -> mem st !! p = Some v -> GET a p st = Some (v, st).
Proof. intros Ha Hv. unfold GET. by rewrite Ha, Hv. Qed.

Lemma PUT_ok st p v :
  accessible a st p = true ->
  PUT a p v st = Some (tt, set_mem (<[p := size_t a v]> (mem st)) st).
Proof. intros Ha. unfold PUT. by rewrite Ha. Qed.

(** Accessibility of the three words of a listed block that the index
    relies on, and of the bin heads. *)
Lemma block_ok_acc st i b (L : Z -> list block) :
  index_ok a st L -> block_ok a st i b ->
  accessible a st (b.1 - W) = true /\ accessible a st b.1 = true /\
  accessible a st (b.1 + W) = true.
Proof.
  intros HL Hb. destruct HL, Hb.
  repeat split; apply accessible_true; arith.
Qed.

Lemma slot_acc st L i :
  index_ok a st L -> 0 <= i < BIN_NUM -> accessible a st (bin_list st + i * W) = true.
Proof.
  intros HL Hi. destruct HL. apply accessible_true; arith.
Qed.

Lemma int_small z : - 2 ^ 31 <= z < 2 ^ 31 -> int z = z.
Proof. intros Hz. unfold int. rewrite Z.mod_small; lia. Qed.

Lemma first_fit_app_found asize l1 l2 b :
  find (fun b : block => asize <=? b.2) l1 = Some b ->
  first_fit_spec asize (l1 ++ l2) = b.1.
Proof.
  unfold first_fit_spec. induction l1 as [|c l1 IH]; simpl; [discriminate|].
  destruct (asize <=? c.2); [by intros [= ->]|done].
Qed.

Lemma first_fit_app_none asize l1 l2 :
  find (fun b : block => asize <=? b.2) l1 = None ->
  first_fit_spec asize (l1 ++ l2) = first_fit_spec asize l2.
Proof.
  unfold first_fit_spec. induction l1 as [|c l1 IH]; simpl; [done|].
  destruct (asize <=? c.2); [discriminate|done].
Qed.

Lemma seg_In st i prev h l tl b :
  seg a st i prev h l tl -> In b l -> block_ok a st i b.
Proof.
  revert prev h. induction l as [|c l IH]; intros prev h Hseg Hin; [done|].
  destruct Hseg as (_ & Hc & _ & nxt & _ & Hseg).
  destruct Hin as [<-|Hin]; eauto.
Qed.

Lemma index_ok_In st L i b :
  index_ok a st L -> 0 <= i < BIN_NUM -> In b (L i) -> block_ok a st i b.
Proof.
  intros HL Hi Hin. destruct (io_bins a _ _ HL i Hi) as (h & _ & Hseg).
  eapply seg_In; eauto.
Qed.

Lemma bins_from_cons L i :
  0 <= i < BIN_NUM -> bins_from L i = L i ++ bins_from L (i + 1).
Proof.
  intros Hi. unfold bins_from, BIN_NUM in *. rewrite seqZ_cons by lia. simpl.
  do 4 f_equal; lia.
Qed.

Lemma find_block_loop_seg st L i prev h l fuel asize :
  index_ok a st L -> seg a st i prev h l NULL -> (length l < fuel)%nat ->
  find_block_loop a fuel h asize st = Some (first_fit_spec asize l, st).
Proof.
  intros HL. revert prev h fuel.
  induction l as [|b l IH]; intros prev h fuel Hseg Hfuel;
    (destruct fuel as [|fuel]; [simpl in Hfuel; lia|]); simpl in Hseg |- *.
  - subst h. reflexivity.
  - destruct Hseg as (-> & Hb & Hprev & nxt & Hnxt & Hseg).
    pose proof (block_ok_pos _ _ _ (io_base a _ _ HL) Hb) as Hpos.
    destruct (block_ok_acc _ _ _ _ HL Hb) as (Ah & An & _).
    destruct (bo_header a _ _ _ Hb) as (hd & Hhd & Hsz & _).
    assert ((b.1 =? NULL) = false) as -> by (apply Z.eqb_neq; unfold NULL; lia).
    rewrite (bind_step _ _ _ _ _ (GET_ok _ _ _ Ah Hhd)).
    rewrite Hsz, int_small by (destruct Hb; arith).
    unfold first_fit_spec. simpl. rewrite Z.geb_leb.
    destruct (asize <=? b.2) eqn:E; [reflexivity|].
    rewrite (bind_step _ _ _ _ _ (GET_ok _ _ _ An Hnxt)).
    apply (IH b.1); [done|simpl in Hfuel; lia].
Qed.

Lemma find_fit_loop_index st L fuel n i asize :
  index_ok a st L -> 0 <= i -> i + Z.of_nat n = BIN_NUM ->
  0 < asize < 2 ^ 31 ->
  (forall j, 0 <= j < BIN_NUM -> (length (L j) < fuel)%nat) ->
  find_fit_loop a fuel n i asize st =
  Some (first_fit_spec asize (bins_from L i), st).
Proof.
  intros HL. revert i. induction n as [|n IH]; intros i Hi Hn Hasize Hfuel.
  - assert (i = BIN_NUM) as -> by lia. reflexivity.
  - assert (0 <= i < BIN_NUM) as Hi' by lia.
    cbn [find_fit_loop]. unfold get_bin. rewrite bind_assoc, bind_gets.
    destruct (io_bins a _ _ HL i Hi') as (h & Hh & Hseg).
    rewrite (bind_step _ _ _ _ _ (GET_ok _ _ _ (slot_acc _ _ _ HL Hi') Hh)).
    unfold find_block_list. rewrite bind_assoc.
    rewrite int_small by lia.
    assert ((asize >? 0) = true) as -> by (apply Z.gtb_lt; lia).
    cbn [assert]. rewrite bind_ret.
    rewrite (bind_step _ _ _ _ _
               (find_block_loop_seg _ _ _ _ _ _ _ asize HL Hseg (Hfuel i Hi'))).
    rewrite bins_from_cons by done.
    destruct (find (fun b : block => asize <=? b.2) (L i)) as [b|] eqn:Ef.
    + pose proof (find_some _ _ Ef) as [Hin _].
      pose proof (block_ok_pos _ _ _ (io_base a _ _ HL)
                    (index_ok_In _ _ _ _ HL Hi' Hin)) as Hpos.
      rewrite (first_fit_app_found _ _ _ _ Ef).
      assert (first_fit_spec asize (L i) = b.1) as -> by (unfold first_fit_spec; by rewrite Ef).
      assert ((b.1 =? NULL) = false) as -> by (apply Z.eqb_neq; unfold NULL; lia).
      reflexivity.
    + rewrite (first_fit_app_none _ _ _ Ef).
      assert (first_fit_spec asize (L i) = NULL) as -> by (unfold first_fit_spec; by rewrite Ef).
      simpl. apply IH; [lia|lia|done|done].
Qed.

Lemma find_fit_index st L fuel asize :
  index_ok a st L -> 0 < asize < 2 ^ 31 ->
  (forall j, 0 <= j < BIN_NUM -> (length (L j) < fuel)%nat) ->
  find_fit a fuel asize st =
  Some (first_fit_spec asize (bins_from L (bin_of asize)), st).
Proof.
  intros HL Hasize Hfuel. unfold find_fit.
  rewrite int_small by lia.
  rewrite get_list_index_bin_of by lia. unfold lift at 1.
  change (bind (fun st0 => Some (bin_of asize, st0))
               (fun list_idx => find_fit_loop a fuel (Z.to_nat (BIN_NUM - list_idx)) list_idx asize) st)
    with (find_fit_loop a fuel (Z.to_nat (BIN_NUM - bin_of asize)) (bin_of asize) asize st).
  pose proof (bin_of_range asize).
  apply find_fit_loop_index; try done; lia.
Qed.

(** *** Framing *)

Lemma mem_set_mem m st : mem (set_mem m st) = m.
Proof. reflexivity. Qed.

Lemma accessible_set_mem m st p : accessible a (set_mem m st) p = accessible a st p.
Proof. reflexivity. Qed.

Lemma set_mem_set_mem m m' st : set_mem m (set_mem m' st) = set_mem m st.
Proof. reflexivity. Qed.

Lemma set_mem_id st : set_mem (mem st) st = st.
Proof. by destruct st. Qed.

Lemma block_ok_frame st m i b :
  block_ok a st i b -> m !! (b.1 - W) = mem st !! (b.1 - W) ->
  block_ok a (set_mem m st) i b.
Proof.
  intros [] Hm. split; try done. simpl. by rewrite Hm.
Qed.

Lemma seg_frame st m i prev h l tl :
  seg a st i prev h l tl ->
  (forall b, In b l -> m !! (b.1 - W) = mem st !! (b.1 - W) /\
                       m !! b.1 = mem st !! b.1 /\
                       m !! (b.1 + W) = mem st !! (b.1 + W)) ->
  seg a (set_mem m st) i prev h l tl.
Proof.
  revert prev h. induction l as [|b l IH]; intros prev h Hseg Hm; [done|].
  destruct Hseg as (-> & Hb & Hprev & nxt & Hnxt & Hseg).
  destruct (Hm b (or_introl eq_refl)) as (Hmh & Hmn & Hmp).
  simpl. split; [done|]. split; [by apply block_ok_frame|].
  unfold node_prev, node_next in *. rewrite Hmp, Hmn.
  split; [done|]. exists nxt. split; [done|].
  apply IH; [done|]. intros c Hc. apply Hm. by right.
Qed.

Lemma last_addr_cons prev b l : last_addr prev (b :: l) = last_addr b.1 l.
Proof.
  unfold last_addr. simpl. destruct (rev l) as [|c r] eqn:E; reflexivity.
Qed.

Lemma seg_app st i prev h l1 l2 tl :
  seg a st i prev h (l1 ++ l2) tl <->
  exists mid, seg a st i prev h l1 mid /\ seg a st i (last_addr prev l1) mid l2 tl.
Proof.
  revert prev h. induction l1 as [|b l1 IH]; intros prev h; simpl.
  - split.
    + intros H. exists h. done.
    + intros (mid & -> & H). done.
  - rewrite last_addr_cons. split.
    + intros (-> & Hb & Hprev & nxt & Hnxt & Hseg).
      apply IH in Hseg as (mid & H1 & H2). exists mid. eauto 10.
    + intros (mid & (-> & Hb & Hprev & nxt & Hnxt & Hseg) & H2).
      repeat (split; [done|]). exists nxt. split; [done|].
      apply IH. eauto.
Qed.

(** Listed blocks are pairwise apart. *)
Lemma index_apart st L i j c d :
  index_ok a st L -> 0 <= i < BIN_NUM -> 0 <= j < BIN_NUM ->
  In c (L i) -> In d (L j) -> c <> d ->
  c.1 + 4 * W <= d.1 \/ d.1 + 4 * W <= c.1.
Proof.
  intros HL Hi Hj Hc Hd Hne.
  pose proof (index_ok_In _ _ _ _ HL Hi Hc) as [].
  pose proof (index_ok_In _ _ _ _ HL Hj Hd) as [].
  destruct (io_sep a _ _ HL i j c d Hi Hj Hc Hd) as [?|[?|?]]; [done|lia|lia].
Qed.

Lemma remove_block_In n l c : In c (remove_block n l) -> In c l /\ c.1 <> n.
Proof.
  induction l as [|d l IH]; simpl; [done|].
  destruct (d.1 =? n) eqn:E.
  - intros H. destruct (IH H). auto.
  - apply Z.eqb_neq in E. intros [<-|H]; [auto|]. destruct (IH H). auto.
Qed.

Lemma remove_block_NoDup n l : List.NoDup l -> List.NoDup (remove_block n l).
Proof.
  induction 1 as [|d l Hd Hl IH]; simpl; [constructor|].
  destruct (d.1 =? n); [done|]. constructor; [|done].
  intros H. apply remove_block_In in H as [H _]. done.
Qed.

Lemma remove_block_notin n l :
  (forall c, In c l -> c.1 <> n) -> remove_block n l = l.
Proof.
  induction l as [|d l IH]; intros H; simpl; [done|].
  assert ((d.1 =? n) = false) as -> by (apply Z.eqb_neq, H; by left).
  f_equal. apply IH. intros c Hc. apply H. by right.
Qed.

Lemma remove_block_split b l1 l2 :
  (forall c, In c (l1 ++ l2) -> c.1 <> b.1) ->
  remove_block b.1 (l1 ++ b :: l2) = l1 ++ l2.
Proof.
  intros H. induction l1 as [|d l1 IH]; simpl.
  - rewrite Z.eqb_refl. by apply remove_block_notin.
  - assert ((d.1 =? b.1) = false) as -> by (apply Z.eqb_neq, H; by left).
    f_equal. apply IH. intros c Hc. apply H. by right.
Qed.

Lemma snoc_case {A} (l : list A) : l = [] \/ exists l' x, l = l' ++ [x].
Proof. induction l as [|x l _] using rev_ind; eauto. Qed.

Lemma last_addr_snoc prev l p : last_addr prev (l ++ [p]) = p.1.
Proof. unfold last_addr. by rewrite rev_app_distr. Qed.

Lemma NoDup_split_distinct {A} (l1 l2 : list A) (x : A) :
  List.NoDup (l1 ++ x :: l2) ->
  (forall y, In y l1 -> y <> x) /\ (forall y, In y l2 -> y <> x) /\
  (forall y z, In y l1 -> In z l2 -> y <> z).
Proof.
  intros Hnd. pose proof (NoDup_remove_2 _ _ _ Hnd) as Hx.
  apply NoDup_remove_1 in Hnd. rewrite in_app_iff in Hx.
  repeat split.
  - intros y Hy ->. tauto.
  - intros y Hy ->. tauto.
  - induction l1 as [|u l1 IH]; intros y z Hy Hz; [done|].
    simpl in Hnd. apply NoDup_cons_iff in Hnd as [Hu Hnd].
    destruct Hy as [->|Hy].
    + intros ->. apply Hu, in_app_iff. auto.
    + apply IH; auto. simpl in Hx. tauto.
Qed.

(** Re-pointing the back link of the first block of a list. *)
Lemma seg_relink_head st m i prev prev' h c l tl :
  seg a st i prev h (c :: l) tl ->
  m !! (c.1 + W) = Some prev' ->
  m !! (c.1 - W) = mem st !! (c.1 - W) -> m !! c.1 = mem st !! c.1 ->
  (forall d, In d l -> m !! (d.1 - W) = mem st !! (d.1 - W) /\
                       m !! d.1 = mem st !! d.1 /\
                       m !! (d.1 + W) = mem st !! (d.1 + W)) ->
  seg a (set_mem m st) i prev' h (c :: l) tl.
Proof.
  intros (-> & Hc & Hcp & nxt & Hcn & Hseg) Hp Hh Hn Hl.
  simpl. split; [done|]. split; [by apply block_ok_frame|].
  split; [done|]. exists nxt. unfold node_next in *. rewrite Hn.
  split; [done|]. by apply seg_frame.
Qed.

(** Re-pointing the forward link of the last block of a list. *)
Lemma seg_relink_last st m i prev h l p tl tl' :
  seg a st i prev h (l ++ [p]) tl ->
  m !! p.1 = Some tl' ->
  m !! (p.1 - W) = mem st !! (p.1 - W) -> m !! (p.1 + W) = mem st !! (p.1 + W) ->
  (forall d, In d l -> m !! (d.1 - W) = mem st !! (d.1 - W) /\
                       m !! d.1 = mem st !! d.1 /\
                       m !! (d.1 + W) = mem st !! (d.1 + W)) ->
  seg a (set_mem m st) i prev h (l ++ [p]) tl'.
Proof.
  intros Hseg Hn Hh Hp Hl.
  apply seg_app in Hseg as (mid & H1 & -> & Hpb & Hpp & nxt & Hpn & Hnil).
  apply seg_app. exists p.1. split; [by apply seg_frame|].
  simpl. split; [done|]. split; [by apply block_ok_frame|].
  unfold node_prev, node_next in *. rewrite Hp. split; [done|].
  exists tl'. done.
Qed.

Lemma slot_bound (base j : Z) :
  0 <= j < BIN_NUM -> base <= base + j * W /\ base + j * W + W <= base + BIN_NUM * W.
Proof. intros Hj. pose proof W_cases. unfold BIN_NUM in *. nia. Qed.

Lemma slot_inj (base i j : Z) : i <> j -> base + i * W <> base + j * W.
Proof. intros Hij. pose proof W_cases. nia. Qed.

Lemma index_remove_In b L j d :
  In d (index_remove b L j) -> In d (L j).
Proof.
  unfold index_remove. destruct (j =? bin_of b.2); [|done].
  intros H. by apply remove_block_In in H as [H _].
Qed.

(** Unlinking [b] from its bin: [m] is the memory after the pointer writes
    of [delete_block], which store [smaller] in cell [A] and, when there is
    a next block, [bigger] in cell [B]. *)
Lemma unlink_index st L b m l1 l2 bigger smaller A B :
  index_ok a st L ->
  L (bin_of b.2) = l1 ++ b :: l2 ->
  bigger = last_addr NULL l1 ->
  smaller = match l2 with [] => NULL | c :: _ => c.1 end ->
  A = (if bigger =? NULL then bin_list st + bin_of b.2 * W else bigger) ->
  B = (if smaller =? NULL then A else smaller + W) ->
  m !! A = Some smaller ->
  (smaller <> NULL -> m !! B = Some bigger) ->
  (forall p, p <> A -> p <> B -> m !! p = mem st !! p) ->
  index_ok a (set_mem m st) (index_remove b L).
Proof.
  intros HL HLi Hbig Hsm HA HB HmA HmB Hm.
  set (i := bin_of b.2) in *.
  assert (Hi : 0 <= i < BIN_NUM) by (pose proof (bin_of_range b.2); lia).
  pose proof (io_nodup a _ _ HL i Hi) as Hnd. rewrite HLi in Hnd.
  destruct (NoDup_split_distinct _ _ _ Hnd) as (Hd1 & Hd2 & Hd12).
  assert (Hin1 : forall d, In d l1 -> In d (L i))
    by (intros d Hd; rewrite HLi, in_app_iff; auto).
  assert (Hin2 : forall d, In d l2 -> In d (L i))
    by (intros d Hd; rewrite HLi, in_app_iff; simpl; auto).
  assert (Hok : forall d, In d (L i) -> block_ok a st i d)
    by (intros d Hd; by apply (index_ok_In st L i d)).
  assert (Hap : forall c d, In c (L i) -> In d (L i) -> c <> d ->
                  c.1 + 4 * W <= d.1 \/ d.1 + 4 * W <= c.1)
    by (intros c d Hc Hd; by apply (index_apart st L i i c d)).
  pose proof (io_base a _ _ HL) as Hbase.
  pose proof W_cases as HW.
  pose proof (slot_bound (bin_list st) i Hi) as Hsi.
  (* blocks of the other bins are apart from those of bin [i] *)
  assert (Hother : forall j d c, 0 <= j < BIN_NUM -> j <> i -> In d (L j) ->
            In c (L i) -> d.1 + 4 * W <= c.1 \/ c.1 + 4 * W <= d.1).
  { intros j d c Hj Hji Hd Hc. apply (index_apart st L j i d c HL Hj Hi Hd Hc).
    intros ->. pose proof (index_ok_In _ _ _ _ HL Hj Hd) as [].
    pose proof (Hok c Hc) as []. congruence. }
  assert (Htab : forall j d, 0 <= j < BIN_NUM -> In d (L j) ->
            bin_list st + BIN_NUM * W <= d.1 - W).
  { intros j d Hj Hd. by destruct (index_ok_In _ _ _ _ HL Hj Hd). }
  destruct (io_bins a _ _ HL i Hi) as (h & Hh & Hseg). rewrite HLi in Hseg.
  apply seg_app in Hseg as (mid & S1 & -> & Hb & Hbp & nxt & Hbn & S3).
  unfold node_prev, node_next in *.
  assert (Hbigger : bigger = NULL /\ l1 = [] \/
                    exists l1' p, l1 = l1' ++ [p] /\ bigger = p.1 /\ 0 < p.1).
  { destruct (snoc_case l1) as [->|(l1' & p & ->)]; [left; by subst|right].
    exists l1', p. rewrite last_addr_snoc in Hbig. repeat split; try done.
    apply (block_ok_pos st i); [done|]. apply Hok, Hin1, in_app_iff. simpl. auto. }
  assert (Hsmaller : smaller = NULL /\ l2 = [] \/
                     exists c l2', l2 = c :: l2' /\ smaller = c.1 /\ 0 < c.1).
  { destruct l2 as [|c l2']; [left; by subst|right].
    exists c, l2'. repeat split; try done.
    apply (block_ok_pos st i); [done|]. apply Hok, Hin2. simpl. auto. }
  assert (HA' : A = bin_list st + i * W /\ l1 = [] \/
                exists l1' p, l1 = l1' ++ [p] /\ A = p.1).
  { destruct Hbigger as [[-> ->]|(l1' & p & -> & -> & Hp)]; [left; by subst|right].
    exists l1', p. split; [done|]. subst A.
    assert ((p.1 =? NULL) = false) as -> by (apply Z.eqb_neq; unfold NULL; lia). done. }
  assert (HB' : B = A /\ l2 = [] \/ exists c l2', l2 = c :: l2' /\ B = c.1 + W).
  { destruct Hsmaller as [[-> ->]|(c & l2' & -> & -> & Hc)]; [left; by subst|right].
    exists c, l2'. split; [done|]. subst B.
    assert ((c.1 =? NULL) = false) as -> by (apply Z.eqb_neq; unfold NULL; lia). done. }
  (* the words of a listed block other than the neighbours of [b] are
     not written *)
  assert (Hkeep : forall j d, 0 <= j < BIN_NUM -> In d (L j) ->
            (forall l1' p, l1 = l1' ++ [p] -> d <> p) ->
            (forall c l2', l2 = c :: l2' -> d <> c) ->
            m !! (d.1 - W) = mem st !! (d.1 - W) /\
            m !! d.1 = mem st !! d.1 /\
            m !! (d.1 + W) = mem st !! (d.1 + W)).
  { intros j d Hj Hd Hnp Hnc. pose proof (Htab j d Hj Hd) as Hdt.
    assert (HdA : A < d.1 - W \/ d.1 + 2 * W <= A).
    { destruct HA' as [[-> _]|(l1' & p & -> & ->)]; [lia|].
      assert (In p (L i)) as Hp by (apply Hin1, in_app_iff; simpl; auto).
      specialize (Hnp _ _ eq_refl).
      pose proof (index_apart st L j i d p HL Hj Hi Hd Hp Hnp). lia. }
    assert (HdB : B < d.1 - W \/ d.1 + 2 * W <= B).
    { destruct HB' as [[-> _]|(c & l2' & -> & ->)]; [done|].
      assert (In c (L i)) as Hc by (apply Hin2; simpl; auto).
      specialize (Hnc _ _ eq_refl).
      pose proof (index_apart st L j i d c HL Hj Hi Hd Hc Hnc). lia. }
    repeat split; apply Hm; lia. }
  assert (Hslot : forall j, 0 <= j < BIN_NUM -> bin_list st + j * W <> A ->
            m !! (bin_list st + j * W) = mem st !! (bin_list st + j * W)).
  { intros j Hj HjA. apply Hm; [done|].
    destruct HB' as [[-> _]|(c & l2' & -> & ->)]; [done|].
    pose proof (Htab i c Hi ltac:(apply Hin2; simpl; auto)).
    pose proof (slot_bound (bin_list st) j Hj). lia. }
  split; try apply HL.
  - (* the lists *)
    intros j Hj. simpl. destruct (Z.eq_dec j i) as [->|Hji].
    + unfold index_remove. fold i. rewrite Z.eqb_refl, HLi.
      rewrite remove_block_split.
      2:{ intros c Hc Heq. apply in_app_iff in Hc as [Hc|Hc].
          - pose proof (Hap c b (Hin1 c Hc) ltac:(rewrite HLi, in_app_iff; simpl; auto)
                          (Hd1 c Hc)). lia.
          - pose proof (Hap c b (Hin2 c Hc) ltac:(rewrite HLi, in_app_iff; simpl; auto)
                          (Hd2 c Hc)). lia. }
      pose proof (NoDup_app_remove_l _ _ Hnd) as Hnd2.
      apply NoDup_cons_iff in Hnd2 as [_ Hnd2].
      pose proof (NoDup_app_remove_r _ _ Hnd) as Hnd1.
      clear HA' HB'.
      destruct Hbigger as [[Hbg ->]|(l1' & p & -> & Hbg & Hp)];
        destruct Hsmaller as [[Hsml ->]|(c & l2' & -> & Hsml & Hc)];
        rewrite Hbg in HA; rewrite Hsml in HB;
        try (assert ((p.1 =? NULL) = false) as Ep
               by (apply Z.eqb_neq; unfold NULL; lia); rewrite Ep in HA);
        try (assert ((c.1 =? NULL) = false) as Ec
               by (apply Z.eqb_neq; unfold NULL; lia); rewrite Ec in HB);
        simpl in HA, HB; subst A B.
      * exists NULL. rewrite HmA, Hsml. done.
      * exists c.1. rewrite HmA, Hsml. split; [done|].
        destruct S3 as (Hnxt & S3). rewrite Hnxt in *.
        pose proof (Htab i c Hi ltac:(apply Hin2; simpl; auto)).
        apply (seg_relink_head st m i b.1 NULL c.1 c l2' NULL).
        -- done.
        -- rewrite Hsml, Hbg in HmB. apply HmB. unfold NULL. lia.
        -- apply Hm; lia.
        -- apply Hm; lia.
        -- intros d Hd. apply (Hkeep i d Hi); [apply Hin2; simpl; auto| |].
           ++ intros l p E. by destruct l.
           ++ intros c' l' [= <- <-] ->. by apply NoDup_cons_iff in Hnd2 as [? _].
      * exists h. rewrite app_nil_r.
        pose proof (Htab i p Hi ltac:(apply Hin1, in_app_iff; simpl; auto)).
        split; [rewrite Hslot; [done|done|lia]|].
        rewrite Hsml in HmA.
        apply (seg_relink_last st m i NULL h l1' p b.1 NULL); try done.
        -- apply Hm; lia.
        -- apply Hm; lia.
        -- intros d Hd. apply (Hkeep i d Hi);
             [apply Hin1, in_app_iff; auto| |done].
           intros l p' E ->. apply app_inj_tail in E as [-> <-].
           destruct (NoDup_split_distinct _ _ _ Hnd1) as (Hx & _). by apply (Hx p).
      * exists h.
        pose proof (Htab i p Hi ltac:(apply Hin1, in_app_iff; simpl; auto)).
        pose proof (Htab i c Hi ltac:(apply Hin2; simpl; auto)).
        assert (p <> c) as Hpc by (apply Hd12; [apply in_app_iff|]; simpl; auto).
        pose proof (Hap p c ltac:(apply Hin1, in_app_iff; simpl; auto)
                      ltac:(apply Hin2; simpl; auto) Hpc).
        split; [rewrite Hslot; [done|done|lia]|].
        destruct S3 as (Hnxt & S3'). rewrite Hnxt in *.
        rewrite Hsml in HmA. rewrite Hsml, Hbg in HmB.
        apply seg_app. exists c.1. split.
        -- apply (seg_relink_last st m i NULL h l1' p b.1 c.1); try done.
           ++ apply Hm; lia.
           ++ apply Hm; lia.
           ++ intros d Hd. apply (Hkeep i d Hi); [apply Hin1, in_app_iff; auto| |].
              ** intros l p' E ->. apply app_inj_tail in E as [-> <-].
                 destruct (NoDup_split_distinct _ _ _ Hnd1) as (Hx & _).
                 by apply (Hx p).
              ** intros c' l' [= <- <-] ->.
                 exact (Hd12 c c ltac:(apply in_app_iff; auto) ltac:(simpl; auto) eq_refl).
        -- rewrite last_addr_snoc.
           apply (seg_relink_head st m i b.1 p.1 c.1 c l2' NULL).
           ++ done.
           ++ apply HmB. unfold NULL. lia.
           ++ apply Hm; lia.
           ++ apply Hm; lia.
           ++ intros d Hd. apply (Hkeep i d Hi); [apply Hin2; simpl; auto| |].
              ** intros l p' E ->. apply app_inj_tail in E as [-> <-].
                 exact (Hd12 p p ltac:(apply in_app_iff; simpl; auto) ltac:(simpl; auto) eq_refl).
              ** intros c' l' [= <- <-] ->.
                 by apply NoDup_cons_iff in Hnd2 as [? _].
    + unfold index_remove. fold i.
      assert ((j =? i) = false) as -> by by apply Z.eqb_neq.
      destruct (io_bins a _ _ HL j Hj) as (hj & Hhj & Hsegj).
      exists hj. split.
      * rewrite Hslot; [done|done|].
        destruct HA' as [[-> _]|(l1' & p & -> & ->)]; [by apply slot_inj|].
        pose proof (Htab i p Hi ltac:(apply Hin1, in_app_iff; simpl; auto)).
        pose proof (slot_bound (bin_list st) j Hj). lia.
      * apply seg_frame; [done|]. intros d Hd. apply (Hkeep j d Hj Hd).
        -- intros l1' p -> ->.
           pose proof (index_ok_In _ _ _ _ HL Hj Hd) as [].
           pose proof (Hok p ltac:(apply Hin1, in_app_iff; simpl; auto)) as [].
           congruence.
        -- intros c l2' -> ->.
           pose proof (index_ok_In _ _ _ _ HL Hj Hd) as [].
           pose proof (Hok c ltac:(apply Hin2; simpl; auto)) as [].
           congruence.
  - intros j Hj. unfold index_remove. destruct (j =? bin_of b.2).
    + apply remove_block_NoDup. by apply (io_nodup a _ _ HL).
    + by apply (io_nodup a _ _ HL).
  - intros j1 j2 b1 b2 Hj1 Hj2 H1 H2.
    apply index_remove_In in H1, H2.
    exact (io_sep a _ _ HL j1 j2 b1 b2 Hj1 Hj2 H1 H2).
Qed.

Lemma bind_assert_true {B} (c : bool) (k : unit -> M B) st :
  c = true -> bind (assert c) k st = k tt st.
Proof. by intros ->. Qed.

Lemma bind_lift_Some {A B} (x : A) (k : A -> M B) st :
  bind (lift (Some x)) k st = k x st.
Proof. reflexivity. Qed.

Lemma size_t_small z : 0 <= z < 2 ^ (8 * W) -> size_t a z = z.
Proof. intros Hz. unfold size_t. by apply Z.mod_small. Qed.

Lemma set_bin_ok st i v :
  accessible a st (bin_list st + i * W) = true ->
  set_bin a i v st =
  Some (tt, set_mem (<[bin_list st + i * W := size_t a v]> (mem st)) st).
Proof.
  intros Ha. unfold set_bin. rewrite bind_gets. by apply PUT_ok.
Qed.

Lemma pow_W_big : 2 ^ 32 <= 2 ^ (8 * W).
Proof. destruct a; simpl; lia. Qed.

Lemma block_addr_range st L i b :
  index_ok a st L -> block_ok a st i b -> 0 < b.1 < 2 ^ (8 * W).
Proof.
  intros HL Hb. pose proof (block_ok_pos _ _ _ (io_base a _ _ HL) Hb).
  pose proof (io_brk a _ _ HL). destruct Hb. pose proof W_cases. lia.
Qed.

Lemma delete_block_spec st L b :
  index_ok a st L -> In b (L (bin_of b.2)) ->
  exists m,
    delete_block a b.1 st = Some (tt, set_mem m st) /\
    index_ok a (set_mem m st) (index_remove b L) /\
    (forall p, p <> bin_list st + bin_of b.2 * W ->
               (forall c, In c (L (bin_of b.2)) -> c <> b ->
                          p <> c.1 /\ p <> c.1 + W) ->
               m !! p = mem st !! p).
Proof.
  intros HL Hin. set (i := bin_of b.2) in *.
  assert (Hi : 0 <= i < BIN_NUM) by (pose proof (bin_of_range b.2); lia).
  pose proof (index_ok_In _ _ _ _ HL Hi Hin) as Hb.
  destruct (in_split _ _ Hin) as (l1 & l2 & HLi).
  pose proof (io_nodup a _ _ HL i Hi) as Hnd. rewrite HLi in Hnd.
  destruct (NoDup_split_distinct _ _ _ Hnd) as (Hd1 & Hd2 & Hd12).
  assert (Hin1 : forall d, In d l1 -> In d (L i))
    by (intros d Hd; rewrite HLi, in_app_iff; auto).
  assert (Hin2 : forall d, In d l2 -> In d (L i))
    by (intros d Hd; rewrite HLi, in_app_iff; simpl; auto).
  destruct (io_bins a _ _ HL i Hi) as (h & Hh & Hseg). rewrite HLi in Hseg.
  apply seg_app in Hseg as (mid & S1 & -> & _ & Hbp & nxt & Hbn & S3).
  pose proof (block_addr_range _ _ _ _ HL Hb) as Hbr.
  destruct (block_ok_acc _ _ _ _ HL Hb) as (Ah & An & Ap).
  destruct (bo_header a _ _ _ Hb) as (hd & Hhd & Hsz & _).
  pose proof (slot_acc _ _ _ HL Hi) as As.
  pose proof pow_W_big as HWb.
  set (bigger := last_addr NULL l1) in *.
  set (smaller := match l2 with [] => NULL | c :: _ => c.1 end).
  assert (Hnx : nxt = smaller) by (destruct l2; [done|by destruct S3]).
  subst nxt.
  (* run the code up to the case distinction *)
  unfold delete_block, node_prev, node_next in *.
  rewrite bind_assert_true by (apply negb_true_iff, Z.eqb_neq; unfold NULL; lia).
  rewrite (bind_step _ _ _ _ _ (GET_ok _ _ _ Ah Hhd)).
  pose proof W_cases as HW.
  pose proof (bo_min a _ _ _ Hb) as Hmin. pose proof (bo_int a _ _ _ Hb) as Hint.
  rewrite Hsz, int_small by lia.
  rewrite get_list_index_bin_of by lia.
  rewrite bind_lift_Some. fold i.
  rewrite (bind_step _ _ _ _ _ (GET_ok _ _ _ Ap Hbp)).
  rewrite (bind_step _ _ _ _ _ (GET_ok _ _ _ An Hbn)).
  (* the neighbours *)
  assert (Hbigger : bigger = NULL /\ l1 = [] \/
                    exists l1' p, l1 = l1' ++ [p] /\ bigger = p.1 /\ In p (L i) /\ p <> b).
  { destruct (snoc_case l1) as [->|(l1' & p & ->)]; [by left|right].
    exists l1', p. unfold bigger. rewrite last_addr_snoc.
    assert (In p (l1' ++ [p])) by (apply in_app_iff; simpl; auto). auto. }
  assert (Hsmaller : smaller = NULL /\ l2 = [] \/
                     exists c l2', l2 = c :: l2' /\ smaller = c.1 /\ In c (L i) /\ c <> b).
  { destruct l2 as [|c l2']; [by left|right].
    exists c, l2'. assert (In c (c :: l2')) by (simpl; auto). auto. }
  destruct Hbigger as [[Hbg Hl1]|(l1' & p & Hl1 & Hbg & Hp & Hpb)];
    destruct Hsmaller as [[Hsml Hl2]|(c & l2' & Hl2 & Hsml & Hc & Hcb)].
  - (* the only block of its bin *)
    rewrite Hbg, Hsml. simpl. rewrite (set_bin_ok _ _ _ As).
    rewrite size_t_small by (unfold NULL; lia).
    eexists. split; [reflexivity|]. split.
    + apply (unlink_index st L b _ l1 l2 bigger smaller
               (bin_list st + i * W) (bin_list st + i * W) HL HLi eq_refl eq_refl).
      * fold i. by rewrite Hbg.
      * by rewrite Hsml.
      * rewrite Hsml. apply lookup_insert_eq.
      * by rewrite Hsml.
      * intros q Hq _. by apply lookup_insert_ne.
    + intros q Hq _. by apply lookup_insert_ne.
  - (* the first block of its bin *)
    pose proof (block_addr_range _ _ _ _ HL (index_ok_In _ _ _ _ HL Hi Hc)) as Hcr.
    destruct (block_ok_acc _ _ _ _ HL (index_ok_In _ _ _ _ HL Hi Hc)) as (_ & _ & Acp).
    pose proof (bo_low a _ _ _ (index_ok_In _ _ _ _ HL Hi Hc)) as Hcl.
    pose proof (slot_bound (bin_list st) i Hi) as Hsb.
    assert ((c.1 =? NULL) = false) as Ec by (apply Z.eqb_neq; unfold NULL; lia).
    rewrite Hbg, Hsml. simpl. rewrite Ec.
    rewrite (bind_step _ _ _ _ _ (PUT_ok _ _ _ Acp)).
    rewrite set_bin_ok by done. simpl.
    rewrite !size_t_small by (unfold NULL; lia).
    eexists. split; [reflexivity|]. split.
    + apply (unlink_index st L b _ l1 l2 bigger smaller
               (bin_list st + i * W) (c.1 + W) HL HLi eq_refl eq_refl).
      * fold i. by rewrite Hbg.
      * by rewrite Hsml, Ec.
      * rewrite Hsml. apply lookup_insert_eq.
      * intros _. rewrite Hbg. rewrite lookup_insert_ne by lia.
        apply lookup_insert_eq.
      * intros q Hq1 Hq2. by rewrite !lookup_insert_ne.
    + intros q Hq1 Hq2. destruct (Hq2 c Hc Hcb).
      by rewrite !lookup_insert_ne.
  - (* the last block of its bin *)
    pose proof (block_addr_range _ _ _ _ HL (index_ok_In _ _ _ _ HL Hi Hp)) as Hpr.
    destruct (block_ok_acc _ _ _ _ HL (index_ok_In _ _ _ _ HL Hi Hp)) as (_ & Apn & _).
    assert ((p.1 =? NULL) = false) as Ep by (apply Z.eqb_neq; unfold NULL; lia).
    rewrite Hbg, Hsml. simpl. rewrite Ep.
    rewrite (PUT_ok _ _ _ Apn).
    rewrite !size_t_small by (unfold NULL; lia).
    eexists. split; [reflexivity|]. split.
    + apply (unlink_index st L b _ l1 l2 bigger smaller p.1 p.1 HL HLi eq_refl eq_refl).
      * by rewrite Hbg, Ep.
      * by rewrite Hsml.
      * rewrite Hsml. apply lookup_insert_eq.
      * by rewrite Hsml.
      * intros q Hq _. by apply lookup_insert_ne.
    + intros q Hq1 Hq2. destruct (Hq2 p Hp Hpb).
      by rewrite !lookup_insert_ne.
  - (* a block with both neighbours *)
    pose proof (block_addr_range _ _ _ _ HL (index_ok_In _ _ _ _ HL Hi Hp)) as Hpr.
    destruct (block_ok_acc _ _ _ _ HL (index_ok_In _ _ _ _ HL Hi Hp)) as (_ & Apn & _).
    pose proof (block_addr_range _ _ _ _ HL (index_ok_In _ _ _ _ HL Hi Hc)) as Hcr.
    destruct (block_ok_acc _ _ _ _ HL (index_ok_In _ _ _ _ HL Hi Hc)) as (_ & _ & Acp).
    assert ((p.1 =? NULL) = false) as Ep by (apply Z.eqb_neq; unfold NULL; lia).
    assert ((c.1 =? NULL) = false) as Ec by (apply Z.eqb_neq; unfold NULL; lia).
    assert (p <> c) as Hpc.
    { apply Hd12; [rewrite Hl1|rewrite Hl2]; [apply in_app_iff|]; simpl; auto. }
    pose proof (index_apart st L i i p c HL Hi Hi Hp Hc Hpc) as Hapc.
    rewrite Hbg, Hsml. simpl. rewrite Ep, Ec.
    rewrite (bind_step _ _ _ _ _ (PUT_ok _ _ _ Apn)).
    rewrite PUT_ok by done. simpl.
    rewrite !size_t_small by (unfold NULL; lia).
    eexists. split; [reflexivity|]. split.
    + apply (unlink_index st L b _ l1 l2 bigger smaller p.1 (c.1 + W)
               HL HLi eq_refl eq_refl).
      * by rewrite Hbg, Ep.
      * by rewrite Hsml, Ec.
      * rewrite Hsml. rewrite lookup_insert_ne by lia. apply lookup_insert_eq.
      * intros _. rewrite Hbg. apply lookup_insert_eq.
      * intros q Hq1 Hq2. by rewrite !lookup_insert_ne.
    + intros q Hq1 Hq2. destruct (Hq2 p Hp Hpb). destruct (Hq2 c Hc Hcb).
      by rewrite !lookup_insert_ne.
Qed.

Lemma index_insert_In b L j d :
  In d (index_insert b L j) -> d = b \/ In d (L j).
Proof.
  unfold index_insert. destruct (j =? bin_of b.2); simpl; [|auto].
  intros [<-|H]; auto.
Qed.

Lemma apart_of_disjoint st i j (b d : block) :
  block_ok a st i b -> block_ok a st j d -> disjoint b d ->
  b.1 + 4 * W <= d.1 \/ d.1 + 4 * W <= b.1.
Proof. intros [] [] [?|?]; lia. Qed.

(** Linking [b] at the head of its bin: [m] is the memory after the
    pointer writes of [insert_block]. *)
Lemma link_index st L b m hd :
  index_ok a st L -> block_ok a st (bin_of b.2) b ->
  (forall j d, 0 <= j < BIN_NUM -> In d (L j) -> disjoint b d) ->
  hd = match L (bin_of b.2) with [] => NULL | c :: _ => c.1 end ->
  m !! (bin_list st + bin_of b.2 * W) = Some b.1 ->
  m !! (b.1 + W) = Some NULL ->
  m !! b.1 = Some hd ->
  (hd <> NULL -> m !! (hd + W) = Some b.1) ->
  (forall p, p <> bin_list st + bin_of b.2 * W -> p <> b.1 -> p <> b.1 + W ->
             (hd = NULL \/ p <> hd + W) -> m !! p = mem st !! p) ->
  index_ok a (set_mem m st) (index_insert b L).
Proof.
  intros HL Hb Hdis Hhd Hms Hmp Hmn Hmh Hm.
  set (i := bin_of b.2) in *.
  assert (Hi : 0 <= i < BIN_NUM) by (pose proof (bin_of_range b.2); lia).
  pose proof W_cases as HW.
  pose proof (slot_bound (bin_list st) i Hi) as Hsi.
  assert (Hap : forall j d, 0 <= j < BIN_NUM -> In d (L j) ->
                  b.1 + 4 * W <= d.1 \/ d.1 + 4 * W <= b.1).
  { intros j d Hj Hd. eapply apart_of_disjoint; eauto.
    by apply (index_ok_In st L j d). }
  assert (Htab : forall j d, 0 <= j < BIN_NUM -> In d (L j) ->
            bin_list st + BIN_NUM * W <= d.1 - W).
  { intros j d Hj Hd. by destruct (index_ok_In _ _ _ _ HL Hj Hd). }
  pose proof (bo_low a _ _ _ Hb) as Hbl.
  destruct (io_bins a _ _ HL i Hi) as (h & Hh & Hseg).
  assert (Hhd' : hd = NULL /\ L i = [] \/
                 exists c l', L i = c :: l' /\ hd = c.1 /\ 0 < c.1).
  { destruct (L i) as [|c l'] eqn:E; [by left|right]. exists c, l'.
    repeat split; try done. apply (block_ok_pos st i); [apply HL|].
    apply (index_ok_In st L i); [done..|]. rewrite E. simpl. auto. }
  assert (Hhh : h = hd).
  { destruct Hhd' as [[-> E]|(c & l' & E & -> & _)]; rewrite E in Hseg;
      [done|by destruct Hseg]. }
  subst h.
  (* the words of the blocks that are not written *)
  assert (Hkeep : forall j d, 0 <= j < BIN_NUM -> In d (L j) ->
            m !! (d.1 - W) = mem st !! (d.1 - W) /\
            m !! d.1 = mem st !! d.1 /\
            (d.1 <> hd -> m !! (d.1 + W) = mem st !! (d.1 + W))).
  { intros j d Hj Hd. pose proof (Hap j d Hj Hd). pose proof (Htab j d Hj Hd).
    assert (hd = NULL \/ hd + 4 * W <= d.1 \/ d.1 + 4 * W <= hd \/ hd = d.1) as Hx.
    { destruct Hhd' as [[-> E]|(c & l' & E & -> & _)]; [by left|right].
      destruct (decide (c = d)) as [->|Hne]; [auto|].
      assert (In c (L i)) as Hc by (rewrite E; simpl; auto).
      pose proof (index_apart st L i j c d HL Hi Hj Hc Hd Hne). lia. }
    repeat split; [| |intros Hne]; apply Hm; lia. }
  split; try apply HL.
  - intros j Hj. simpl. unfold index_insert. fold i.
    destruct (Z.eq_dec j i) as [->|Hji].
    + rewrite Z.eqb_refl. exists b.1. split; [done|].
      simpl. split; [done|]. split.
      { apply block_ok_frame; [done|]. apply Hm; try lia.
        destruct Hhd' as [[-> E]|(c & l' & E & -> & _)]; [by left|right].
        pose proof (Hap i c Hi ltac:(rewrite E; simpl; auto)). lia. }
      unfold node_prev, node_next. split; [done|]. exists hd. split; [done|].
      destruct Hhd' as [[-> E]|(c & l' & E & -> & Hc0)]; rewrite E in *; [done|].
      assert (In c (L i)) as Hc by (rewrite E; simpl; auto).
      destruct (Hkeep i c Hi Hc) as (K1 & K2 & _).
      apply (seg_relink_head st m i NULL b.1 c.1 c l' NULL); try done.
      * apply Hmh. unfold NULL. lia.
      * intros d Hd. assert (In d (L i)) as Hd' by (rewrite E; simpl; auto).
        destruct (Hkeep i d Hi Hd') as (K1' & K2' & K3'). repeat split; try done.
        apply K3'. intros Heq.
        pose proof (io_nodup a _ _ HL i Hi) as Hnd. rewrite E in Hnd.
        apply NoDup_cons_iff in Hnd as [Hnd _].
        assert (d <> c) as Hne by (intros ->; done).
        pose proof (index_apart st L i i d c HL Hi Hi Hd' Hc Hne). lia.
    + assert ((j =? i) = false) as -> by by apply Z.eqb_neq.
      destruct (io_bins a _ _ HL j Hj) as (hj & Hhj & Hsegj).
      exists hj. split.
      * rewrite Hm; [done|by apply slot_inj|..].
        -- pose proof (slot_bound (bin_list st) j Hj). lia.
        -- pose proof (slot_bound (bin_list st) j Hj). lia.
        -- destruct Hhd' as [[-> E]|(c & l' & E & -> & _)]; [by left|right].
           pose proof (Htab i c Hi ltac:(rewrite E; simpl; auto)).
           pose proof (slot_bound (bin_list st) j Hj). lia.
      * apply seg_frame; [done|]. intros d Hd.
        destruct (Hkeep j d Hj Hd) as (K1 & K2 & K3). repeat split; try done.
        apply K3. intros Heq.
        destruct Hhd' as [[-> E]|(c & l' & E & -> & _)].
        -- pose proof (Htab j d Hj Hd). pose proof (io_base a _ _ HL).
           unfold NULL, BIN_NUM in *. lia.
        -- assert (In c (L i)) as Hc by (rewrite E; simpl; auto).
           assert (d <> c) as Hne.
           { intros ->. pose proof (index_ok_In _ _ _ _ HL Hj Hd) as [].
             pose proof (index_ok_In _ _ _ _ HL Hi Hc) as []. congruence. }
           pose proof (index_apart st L j i d c HL Hj Hi Hd Hc Hne). lia.
  - intros j Hj. unfold index_insert. fold i.
    destruct (j =? i) eqn:E; [|by apply (io_nodup a _ _ HL)].
    apply Z.eqb_eq in E as ->. constructor; [|by apply (io_nodup a _ _ HL)].
    intros Hbin. pose proof (Hap i b Hi Hbin). lia.
  - intros j1 j2 b1 b2 Hj1 Hj2 H1 H2.
    apply index_insert_In in H1 as [->|H1], H2 as [->|H2].
    + by left.
    + right. by apply (Hdis j2).
    + right. destruct (Hdis j1 b1 Hj1 H1); [right|left]; done.
    + exact (io_sep a _ _ HL j1 j2 b1 b2 Hj1 Hj2 H1 H2).
Qed.

Lemma bind_PUT {B} st p v (k : unit -> M B) :
  accessible a st p = true ->
  bind (PUT a p v) k st = k tt (set_mem (<[p := size_t a v]> (mem st)) st).
Proof. intros Ha. by rewrite (bind_step _ _ _ _ _ (PUT_ok _ _ _ Ha)). Qed.

Lemma bind_GET {B} st p v (k : Z -> M B) :
  accessible a st p = true -> mem st !! p = Some v ->
  bind (GET a p) k st = k v st.
Proof. intros Ha Hv. by rewrite (bind_step _ _ _ _ _ (GET_ok _ _ _ Ha Hv)). Qed.

Lemma insert_block_spec st L b :
  index_ok a st L -> block_ok a st (bin_of b.2) b ->
  (forall j d, 0 <= j < BIN_NUM -> In d (L j) -> disjoint b d) ->
  exists m,
    insert_block a b.1 b.2 st = Some (tt, set_mem m st) /\
    index_ok a (set_mem m st) (index_insert b L) /\
    (forall p, p <> bin_list st + bin_of b.2 * W -> p <> b.1 -> p <> b.1 + W ->
               (forall c, In c (L (bin_of b.2)) -> p <> c.1 + W) ->
               m !! p = mem st !! p).
Proof.
  intros HL Hb Hdis. set (i := bin_of b.2) in *.
  assert (Hi : 0 <= i < BIN_NUM) by (pose proof (bin_of_range b.2); lia).
  pose proof W_cases as HW. pose proof pow_W_big as HWb.
  pose proof (block_addr_range _ _ _ _ HL Hb) as Hbr.
  destruct (block_ok_acc _ _ _ _ HL Hb) as (Ah & An & Ap).
  destruct (bo_header a _ _ _ Hb) as (hd & Hhd & Hsz & _).
  pose proof (bo_min a _ _ _ Hb) as Hmin. pose proof (bo_int a _ _ _ Hb) as Hint.
  pose proof (bo_low a _ _ _ Hb) as Hbl.
  pose proof (slot_acc _ _ _ HL Hi) as As.
  pose proof (slot_bound (bin_list st) i Hi) as Hsb.
  destruct (io_bins a _ _ HL i Hi) as (h & Hh & Hseg).
  unfold insert_block, node_prev, node_next.
  rewrite bind_assert_true by (apply negb_true_iff, Z.eqb_neq; unfold NULL; lia).
  rewrite (bind_step _ _ _ _ _ (GET_ok _ _ _ Ah Hhd)).
  rewrite Hsz, int_small by lia.
  rewrite bind_assert_true by apply Z.eqb_refl.
  rewrite get_list_index_bin_of by lia.
  rewrite bind_lift_Some. fold i.
  unfold get_bin. rewrite bind_assoc, bind_gets.
  rewrite (bind_step _ _ _ _ _ (GET_ok _ _ _ As Hh)).
  destruct (L i) as [|c l'] eqn:E.
  - (* an empty bin *)
    simpl in Hseg. subst h. simpl.
    rewrite bind_PUT by exact Ap.
    rewrite bind_PUT by exact An.
    rewrite set_bin_ok by exact As. simpl.
    rewrite !size_t_small by (unfold NULL; lia).
    eexists. split; [reflexivity|]. split.
    + apply (link_index st L b _ NULL HL Hb Hdis).
      * fold i. by rewrite E.
      * apply lookup_insert_eq.
      * rewrite !lookup_insert_ne by lia. apply lookup_insert_eq.
      * rewrite lookup_insert_ne by lia. apply lookup_insert_eq.
      * done.
      * intros q Hq1 Hq2 Hq3 _. by rewrite !lookup_insert_ne.
    + intros q Hq1 Hq2 Hq3 _. by rewrite !lookup_insert_ne.
  - (* a bin with a first block *)
    destruct Hseg as (-> & Hc & _).
    assert (In c (L i)) as Hcin by (rewrite E; simpl; auto).
    pose proof (block_addr_range _ _ _ _ HL Hc) as Hcr.
    destruct (block_ok_acc _ _ _ _ HL Hc) as (_ & _ & Acp).
    pose proof (bo_low a _ _ _ Hc) as Hcl.
    pose proof (apart_of_disjoint _ _ _ _ _ Hb Hc (Hdis i c Hi Hcin)) as Hapc.
    assert ((c.1 =? NULL) = false) as -> by (apply Z.eqb_neq; unfold NULL; lia).
    rewrite bind_PUT by exact Ap.
    rewrite bind_PUT by exact An.
    rewrite bind_PUT by exact Acp.
    rewrite set_bin_ok by exact As. simpl.
    rewrite !size_t_small by (unfold NULL; lia).
    eexists. split; [reflexivity|]. split.
    + apply (link_index st L b _ c.1 HL Hb Hdis).
      * fold i. by rewrite E.
      * apply lookup_insert_eq.
      * rewrite !lookup_insert_ne by lia. apply lookup_insert_eq.
      * rewrite !lookup_insert_ne by lia. apply lookup_insert_eq.
      * intros _. rewrite lookup_insert_ne by lia. apply lookup_insert_eq.
      * intros q Hq1 Hq2 Hq3 [Hq4|Hq4]; [unfold NULL in *; lia|].
        by rewrite !lookup_insert_ne.
    + intros q Hq1 Hq2 Hq3 Hq4. specialize (Hq4 c ltac:(simpl; auto)).
      by rewrite !lookup_insert_ne.
Qed.

(** *** Boundary tags *)

Lemma GET_SIZE_eq w : GET_SIZE a w = w - w mod W.
Proof.
  unfold GET_SIZE. rewrite <- Z.ldiff_land.
  assert (exists n, 0 <= n /\ W - 1 = Z.ones n /\ W = 2 ^ n) as (n & Hn & -> & HWn).
  { destruct a; [exists 2|exists 3]; done. }
  rewrite Z.ldiff_ones_r, Z.shiftl_mul_pow2, Z.shiftr_div_pow2 by done.
  rewrite HWn. pose proof (Z.pow_pos_nonneg 2 n). Z.div_mod_to_equations. lia.
Qed.

Lemma GET_ALLOC_eq w : GET_ALLOC w = w mod 2.
Proof. unfold GET_ALLOC. change 1 with (Z.ones 1). by rewrite Z.land_ones. Qed.

Lemma PACK_add size alloc :
  size mod W = 0 -> alloc = 0 \/ alloc = 1 -> PACK size alloc = size + alloc.
Proof.
  intros Hs Ha. unfold PACK.
  assert (Z.land size alloc = 0) as Hl.
  { destruct Ha as [->| ->]; [apply Z.land_0_r|].
    fold (GET_ALLOC size). rewrite GET_ALLOC_eq.
    pose proof W_cases. Z.div_mod_to_equations. lia. }
  by rewrite <- Z.lxor_lor, <- Z.add_nocarry_lxor.
Qed.

Lemma GET_SIZE_tag size alloc :
  size mod W = 0 -> alloc = 0 \/ alloc = 1 -> GET_SIZE a (size + alloc) = size.
Proof.
  intros Hs Ha. rewrite GET_SIZE_eq. pose proof W_cases.
  Z.div_mod_to_equations. lia.
Qed.

Lemma GET_ALLOC_tag size alloc :
  size mod W = 0 -> alloc = 0 \/ alloc = 1 -> GET_ALLOC (size + alloc) = alloc.
Proof.
  intros Hs Ha. rewrite GET_ALLOC_eq. pose proof W_cases.
  Z.div_mod_to_equations. lia.
Qed.

(** *** Writes outside the listed blocks *)

Lemma index_ok_frame st L m :
  index_ok a st L ->
  (forall j, 0 <= j < BIN_NUM ->
             m !! (bin_list st + j * W) = mem st !! (bin_list st + j * W)) ->
  (forall j d, 0 <= j < BIN_NUM -> In d (L j) ->
               m !! (d.1 - W) = mem st !! (d.1 - W) /\
               m !! d.1 = mem st !! d.1 /\
               m !! (d.1 + W) = mem st !! (d.1 + W)) ->
  index_ok a (set_mem m st) L.
Proof.
  intros HL Hs Hb. split; try apply HL.
  intros j Hj. destruct (io_bins a _ _ HL j Hj) as (h & Hh & Hseg).
  exists h. simpl. rewrite Hs by done. split; [done|].
  apply seg_frame; [done|]. intros d Hd. by apply (Hb j).
Qed.

End Index.

Section Place.

Context (a : arch).

Local Abbreviation W := (WSIZE a).

Ltac warith :=
  let H := fresh in
  destruct (W_cases a) as [H|H]; rewrite ?H in *; Z.div_mod_to_equations; lia.

Lemma accessible_in_block st L i b q :
  index_ok a st L -> block_ok a st i b ->
  q mod W = 0 -> b.1 - W <= q -> q + 2 * W <= b.1 + b.2 ->
  accessible a st q = true.
Proof.
  intros HL Hb Hq H1 H2. destruct HL, Hb. pose proof (W_cases a).
  apply accessible_true; try done; unfold BIN_NUM in *; lia.
Qed.

Lemma bind_PUT_set {B} st m p v (k : unit -> M B) :
  accessible a st p = true ->
  bind (PUT a p v) k (set_mem m st) = k tt (set_mem (<[p := size_t a v]> m) st).
Proof. intros Ha. by rewrite bind_PUT. Qed.

Lemma bind_GET_set {B} st m p v (k : Z -> M B) :
  accessible a st p = true -> m !! p = Some v ->
  bind (GET a p) k (set_mem m st) = k v (set_mem m st).
Proof. intros Ha Hv. by rewrite (bind_GET a _ p v). Qed.

Lemma index_remove_In_ne st L b j d :
  index_ok a st L -> In b (L (bin_of b.2)) -> 0 <= j < BIN_NUM ->
  In d (index_remove b L j) -> In d (L j) /\ d <> b.
Proof.
  intros HL Hb Hj. unfold index_remove.
  destruct (j =? bin_of b.2) eqn:E.
  - intros Hd. apply remove_block_In in Hd as [Hd Hne]. split; [done|].
    by intros ->.
  - apply Z.eqb_neq in E. intros Hd. split; [done|]. intros ->.
    by pose proof (bo_bin _ _ _ _ (index_ok_In _ _ _ _ _ HL Hj Hd)).
Qed.

Lemma place_run st L b asize :
  index_ok a st L -> In b (L (bin_of b.2)) ->
  0 < asize <= b.2 -> asize mod W = 0 ->
  exists m r,
    place a b.1 asize st = Some (r, set_mem m st) /\
    if 4 * W <=? b.2 - asize then
      r = b.1 + asize /\
      m !! (b.1 - W) = Some (PACK asize 1) /\
      m !! (b.1 + asize - 2 * W) = Some (PACK asize 1) /\
      m !! (b.1 + asize - W) = Some (PACK (b.2 - asize) 0) /\
      m !! (b.1 + b.2 - 2 * W) = Some (PACK (b.2 - asize) 0) /\
      index_ok a (set_mem m st)
        (index_insert (b.1 + asize, b.2 - asize) (index_remove b L))
    else
      r = b.1 /\
      m !! (b.1 - W) = Some (PACK b.2 1) /\
      m !! (b.1 + b.2 - 2 * W) = Some (PACK b.2 1) /\
      index_ok a (set_mem m st) (index_remove b L).
Proof.
  intros HL Hin Hasize Hal. set (i := bin_of b.2) in *.
  assert (Hi : 0 <= i < BIN_NUM) by (pose proof (bin_of_range b.2); lia).
  pose proof (index_ok_In _ _ _ _ _ HL Hi Hin) as Hb.
  pose proof (W_cases a) as HW. pose proof (pow_W_big a) as HWb.
  destruct (bo_header _ _ _ _ Hb) as (hd & Hhd & Hsz & _).
  pose proof (bo_min _ _ _ _ Hb) as Hmin. pose proof (bo_int _ _ _ _ Hb) as Hint.
  pose proof (bo_low _ _ _ _ Hb) as Hbl. pose proof (bo_high _ _ _ _ Hb) as Hbh.
  pose proof (bo_aligned _ _ _ _ Hb) as Hba.
  pose proof (bo_size_aligned _ _ _ _ Hb) as Hbsa.
  assert (Hacc : forall q, q mod W = 0 -> b.1 - W <= q -> q + 2 * W <= b.1 + b.2 ->
                           accessible a st q = true)
    by (intros q; by apply (accessible_in_block st L i b q)).
  destruct (delete_block_spec a st L b HL Hin) as (m1 & Hdel & HL1 & Hfr1).
  fold i in Hfr1.
  (* words inside [b] are not touched by list surgery on other blocks *)
  assert (Hin_b : forall q, b.1 - W <= q -> q + 2 * W <= b.1 + b.2 ->
            q <> bin_list st + i * W /\
            forall j c, 0 <= j < BIN_NUM -> In c (L j) -> c <> b ->
                        q <> c.1 - W /\ q <> c.1 /\ q <> c.1 + W).
  { intros q Hq1 Hq2. split.
    - pose proof (slot_bound a (bin_list st) i Hi). lia.
    - intros j c Hj Hc Hcb. pose proof (index_ok_In _ _ _ _ _ HL Hj Hc) as [].
      destruct (io_sep _ _ _ HL j i c b Hj Hi Hc Hin) as [?|[?|?]]; [done|lia|lia]. }
  unfold place, HDRP, TSIZE.
  rewrite (bind_GET a st _ hd) by (try apply Hacc; try done; Z.div_mod_to_equations; lia).
  rewrite Hsz.
  rewrite (size_t_small a (b.2 - asize)) by lia.
  replace (W + 3 * W) with (4 * W) by lia. rewrite Z.geb_leb.
  assert (Hkeep : forall m2,
            (forall q, ~ (b.1 - W <= q /\ q + 2 * W <= b.1 + b.2) -> m2 !! q = m1 !! q) ->
            index_ok a (set_mem m2 st) (index_remove b L)).
  { intros m2 Hm2. apply (index_ok_frame a (set_mem m1 st)); [done|..].
    - intros j Hj. simpl. apply Hm2.
      pose proof (slot_bound a (bin_list st) j Hj). lia.
    - intros j d Hj Hd. simpl.
      destruct (index_remove_In_ne _ _ _ _ _ HL Hin Hj Hd) as [Hd' Hne].
      pose proof (index_ok_In _ _ _ _ _ HL Hj Hd') as [].
      destruct (io_sep _ _ _ HL j i d b Hj Hi Hd' Hin) as [?|[?|?]]; [done|..];
        repeat split; apply Hm2; lia. }
  assert (Hpk1 : forall s, s mod W = 0 -> 0 <= s < 2 ^ 31 ->
            size_t a (PACK s 1) = s + 1 /\ size_t a (PACK s 0) = s).
  { intros s Hs1 Hs2. rewrite !(PACK_add a) by auto.
    rewrite !(size_t_small a) by lia. lia. }
  destruct (4 * W <=? b.2 - asize) eqn:Esplit;
    rewrite (bind_step _ _ _ _ _ Hdel).
  - apply Z.leb_le in Esplit.
    destruct (Hpk1 asize Hal ltac:(lia)) as [Hp1 _].
    assert (Hra : (b.2 - asize) mod W = 0) by warith.
    destruct (Hpk1 (b.2 - asize) Hra ltac:(lia)) as [_ Hp0].
    remember (b.2 - asize) as sz' eqn:Hsz'.
    assert (W <= asize) as Hge by warith.
    assert (Ha1 : (b.1 - W) mod W = 0) by warith.
    assert (Ha2 : (b.1 + asize - 2 * W) mod W = 0) by warith.
    assert (Ha3 : (b.1 + asize - W) mod W = 0) by warith.
    assert (Ha4 : (b.1 + asize + sz' - 2 * W) mod W = 0)
      by warith.
    assert (Ha5 : (b.1 + asize) mod W = 0) by warith.
    assert (Hg0 : GET_SIZE a sz' = sz' /\ GET_ALLOC sz' = 0).
    { replace sz' with (sz' + 0) by lia.
      rewrite (GET_SIZE_tag a), (GET_ALLOC_tag a) by auto. lia. }
    destruct Hg0 as [Hgs0 Hga0].
    (* the heap after the four tags are stamped *)
    pose (m3 := <[b.1 + asize - 2 * W := asize + 1]> (<[b.1 - W := asize + 1]> m1)).
    pose (m5 := <[b.1 + asize + sz' - 2 * W := sz']> (<[b.1 + asize - W := sz']> m3)).
    assert (Hm3h : m3 !! (b.1 - W) = Some (asize + 1)).
    { unfold m3. rewrite lookup_insert. case_decide; [done|].
      apply lookup_insert_eq. }
    assert (HL5 : index_ok a (set_mem m5 st) (index_remove b L)).
    { apply Hkeep. intros q Hq. unfold m5, m3. rewrite !lookup_insert_ne by lia. done. }
    set (b' := (b.1 + asize, sz') : block).
    assert (Hb' : block_ok a (set_mem m5 st) (bin_of b'.2) b').
    { split; simpl; try done; try lia.
      exists sz'. split; [|done].
      unfold m5. rewrite lookup_insert_ne by lia. apply lookup_insert_eq. }
    assert (Hdis : forall j d, 0 <= j < BIN_NUM -> In d (index_remove b L j) ->
                               disjoint b' d).
    { intros j d Hj Hd.
      destruct (index_remove_In_ne _ _ _ _ _ HL Hin Hj Hd) as [Hd' Hne].
      destruct (io_sep _ _ _ HL j i d b Hj Hi Hd' Hin) as [?|[?|?]]; [done|..];
        unfold disjoint; simpl; lia. }
    destruct (insert_block_spec a _ _ b' HL5 Hb' Hdis) as (m6 & Hins & HL6 & Hfr6).
    change (insert_block a (b.1 + asize) sz' (set_mem m5 st) = Some (tt, set_mem m6 st))
      in Hins.
    exists m6, (b.1 + asize). split.
    { (* the run *)
      rewrite bind_PUT_set by (apply Hacc; [done|lia|lia]).
      unfold FTRP, NEXT_BLKP, HDRP, DSIZE. rewrite bind_assoc.
      rewrite (bind_GET_set st _ _ (asize + 1)) by
        (first [apply Hacc; [done|lia|lia]
               |rewrite Hp1; apply lookup_insert_eq]).
      rewrite bind_ret, (GET_SIZE_tag a) by auto.
      rewrite bind_PUT_set by (apply Hacc; [done|lia|lia]).
      rewrite Hp1. rewrite bind_assoc. fold m3.
      rewrite (bind_GET_set st _ _ (asize + 1)) by
        (first [apply Hacc; [done|lia|lia]|done]).
      rewrite bind_ret, (GET_SIZE_tag a) by auto.
      rewrite bind_PUT_set by (apply Hacc; [done|lia|lia]).
      rewrite Hp0. rewrite bind_assoc.
      rewrite (bind_GET_set st _ _ sz') by
        (first [apply Hacc; [done|lia|lia]
               |apply lookup_insert_eq]).
      rewrite bind_ret.
      rewrite Hgs0.
      rewrite bind_PUT_set by (apply Hacc; [done|lia|lia]).
      rewrite Hp0. rewrite int_small by lia. fold m5.
      rewrite (bind_step _ _ _ _ _ Hins). reflexivity. }
    split; [done|].
    rewrite !(PACK_add a) by auto. rewrite Z.add_0_r.
    (* the four tags survive the insertion *)
    assert (Hfr : forall q, b.1 - W <= q -> q + 2 * W <= b.1 + b.2 ->
                    q <> b.1 + asize -> q <> b.1 + asize + W -> m6 !! q = m5 !! q).
    { intros q Hq1 Hq2 Hq3 Hq4. destruct (Hin_b q Hq1 Hq2) as [_ Hq].
      apply Hfr6; simpl; try done.
      - pose proof (slot_bound a (bin_list st) (bin_of sz') (bin_of_lt _)).
        lia.
      - intros c Hc.
        destruct (index_remove_In_ne _ _ _ _ _ HL Hin
                    (bin_of_lt _) Hc) as [Hc' Hne].
        by destruct (Hq _ c (bin_of_lt _) Hc' Hne) as (_ & _ & ?). }
    split; [|split; [|split; [|split]]].
    + rewrite Hfr by lia. unfold m5. rewrite !lookup_insert_ne by lia. done.
    + rewrite Hfr by lia. unfold m5, m3. rewrite !lookup_insert_ne by lia.
      apply lookup_insert_eq.
    + rewrite Hfr by lia. unfold m5. rewrite lookup_insert_ne by lia.
      apply lookup_insert_eq.
    + rewrite Hfr by lia. unfold m5.
      replace (b.1 + b.2 - 2 * W) with (b.1 + asize + sz' - 2 * W) by lia.
      apply lookup_insert_eq.
    + done.
  - apply Z.leb_gt in Esplit.
    destruct (Hpk1 b.2 Hbsa ltac:(lia)) as [Hp1 _].
    rewrite bind_PUT_set by (apply Hacc; [Z.div_mod_to_equations|..]; lia).
    unfold FTRP, HDRP, DSIZE. rewrite bind_assoc.
    rewrite (bind_GET_set st _ _ (b.2 + 1)) by
      (first [apply Hacc; [Z.div_mod_to_equations|..]; lia
             |rewrite Hp1; apply lookup_insert_eq]).
    rewrite bind_ret, (GET_SIZE_tag a) by auto.
    rewrite bind_PUT_set by (apply Hacc; [Z.div_mod_to_equations|..]; lia).
    rewrite Hp1.
    rewrite (PACK_add a) by auto.
    eexists _, _. split; [reflexivity|]. split; [done|]. split; [|split].
    + rewrite lookup_insert_ne by lia. apply lookup_insert_eq.
    + apply lookup_insert_eq.
    + apply Hkeep. intros q Hq. rewrite !lookup_insert_ne by lia. done.
Qed.

End Place.

Lemma read_only_mem_only {A} (c : M A) : read_only c -> mem_only c.
Proof.
  intros H st r st' Hc. apply H in Hc as ->. exists (mem st). by destruct st.
Qed.

Lemma read_only_ret {A} (x : A) : read_only (ret x).
Proof. by intros st r st' [= _ ->]. Qed.

Lemma read_only_fail {A} : read_only (@fail A).
Proof. by intros st r st'. Qed.

Lemma read_only_assert c : read_only (assert c).
Proof. destruct c; [apply read_only_ret|apply read_only_fail]. Qed.

Lemma read_only_lift {A} (o : option A) : read_only (lift o).
Proof. intros st r st'. unfold lift. destruct o; [by intros [= _ ->]|done]. Qed.

Lemma read_only_gets {A} (f : heap -> A) : read_only (gets f).
Proof. by intros st r st' [= _ ->]. Qed.

Lemma read_only_GET a p : read_only (GET a p).
Proof.
  intros st r st'. unfold GET. destruct (accessible a st p); [|done].
  destruct (mem st !! p); [by intros [= _ ->]|done].
Qed.

Lemma read_only_bind {A B} (c : M A) (k : A -> M B) :
  read_only c -> (forall x, read_only (k x)) -> read_only (bind c k).
Proof.
  intros Hc Hk st r st' H. apply bind_inv in H as (x & st1 & H1 & H2).
  apply Hc in H1 as ->. by apply Hk in H2.
Qed.

Lemma mem_only_PUT a p v : mem_only (PUT a p v).
Proof.
  intros st r st'. unfold PUT. destruct (accessible a st p); [|done].
  intros [= _ <-]. eauto.
Qed.

Lemma mem_only_bind {A B} (c : M A) (k : A -> M B) :
  mem_only c -> (forall x, mem_only (k x)) -> mem_only (bind c k).
Proof.
  intros Hc Hk st r st' H. apply bind_inv in H as (x & st1 & H1 & H2).
  apply Hc in H1 as (m1 & ->). apply Hk in H2 as (m2 & ->). by exists m2.
Qed.

Lemma mem_only_if {A} (c : bool) (x y : M A) :
  mem_only x -> mem_only y -> mem_only (if c then x else y).
Proof. by destruct c. Qed.

Lemma read_only_if {A} (c : bool) (x y : M A) :
  read_only x -> read_only y -> read_only (if c then x else y).
Proof. by destruct c. Qed.

Create HintDb quiet.

#[export] Hint Resolve read_only_ret read_only_fail read_only_assert read_only_lift
  read_only_gets read_only_GET mem_only_PUT : quiet.

#[export] Hint Extern 2 (read_only (bind _ _)) =>
  apply read_only_bind; [|intros ?] : quiet.

#[export] Hint Extern 2 (mem_only (bind _ _)) =>
  apply mem_only_bind; [|intros ?] : quiet.

#[export] Hint Extern 2 (mem_only (if _ then _ else _)) => apply mem_only_if : quiet.

#[export] Hint Extern 2 (read_only (if _ then _ else _)) => apply read_only_if : quiet.

#[export] Hint Extern 5 (mem_only _) => apply read_only_mem_only : quiet.

Ltac quiet := auto 50 with quiet.

Section Quiet.

Context (a : arch).

Lemma read_only_FTRP bp : read_only (FTRP a bp).
Proof. unfold FTRP. quiet. Qed.

Lemma read_only_NEXT_BLKP bp : read_only (NEXT_BLKP a bp).
Proof. unfold NEXT_BLKP. quiet. Qed.

Lemma read_only_PREV_BLKP bp : read_only (PREV_BLKP a bp).
Proof. unfold PREV_BLKP. quiet. Qed.

Lemma read_only_get_bin i : read_only (get_bin a i).
Proof. unfold get_bin. quiet. Qed.

Lemma mem_only_set_bin i v : mem_only (set_bin a i v).
Proof. unfold set_bin. quiet. Qed.

Hint Resolve read_only_FTRP read_only_NEXT_BLKP read_only_PREV_BLKP
  read_only_get_bin mem_only_set_bin : quiet.

Lemma mem_only_insert_block bp size : mem_only (insert_block a bp size).
Proof. unfold insert_block. quiet. Qed.

Lemma mem_only_delete_block bp : mem_only (delete_block a bp).
Proof. unfold delete_block. quiet. Qed.

Hint Resolve mem_only_insert_block mem_only_delete_block : quiet.

Lemma mem_only_coalesce bp : mem_only (coalesce a bp).
Proof. unfold coalesce. quiet. Qed.

Lemma mem_only_place bp asize : mem_only (place a bp asize).
Proof. unfold place. quiet. Qed.

Hint Resolve mem_only_coalesce mem_only_place : quiet.

Lemma mem_only_mm_free bp : mem_only (mm_free a bp).
Proof. unfold mm_free. quiet. Qed.

Lemma mem_only_copy_word dst src n : mem_only (copy_word a dst src n).
Proof.
  intros st r st'. unfold copy_word.
  destruct (accessible a st dst && accessible a st src); [|done].
  intros [= _ <-]. eauto.
Qed.

Lemma mem_only_memcpy dst src n : mem_only (memcpy a dst src n).
Proof.
  unfold memcpy. generalize (Z.to_nat ((n + WSIZE a - 1) / WSIZE a)). intros k.
  revert dst src n. induction k as [|k IH]; intros dst src n; simpl.
  - quiet.
  - apply mem_only_if; [quiet|]. apply mem_only_bind; [apply mem_only_copy_word|].
    intros _. apply IH.
Qed.

Lemma read_only_find_block_loop fuel bp asize :
  read_only (find_block_loop a fuel bp asize).
Proof.
  revert bp. induction fuel as [|fuel IH]; intros bp; simpl; [quiet|].
  apply read_only_if; [quiet|]. apply read_only_bind; [quiet|]. intros h.
  apply read_only_if; [quiet|]. apply read_only_bind; [quiet|]. intros nxt.
  apply IH.
Qed.

Lemma read_only_find_fit fuel asize : read_only (find_fit a fuel asize).
Proof.
  unfold find_fit. apply read_only_bind; [quiet|]. intros idx.
  generalize (Z.to_nat (BIN_NUM - idx)). intros n. revert idx.
  induction n as [|n IH]; intros idx; simpl; [quiet|].
  apply read_only_bind; [quiet|]. intros bp.
  apply read_only_bind.
  { unfold find_block_list. apply read_only_bind; [quiet|]. intros _.
    apply read_only_find_block_loop. }
  intros r. apply read_only_if; [quiet|apply IH].
Qed.

Hint Resolve mem_only_mm_free mem_only_memcpy read_only_find_fit : quiet.

Lemma mem_only_refusal_safe (c : M Z) : mem_only c -> refusal_safe c.
Proof. intros H st r st' Hc. apply H in Hc as (m & ->). by left. Qed.

Lemma refusal_safe_read (c : M Z) (k : Z -> M Z) :
  read_only c -> (forall x, refusal_safe (k x)) -> refusal_safe (bind c k).
Proof.
  intros Hc Hk st r st' H. apply bind_inv in H as (x & st1 & H1 & H2).
  apply Hc in H1 as ->. by apply Hk in H2.
Qed.

Lemma refusal_safe_if (c : bool) (x y : M Z) :
  refusal_safe x -> refusal_safe y -> refusal_safe (if c then x else y).
Proof. by destruct c. Qed.

Lemma extend_heap_refusal_safe words : refusal_safe (extend_heap a words).
Proof.
  intros st r st'. unfold extend_heap. cbv zeta.
  generalize (extend_size a words). intros size H. apply bind_inv in H as (bp & st1 & H1 & H2).
  unfold mem_sbrk in H1.
  destruct ((size <? 0) || (mem_max_addr st <? mem_brk st + size)).
  - injection H1 as <- <-. rewrite Z.eqb_refl in H2.
    injection H2 as <- <-. by right.
  - injection H1 as <- <-. left.
    assert (mem_only (if mem_brk st =? SBRK_FAILED a then ret NULL else
        PUT a (HDRP a (mem_brk st)) (PACK size 0) >>
        let! f := FTRP a (mem_brk st) in
        PUT a f (PACK size 0) >>
        let! next := NEXT_BLKP a (mem_brk st) in
        PUT a (HDRP a next) (PACK 0 1) >>
        let! h := GET a (HDRP a (mem_brk st)) in
        insert_block a (mem_brk st) (int (GET_SIZE a h)) >>
        coalesce a (mem_brk st))) as Hq by quiet.
    apply Hq in H2 as (m & ->). reflexivity.
Qed.

Lemma mm_malloc_refusal_safe fuel size : refusal_safe (mm_malloc a fuel size).
Proof.
  unfold mm_malloc. apply refusal_safe_if; [apply mem_only_refusal_safe; quiet|].
  apply refusal_safe_read; [quiet|]. intros bp.
  apply refusal_safe_if; [apply mem_only_refusal_safe; quiet|].
  intros st r st' H. apply bind_inv in H as (bp' & st1 & H1 & H2).
  apply extend_heap_refusal_safe in H1 as [H1|[-> ->]].
  - left. rewrite <- H1.
    assert (mem_only (if bp' =? NULL then ret NULL
                      else place a bp' (adjusted_size a size) >> ret bp')) as Hq
      by quiet.
    by apply Hq in H2 as (m & ->).
  - right. simpl in H2. by injection H2 as <- <-.
Qed.

Lemma realloc_fallback_refusal_safe fuel ptr size oldsize :
  refusal_safe (realloc_fallback a fuel ptr size oldsize).
Proof.
  intros st r st' H. unfold realloc_fallback in H.
  apply bind_inv in H as (newptr & st1 & H1 & H2).
  apply mm_malloc_refusal_safe in H1 as [H1|[-> ->]].
  - left. rewrite <- H1.
    assert (mem_only (if newptr =? NULL then ret NULL else
              memcpy a newptr ptr (if size <? oldsize then size else oldsize) >>
              mm_free a ptr >> ret newptr)) as Hq by quiet.
    by apply Hq in H2 as (m & ->).
  - right. simpl in H2. by injection H2 as <- <-.
Qed.

Lemma mm_realloc_refusal_safe fuel ptr size : refusal_safe (mm_realloc a fuel ptr size).
Proof.
  unfold mm_realloc.
  apply refusal_safe_if; [apply mem_only_refusal_safe; quiet|].
  apply refusal_safe_if; [apply mm_malloc_refusal_safe|].
  apply refusal_safe_read; [quiet|]. intros h.
  apply refusal_safe_if; [apply mem_only_refusal_safe; quiet|].
  apply refusal_safe_if.
  { apply mem_only_refusal_safe. quiet. }
  apply refusal_safe_if; [|apply realloc_fallback_refusal_safe].
  apply refusal_safe_read; [quiet|]. intros next.
  apply refusal_safe_read; [quiet|]. intros nh.
  apply refusal_safe_read; [quiet|]. intros next'.
  apply refusal_safe_read; [quiet|]. intros nw.
  apply refusal_safe_if; [|apply realloc_fallback_refusal_safe].
  apply refusal_safe_if; [apply mem_only_refusal_safe; quiet|].
  apply refusal_safe_if; [apply mem_only_refusal_safe; quiet|].
  apply realloc_fallback_refusal_safe.
Qed.

Lemma run_request_refusal_safe fuel req : refusal_safe (run_request a fuel req).
Proof.
  destruct req; simpl.
  - apply mm_malloc_refusal_safe.
  - apply mem_only_refusal_safe. quiet.
  - apply mm_realloc_refusal_safe.
Qed.

Lemma realloc_fallback_refused fuel ptr size oldsize st st1 :
  mm_malloc a fuel size st = Some (NULL, st1) ->
  realloc_fallback a fuel ptr size oldsize st = Some (NULL, st1).
Proof.
  intros H. unfold realloc_fallback. rewrite (bind_step _ _ _ _ _ H).
  reflexivity.
Qed.

End Quiet.

Section Extend.

Context (a : arch).

Local Abbreviation W := (WSIZE a).

Ltac warith :=
  let H := fresh in
  destruct (W_cases a) as [H|H]; rewrite ?H in *; Z.div_mod_to_equations; lia.

Lemma MAX_max x y : MAX x y = Z.max x y.
Proof. unfold MAX. rewrite Z.gtb_ltb. destruct (y <? x) eqn:E; lia. Qed.

Lemma extend_size_round_up asize :
  0 <= asize < 2 ^ 31 ->
  extend_size a (extend_words a asize) = round_up (Z.max asize CHUNKSIZE) (2 * W).
Proof.
  intros Hs. unfold extend_size, extend_words, round_up. rewrite MAX_max.
  set (e := Z.max asize CHUNKSIZE).
  assert (He : 4104 <= e < 2 ^ 31) by (unfold e, CHUNKSIZE; lia).
  clearbody e.
  assert (2 ^ 32 <= 2 ^ (8 * W)) as HWb by apply pow_W_big.
  destruct (e mod W =? 0) eqn:E1; simpl negb; cbv iota.
  - apply Z.eqb_eq in E1.
    destruct (e / W mod 2 =? 0) eqn:E2; simpl negb; cbv iota;
      [apply Z.eqb_eq in E2|apply Z.eqb_neq in E2];
      rewrite (size_t_small a) by warith; warith.
  - apply Z.eqb_neq in E1.
    rewrite (size_t_small a ((e / W + 1) * W)) by warith.
    destruct ((e / W + 1) * W / W mod 2 =? 0) eqn:E2; simpl negb; cbv iota;
      [apply Z.eqb_eq in E2|apply Z.eqb_neq in E2];
      rewrite (size_t_small a) by warith; warith.
Qed.

Lemma bind_ret_r {A} (c : M A) st : bind c ret st = c st.
Proof. unfold bind, ret. by destruct (c st) as [[? ?]|]. Qed.

Lemma index_insert_here (b : block) L : In b (index_insert b L (bin_of b.2)).
Proof. unfold index_insert. rewrite Z.eqb_refl. simpl. auto. Qed.

Lemma remove_block_keep n l (c : block) :
  In c l -> c.1 <> n -> In c (remove_block n l).
Proof.
  intros Hc Hne. induction l as [|d l IH]; [done|]. simpl.
  destruct Hc as [->|Hc].
  - assert ((c.1 =? n) = false) as -> by by apply Z.eqb_neq. simpl. auto.
  - destruct (d.1 =? n); simpl; auto.
Qed.

Lemma index_remove_keep (b c : block) L j :
  In c (L j) -> c.1 <> b.1 -> In c (index_remove b L j).
Proof.
  intros Hc Hne. unfold index_remove. destruct (j =? bin_of b.2); [|done].
  by apply remove_block_keep.
Qed.

(** Coalescing, case 1: both neighbours are allocated. *)
Lemma coalesce_case1 st bp h t ph nw :
  accessible a st (bp - W) = true -> mem st !! (bp - W) = Some h ->
  accessible a st (bp - 2 * W) = true -> mem st !! (bp - 2 * W) = Some t ->
  accessible a st (bp - GET_SIZE a t - W) = true ->
  mem st !! (bp - GET_SIZE a t - W) = Some ph ->
  GET_SIZE a ph = GET_SIZE a t ->
  GET_ALLOC t <> 0 ->
  accessible a st (bp + GET_SIZE a h - W) = true ->
  mem st !! (bp + GET_SIZE a h - W) = Some nw ->
  GET_ALLOC nw <> 0 ->
  coalesce a bp st = Some (bp, st).
Proof.
  intros A1 H1 A2 H2 A3 H3 Hph Ht A4 H4 Hnw.
  unfold coalesce, PREV_BLKP, FTRP, NEXT_BLKP, HDRP, DSIZE.
  rewrite (bind_GET a st _ h) by done.
  rewrite bind_assoc, (bind_GET a st _ t), bind_ret by done.
  rewrite bind_assoc, (bind_GET a st _ ph), bind_ret by done.
  rewrite Hph.
  replace (bp - GET_SIZE a t + GET_SIZE a t - 2 * W) with (bp - 2 * W) by lia.
  rewrite (bind_GET a st _ t) by done.
  rewrite bind_assoc, (bind_GET a st _ h), bind_ret by done.
  rewrite (bind_GET a st _ nw) by done.
  apply Z.eqb_neq in Ht, Hnw. rewrite Ht, Hnw. reflexivity.
Qed.

(** Coalescing, case 3: the block before [b] is the free block [pb] and
    the block after it is allocated. *)
Lemma coalesce_case3 st L b pb t nw :
  index_ok a st L ->
  In b (L (bin_of b.2)) -> In pb (L (bin_of pb.2)) ->
  pb.1 + pb.2 = b.1 ->
  mem st !! (b.1 - 2 * W) = Some t -> GET_SIZE a t = pb.2 -> GET_ALLOC t = 0 ->
  mem st !! (b.1 + b.2 - W) = Some nw -> GET_ALLOC nw <> 0 ->
  pb.2 + b.2 < 2 ^ 31 ->
  exists m,
    coalesce a b.1 st = Some (pb.1, set_mem m st) /\
    index_ok a (set_mem m st)
      (index_insert (pb.1, pb.2 + b.2) (index_remove pb (index_remove b L))).
Proof.
  intros HL Hin Hpin Hadj Ht Htsz Htal Hnw Hnwal Hsum.
  pose proof (bin_of_lt b.2) as Hi. pose proof (bin_of_lt pb.2) as Hpi.
  pose proof (index_ok_In _ _ _ _ _ HL Hi Hin) as Hb.
  pose proof (index_ok_In _ _ _ _ _ HL Hpi Hpin) as Hpb.
  pose proof (W_cases a) as HW. pose proof (pow_W_big a) as HWb.
  destruct (bo_header _ _ _ _ Hb) as (hd & Hhd & Hsz & _).
  destruct (bo_header _ _ _ _ Hpb) as (phd & Hphd & Hpsz & _).
  pose proof (bo_min _ _ _ _ Hb) as Hmin. pose proof (bo_min _ _ _ _ Hpb) as Hpmin.
  pose proof (bo_low _ _ _ _ Hpb) as Hpl. pose proof (bo_high _ _ _ _ Hb) as Hbh.
  pose proof (bo_aligned _ _ _ _ Hb) as Hba.
  pose proof (bo_size_aligned _ _ _ _ Hb) as Hbsa.
  pose proof (bo_aligned _ _ _ _ Hpb) as Hpba.
  pose proof (bo_size_aligned _ _ _ _ Hpb) as Hpbsa.
  pose proof (io_base_low _ _ _ HL) as Hbase.
  assert (Hne : pb <> b) by (intros ->; lia).
  (* the words of the two blocks *)
  assert (Hacc : forall q, q mod W = 0 -> pb.1 - W <= q -> q + W <= b.1 + b.2 ->
                           accessible a st q = true).
  { intros q Hq1 Hq2 Hq3. apply accessible_true; [done|unfold BIN_NUM in *; lia|lia]. }
  assert (Ha1 : (b.1 - W) mod W = 0) by warith.
  assert (Ha2 : (b.1 - 2 * W) mod W = 0) by warith.
  assert (Ha3 : (pb.1 - W) mod W = 0) by warith.
  assert (Ha4 : (b.1 + b.2 - W) mod W = 0) by warith.
  assert (Ha5 : (b.1 + b.2 - 2 * W) mod W = 0) by warith.
  (* the other listed blocks lie outside the two *)
  assert (Hout : forall j c, 0 <= j < BIN_NUM -> In c (L j) -> c <> b -> c <> pb ->
                   c.1 + c.2 <= pb.1 \/ b.1 + b.2 <= c.1).
  { intros j c Hj Hc Hcb Hcp.
    pose proof (bo_min _ _ _ _ (index_ok_In _ _ _ _ _ HL Hj Hc)).
    destruct (io_sep _ _ _ HL j _ c b Hj Hi Hc Hin) as [?|[?|?]]; [done|..];
      destruct (io_sep _ _ _ HL j _ c pb Hj Hpi Hc Hpin) as [?|[?|?]]; try done; lia. }
  assert (Hmin' : forall j c, 0 <= j < BIN_NUM -> In c (L j) -> 4 * W <= c.2).
  { intros j c Hj Hc. apply (bo_min _ _ _ _ (index_ok_In _ _ _ _ _ HL Hj Hc)). }
  (* first deletion *)
  destruct (delete_block_spec a st L b HL Hin) as (m1 & Hdel1 & HL1 & Hfr1).
  assert (Hk1 : forall q, pb.1 - W <= q -> q + W <= b.1 + b.2 ->
                  q <> pb.1 -> q <> pb.1 + W -> m1 !! q = mem st !! q).
  { intros q Hq1 Hq2 Hq3 Hq4. apply Hfr1.
    - pose proof (slot_bound a (bin_list st) _ Hi). lia.
    - intros c Hc Hcb. destruct (decide (c = pb)) as [->|Hcp]; [lia|].
      pose proof (Hmin' _ c Hi Hc).
      destruct (Hout _ c Hi Hc Hcb Hcp); lia. }
  (* second deletion *)
  assert (Hpin1 : In pb (index_remove b L (bin_of pb.2)))
    by (apply index_remove_keep; [done|lia]).
  destruct (delete_block_spec a _ _ pb HL1 Hpin1) as (m2 & Hdel2 & HL2 & Hfr2).
  change (delete_block a pb.1 (set_mem m1 st) = Some (tt, set_mem m2 st)) in Hdel2.
  simpl in Hfr2.
  assert (Hk2 : forall q, pb.1 - W <= q -> q + W <= b.1 + b.2 -> m2 !! q = m1 !! q).
  { intros q Hq1 Hq2. apply Hfr2.
    - pose proof (slot_bound a (bin_list st) _ Hpi). lia.
    - intros c Hc Hcp.
      destruct (index_remove_In_ne a _ _ _ _ _ HL Hin Hpi Hc) as [Hc' Hcb].
      pose proof (Hmin' _ c Hpi Hc').
      destruct (Hout _ c Hpi Hc' Hcb Hcp); lia. }
  (* the tags after the two deletions *)
  assert (T1 : m1 !! (b.1 - 2 * W) = Some t) by (rewrite Hk1 by lia; done).
  assert (T2 : m2 !! (b.1 - 2 * W) = Some t) by (rewrite Hk2 by lia; done).
  assert (T3 : m2 !! (pb.1 - W) = Some phd) by (rewrite Hk2, Hk1 by lia; done).
  assert (T4 : m2 !! (b.1 - W) = Some hd) by (rewrite Hk2, Hk1 by lia; done).
  (* the merged block *)
  set (sz := pb.2 + b.2) in *.
  assert (Hszal : sz mod W = 0) by (unfold sz; warith).
  assert (Hpk : size_t a (PACK sz 0) = sz).
  { rewrite (PACK_add a) by auto. rewrite (size_t_small a); lia. }
  assert (Hg0 : GET_SIZE a sz = sz /\ GET_ALLOC sz = 0).
  { replace sz with (sz + 0) by lia.
    rewrite (GET_SIZE_tag a), (GET_ALLOC_tag a) by auto. lia. }
  pose (m4 := <[pb.1 - W := sz]> (<[b.1 + b.2 - 2 * W := sz]> m2)).
  set (nb := (pb.1, sz) : block).
  assert (HL4 : index_ok a (set_mem m4 st) (index_remove pb (index_remove b L))).
  { apply (index_ok_frame a (set_mem m2 st)); [done|..]; simpl.
    - intros j Hj. pose proof (slot_bound a (bin_list st) j Hj).
      unfold m4. rewrite !lookup_insert_ne by lia. done.
    - intros j d Hj Hd.
      destruct (index_remove_In_ne a _ _ _ _ _ HL1 Hpin1 Hj Hd) as [Hd1 Hdp].
      destruct (index_remove_In_ne a _ _ _ _ _ HL Hin Hj Hd1) as [Hd0 Hdb].
      pose proof (Hmin' _ d Hj Hd0).
      unfold m4. destruct (Hout _ d Hj Hd0 Hdb Hdp);
        rewrite !lookup_insert_ne by lia; done. }
  assert (Hnb : block_ok a (set_mem m4 st) (bin_of nb.2) nb).
  { split; simpl; try done; try lia.
    exists sz. split; [|done]. unfold m4. apply lookup_insert_eq. }
  assert (Hdis : forall j d, 0 <= j < BIN_NUM ->
            In d (index_remove pb (index_remove b L) j) -> disjoint nb d).
  { intros j d Hj Hd.
    destruct (index_remove_In_ne a _ _ _ _ _ HL1 Hpin1 Hj Hd) as [Hd1 Hdp].
    destruct (index_remove_In_ne a _ _ _ _ _ HL Hin Hj Hd1) as [Hd0 Hdb].
    unfold disjoint. simpl. destruct (Hout _ d Hj Hd0 Hdb Hdp); lia. }
  destruct (insert_block_spec a _ _ nb HL4 Hnb Hdis) as (m5 & Hins & HL5 & _).
  change (insert_block a pb.1 sz (set_mem m4 st) = Some (tt, set_mem m5 st)) in Hins.
  exists m5. split; [|done].
  (* the run *)
  unfold coalesce, PREV_BLKP, FTRP, NEXT_BLKP, HDRP, DSIZE.
  rewrite (bind_GET a st _ hd) by (try apply Hacc; try done; lia).
  rewrite bind_assoc, (bind_GET a st _ t), bind_ret by (try apply Hacc; try done; lia).
  rewrite Htsz. replace (b.1 - pb.2) with pb.1 by lia.
  rewrite bind_assoc, (bind_GET a st _ phd), bind_ret by (try apply Hacc; try done; lia).
  rewrite Hpsz. replace (pb.1 + pb.2 - 2 * W) with (b.1 - 2 * W) by lia.
  rewrite (bind_GET a st _ t) by (try apply Hacc; try done; lia).
  rewrite bind_assoc, (bind_GET a st _ hd), bind_ret by (try apply Hacc; try done; lia).
  rewrite Hsz.
  rewrite (bind_GET a st _ nw) by (try apply Hacc; try done; lia).
  rewrite Htal. apply Z.eqb_neq in Hnwal. rewrite Hnwal. simpl.
  rewrite (bind_step _ _ _ _ _ Hdel1).
  rewrite bind_assoc, (bind_GET_set a st _ _ t), bind_ret
    by (try apply Hacc; try done; lia).
  rewrite Htsz. replace (b.1 - pb.2) with pb.1 by lia.
  rewrite (bind_step _ _ _ _ _ Hdel2).
  rewrite bind_assoc, (bind_GET_set a st _ _ t), bind_ret
    by (try apply Hacc; try done; lia).
  rewrite Htsz. replace (b.1 - pb.2) with pb.1 by lia.
  rewrite (bind_GET_set a st _ _ phd) by (try apply Hacc; try done; lia).
  rewrite Hpsz.
  rewrite (size_t_small a (b.2 + pb.2)) by lia.
  replace (b.2 + pb.2) with sz by (unfold sz; lia).
  rewrite bind_assoc, (bind_GET_set a st _ _ hd), bind_ret
    by (try apply Hacc; try done; lia).
  rewrite Hsz.
  rewrite bind_PUT_set by (apply Hacc; try done; lia).
  rewrite Hpk.
  rewrite bind_assoc, (bind_GET_set a st _ _ t), bind_ret
    by (first [apply Hacc; try done; lia
              |rewrite lookup_insert_ne by lia; done]).
  rewrite Htsz. replace (b.1 - pb.2) with pb.1 by lia.
  rewrite bind_PUT_set by (apply Hacc; try done; lia).
  rewrite Hpk. fold m4.
  rewrite bind_assoc, (bind_GET_set a st _ _ t), bind_ret
    by (first [apply Hacc; try done; lia
              |unfold m4; rewrite !lookup_insert_ne by lia; done]).
  rewrite Htsz. replace (b.1 - pb.2) with pb.1 by lia.
  rewrite int_small by lia.
  rewrite (bind_step _ _ _ _ _ Hins). reflexivity.
Qed.

Lemma block_ok_grow st i b brk :
  block_ok a st i b -> mem_brk st <= brk -> block_ok a (set_brk brk st) i b.
Proof. intros [] Hbrk. split; simpl; try done. lia. Qed.

Lemma seg_grow st i prev h l tl brk :
  seg a st i prev h l tl -> mem_brk st <= brk -> seg a (set_brk brk st) i prev h l tl.
Proof.
  intros Hseg Hbrk. revert prev h Hseg.
  induction l as [|b l IH]; intros prev h Hseg; [done|].
  destruct Hseg as (-> & Hb & Hp & nxt & Hn & Hseg).
  simpl. split; [done|]. split; [by apply block_ok_grow|]. eauto.
Qed.

Lemma index_ok_grow st L brk :
  index_ok a st L -> mem_brk st <= brk <= 2 ^ (8 * W) ->
  index_ok a (set_brk brk st) L.
Proof.
  intros HL Hbrk. pose proof (io_bins _ _ _ HL) as Hbins.
  pose proof (io_base_high _ _ _ HL).
  split; simpl; try apply HL; try lia.
  intros i Hi. destruct (Hbins i Hi) as (h & Hh & Hseg).
  exists h. split; [done|]. apply seg_grow; [done|lia].
Qed.

Lemma index_insert_keep (b c : block) L j : In c (L j) -> In c (index_insert b L j).
Proof. unfold index_insert. destruct (j =? bin_of b.2); simpl; auto. Qed.

Lemma mem_sbrk_granted st incr :
  0 <= incr -> mem_brk st + incr <= mem_max_addr st ->
  mem_sbrk a incr st = Some (mem_brk st, set_brk (mem_brk st + incr) st).
Proof.
  intros H0 H1. unfold mem_sbrk.
  assert ((incr <? 0) = false) as -> by (apply Z.ltb_ge; lia).
  assert ((mem_max_addr st <? mem_brk st + incr) = false) as ->
    by (apply Z.ltb_ge; lia).
  reflexivity.
Qed.

Lemma mem_sbrk_refused st incr :
  mem_max_addr st < mem_brk st + incr ->
  mem_sbrk a incr st = Some (SBRK_FAILED a, note_failure st).
Proof.
  intros H1. unfold mem_sbrk.
  assert ((mem_max_addr st <? mem_brk st + incr) = true) as ->
    by (apply Z.ltb_lt; lia).
  by rewrite orb_true_r.
Qed.

(** A granted extension appends a free block, merged with the last block
    of the heap when that one is free, and lists it. *)
Lemma extend_heap_granted st L t words :
  index_ok a st L -> tail_ok a st L t ->
  let ext := extend_size a words in
  4 * W <= ext -> ext mod W = 0 -> GET_SIZE a t + ext < 2 ^ 31 ->
  mem_brk st + ext <= mem_max_addr st -> mem_max_addr st <= 2 ^ (8 * W) ->
  exists m b L',
    extend_heap a words st =
      Some (b.1, set_mem m (set_brk (mem_brk st + ext) st)) /\
    index_ok a (set_mem m (set_brk (mem_brk st + ext) st)) L' /\
    In b (L' (bin_of b.2)) /\ ext <= b.2.
Proof.
  intros HL Ht ext Hmin Hal Hsum Hgr Hmax.
  pose proof (W_cases a) as HW. pose proof (pow_W_big a) as HWb.
  destruct Ht as [Hft (ph & Hph & Hphs) Hts Htl Hbal Hcases].
  pose proof (io_base _ _ _ HL) as Hbase.
  pose proof (io_base_low _ _ _ HL) as Hbasel.
  set (bp := mem_brk st) in *. set (psz := GET_SIZE a t) in *.
  assert (Hpszal : psz mod W = 0).
  { unfold psz. rewrite GET_SIZE_eq. warith. }
  assert (0 <= psz) by lia.
  set (st1 := set_brk (bp + ext) st).
  assert (HL1 : index_ok a st1 L) by (apply index_ok_grow; [done|fold bp; lia]).
  assert (Hacc : forall q, q mod W = 0 -> bin_list st <= q -> q + W <= bp + ext ->
                           accessible a st1 q = true).
  { intros q Hq1 Hq2 Hq3. apply accessible_true; simpl; [done|lia|lia]. }
  assert (Ha1 : (bp - W) mod W = 0) by warith.
  assert (Ha2 : (bp - 2 * W) mod W = 0) by warith.
  assert (Ha3 : (bp - psz - W) mod W = 0) by warith.
  assert (Ha4 : (bp + ext - W) mod W = 0) by warith.
  assert (Ha5 : (bp + ext - 2 * W) mod W = 0) by warith.
  assert (Hpk : size_t a (PACK ext 0) = ext).
  { rewrite (PACK_add a) by auto. rewrite (size_t_small a); lia. }
  assert (Hpk1 : size_t a (PACK 0 1) = 1) by (apply (size_t_small a); simpl; lia).
  assert (Hg0 : GET_SIZE a ext = ext /\ GET_ALLOC ext = 0).
  { replace ext with (ext + 0) by lia.
    rewrite (GET_SIZE_tag a), (GET_ALLOC_tag a) by auto. lia. }
  destruct Hg0 as [Hgs Hga].
  (* listed blocks end below the old epilogue *)
  assert (Hbelow : forall j d, 0 <= j < BIN_NUM -> In d (L j) ->
                     4 * W <= d.2 /\ d.1 + d.2 <= bp).
  { intros j d Hj Hd. pose proof (index_ok_In _ _ _ _ _ HL Hj Hd) as []. done. }
  pose (m3 := <[bp + ext - W := 1]>
                (<[bp + ext - 2 * W := ext]> (<[bp - W := ext]> (mem st)))).
  assert (HL3 : index_ok a (set_mem m3 st1) L).
  { apply (index_ok_frame a st1); [done|..]; simpl.
    - intros j Hj. pose proof (slot_bound a (bin_list st) j Hj).
      unfold m3. rewrite !lookup_insert_ne by (unfold BIN_NUM in *; lia). done.
    - intros j d Hj Hd. destruct (Hbelow j d Hj Hd).
      unfold m3. rewrite !lookup_insert_ne by lia. done. }
  set (b := (bp, ext) : block).
  assert (Hb : block_ok a (set_mem m3 st1) (bin_of b.2) b).
  { split; simpl; try done; try lia.
    exists ext. split; [|done]. unfold m3. rewrite !lookup_insert_ne by lia.
    apply lookup_insert_eq. }
  assert (Hdis : forall j d, 0 <= j < BIN_NUM -> In d (L j) -> disjoint b d).
  { intros j d Hj Hd. destruct (Hbelow j d Hj Hd). right. simpl. lia. }
  destruct (insert_block_spec a _ _ b HL3 Hb Hdis) as (m4 & Hins & HL4 & Hfr4).
  change (insert_block a bp ext (set_mem m3 st1) = Some (tt, set_mem m4 st1)) in Hins.
  simpl in Hfr4.
  assert (Hk4 : forall q, bin_list st + BIN_NUM * W <= q -> q <> bp -> q <> bp + W ->
                  (forall c, In c (L (bin_of ext)) -> q <> c.1 + W) ->
                  m4 !! q = m3 !! q).
  { intros q Hq1 Hq2 Hq3 Hq4. apply Hfr4; try done.
    pose proof (slot_bound a (bin_list st) _ (bin_of_lt ext)). lia. }
  assert (T1 : m4 !! (bp - W) = Some ext).
  { rewrite Hk4; try lia.
    - unfold m3. rewrite !lookup_insert_ne by lia. apply lookup_insert_eq.
    - intros c Hc. destruct (Hbelow _ c (bin_of_lt ext) Hc). lia. }
  assert (T2 : m4 !! (bp - 2 * W) = Some t).
  { rewrite Hk4; try lia.
    - unfold m3. rewrite !lookup_insert_ne by lia. done.
    - intros c Hc. destruct (Hbelow _ c (bin_of_lt ext) Hc). lia. }
  assert (T3 : m4 !! (bp + ext - W) = Some 1).
  { rewrite Hk4; try lia.
    - unfold m3. apply lookup_insert_eq.
    - intros c Hc. destruct (Hbelow _ c (bin_of_lt ext) Hc). lia. }
  (* the run up to [coalesce] *)
  assert (Hrun : forall k : Z -> M Z,
            bind (extend_heap a words) k st = bind (coalesce a bp) k (set_mem m4 st1)).
  { intros k. unfold extend_heap. fold (extend_size a words). fold ext.
    rewrite !bind_assoc.
    rewrite (bind_step _ _ _ _ _ (mem_sbrk_granted st ext ltac:(lia) Hgr)).
    fold bp st1.
    assert ((bp =? SBRK_FAILED a) = false) as ->.
    { apply Z.eqb_neq.
      assert (SBRK_FAILED a = 2 ^ (8 * W) - 1) as -> by (by destruct a).
      lia. }
    unfold FTRP, NEXT_BLKP, HDRP, DSIZE.
    rewrite !bind_assoc.
    rewrite bind_PUT by (apply Hacc; try done; unfold BIN_NUM in *; lia).
    rewrite Hpk. change (mem st1) with (mem st).
    rewrite !bind_assoc.
    rewrite (bind_GET_set a st1 _ _ ext), bind_ret
      by (first [apply Hacc; try done; unfold BIN_NUM in *; lia
                |apply lookup_insert_eq]).
    rewrite Hgs.
    rewrite bind_assoc, bind_PUT_set by (apply Hacc; try done; unfold BIN_NUM in *; lia).
    rewrite Hpk.
    rewrite !bind_assoc.
    rewrite (bind_GET_set a st1 _ _ ext), bind_ret
      by (first [apply Hacc; try done; unfold BIN_NUM in *; lia
                |rewrite lookup_insert_ne by lia; apply lookup_insert_eq]).
    rewrite Hgs.
    rewrite bind_assoc, bind_PUT_set by (apply Hacc; try done; unfold BIN_NUM in *; lia).
    rewrite Hpk1. fold m3.
    rewrite bind_assoc.
    rewrite (bind_GET_set a st1 _ _ ext)
      by (first [apply Hacc; try done; unfold BIN_NUM in *; lia
                |unfold m3; rewrite !lookup_insert_ne by lia; apply lookup_insert_eq]).
    rewrite Hgs, int_small by lia.
    rewrite bind_assoc.
    rewrite (bind_step _ _ _ _ _ Hins). reflexivity. }
  assert (Hrun' : forall r st', coalesce a bp (set_mem m4 st1) = Some (r, st') ->
                                extend_heap a words st = Some (r, st')).
  { intros r st' Hc. rewrite <- Hc, <- (bind_ret_r (extend_heap a words)), Hrun.
    apply bind_ret_r. }
  destruct Hcases as [[Htal Hlow]|[Htal Hpin]].
  - (* the last block is allocated *)
    exists m4, b, (index_insert b L).
    split; [|split; [done|split; [apply index_insert_here|simpl; lia]]].
    apply Hrun'. fold psz in Hph.
    assert (T4 : m4 !! (bp - psz - W) = Some ph).
    { rewrite Hk4; try lia.
      - unfold m3. rewrite !lookup_insert_ne by lia. done.
      - intros c Hc. pose proof (Hlow _ c (bin_of_lt ext) Hc).
        destruct (Hbelow _ c (bin_of_lt ext) Hc). fold psz in H0. lia. }
    apply (coalesce_case1 _ bp ext t ph 1); fold psz; rewrite ?Hgs; try done;
      try (apply Hacc; try done; unfold BIN_NUM in *; lia).
  - (* the last block is free *)
    fold psz bp in Hpin. set (pb := (bp - psz, psz) : block) in *.
    assert (Hpb4 : In pb (index_insert b L (bin_of pb.2)))
      by (by apply index_insert_keep).
    destruct (coalesce_case3 _ _ b pb t 1 HL4 (index_insert_here b L) Hpb4)
      as (m5 & Hco & HL5); simpl; try done; try lia.
    exists m5, (bp - psz, psz + ext),
      (index_insert (bp - psz, psz + ext)
         (index_remove pb (index_remove b (index_insert b L)))).
    split; [by apply Hrun'|]. split; [exact HL5|].
    split; [apply index_insert_here|simpl; lia].
Qed.

Lemma adjusted_size_facts size :
  0 < size <= 2 ^ 30 ->
  adjusted_size a size mod W = 0 /\ size < adjusted_size a size < 2 ^ 31.
Proof.
  intros Hs. pose proof (pow_W_big a) as HWb. unfold adjusted_size.
  assert (forall z, 0 <= z < 2 ^ 32 -> size_t a z = z) as Hst
    by (intros z Hz; apply (size_t_small a); lia).
  unfold DSIZE, TSIZE, ASIZE, BOUND, CHUNKSIZE.
  destruct (size =? 4092) eqn:E3.
  { apply Z.eqb_eq in E3. rewrite Hst by warith. warith. }
  destruct ((size mod 128 =? 0) && negb (size =? 128)) eqn:E2.
  { apply andb_true_iff in E2 as [E2 _]. apply Z.eqb_eq in E2.
    rewrite Hst by warith. warith. }
  destruct (size <=? 2 * W) eqn:E1.
  { apply Z.leb_le in E1. rewrite Hst by warith. warith. }
  apply Z.leb_gt in E1.
  destruct (size mod W =? 0) eqn:E0.
  - apply Z.eqb_eq in E0. rewrite Hst by warith. warith.
  - rewrite Hst by warith. warith.
Qed.

(** C4, as the code has it: with no fit, [mm_malloc] asks the region
    provider for [max(asize, CHUNKSIZE)] rounded up to an even number of
    words. *)
Lemma mm_malloc_refused st fuel size :
  0 < size <= 2 ^ 30 ->
  find_fit a fuel (adjusted_size a size) st = Some (NULL, st) ->
  mem_max_addr st <
    mem_brk st + round_up (Z.max (adjusted_size a size) CHUNKSIZE) (2 * W) ->
  mm_malloc a fuel size st = Some (NULL, note_failure st).
Proof.
  intros Hs Hfit Href. destruct (adjusted_size_facts size Hs) as [Hal Has].
  rewrite <- extend_size_round_up in Href by lia.
  unfold mm_malloc.
  assert ((size =? 0) = false) as -> by (apply Z.eqb_neq; lia).
  rewrite (bind_step _ _ _ _ _ Hfit). rewrite Z.eqb_refl. cbn [negb].
  unfold extend_heap. cbv zeta.
  fold (extend_size a (extend_words a (adjusted_size a size))).
  rewrite bind_assoc.
  rewrite (bind_step _ _ _ _ _ (mem_sbrk_refused st _ Href)).
  rewrite Z.eqb_refl. reflexivity.
Qed.

Lemma mm_malloc_granted st L t fuel size :
  index_ok a st L -> tail_ok a st L t ->
  0 < size <= 2 ^ 30 ->
  find_fit a fuel (adjusted_size a size) st = Some (NULL, st) ->
  let ext := round_up (Z.max (adjusted_size a size) CHUNKSIZE) (2 * W) in
  GET_SIZE a t + ext < 2 ^ 31 ->
  mem_brk st + ext <= mem_max_addr st -> mem_max_addr st <= 2 ^ (8 * W) ->
  exists bp st',
    mm_malloc a fuel size st = Some (bp, st') /\ bp <> NULL /\
    mem_brk st' = mem_brk st + ext.
Proof.
  intros HL Ht Hs Hfit ext Hsum Hgr Hmax.
  destruct (adjusted_size_facts size Hs) as [Hal Has].
  set (asize := adjusted_size a size) in *.
  pose proof (extend_size_round_up asize ltac:(lia)) as Hext. fold ext in Hext.
  assert (Hext3 : 4 * W <= ext /\ ext mod W = 0 /\ asize <= ext).
  { unfold ext, round_up, CHUNKSIZE. warith. }
  destruct Hext3 as (He1 & He2 & He3).
  destruct (extend_heap_granted st L t (extend_words a asize) HL Ht)
    as (m & b & L' & Hrun & HL' & Hb & Hbsz); rewrite ?Hext; try done.
  rewrite Hext in Hrun, HL', Hbsz.
  set (st1 := set_mem m (set_brk (mem_brk st + ext) st)) in *.
  destruct (place_run a st1 L' b asize HL' Hb ltac:(lia) Hal)
    as (m' & r & Hpl & _).
  exists b.1, (set_mem m' st1). split; [|split; [|done]].
  - unfold mm_malloc.
    assert ((size =? 0) = false) as -> by (apply Z.eqb_neq; lia).
    fold asize. rewrite (bind_step _ _ _ _ _ Hfit). rewrite Z.eqb_refl. cbn [negb].
    rewrite (bind_step _ _ _ _ _ Hrun).
    pose proof (block_ok_pos a _ _ _ (io_base _ _ _ HL')
                  (index_ok_In a _ _ _ _ HL' (bin_of_lt _) Hb)) as Hpos.
    assert ((b.1 =? NULL) = false) as -> by (apply Z.eqb_neq; unfold NULL; lia).
    rewrite (bind_step _ _ _ _ _ Hpl). reflexivity.
  - pose proof (block_ok_pos a _ _ _ (io_base _ _ _ HL')
                  (index_ok_In a _ _ _ _ HL' (bin_of_lt _) Hb)) as Hpos.
    unfold NULL. lia.
Qed.

End Extend.

Section Checker.

Context (a : arch).

Local Abbreviation W := (WSIZE a).

Lemma block_okb_sound st i b : block_okb a st i b = true -> block_ok a st i b.
Proof.
  unfold block_okb. rewrite !andb_true_iff.
  intros [[[[[[[H1 H2] H3] H4] H5] H6] H7] H8].
  destruct (mem st !! (b.1 - W)) as [h|] eqn:Eh; [|done].
  apply andb_true_iff in H7 as [H7 H7'].
  split; try (apply Z.eqb_eq; done); try (apply Z.leb_le; done).
  - by apply Z.ltb_lt.
  - exists h. split; [done|]. split; by apply Z.eqb_eq.
Qed.

Lemma segb_sound st i prev h l tl : segb a st i prev h l tl = true -> seg a st i prev h l tl.
Proof.
  revert prev h. induction l as [|b l IH]; intros prev h; simpl.
  - by intros ?%Z.eqb_eq.
  - rewrite !andb_true_iff. intros [[H1 H2] H3].
    unfold node_prev, node_next.
    destruct (mem st !! (b.1 + W)) as [p|]; [|done].
    destruct (mem st !! b.1) as [nxt|]; [|done].
    apply andb_true_iff in H3 as [H3 H4].
    apply Z.eqb_eq in H1, H3. subst.
    split; [done|]. split; [by apply block_okb_sound|]. split; [done|].
    exists nxt. split; [done|]. by apply IH.
Qed.

Lemma block_eqb_eq b1 b2 : block_eqb b1 b2 = true <-> b1 = b2.
Proof.
  unfold block_eqb. rewrite andb_true_iff, !Z.eqb_eq.
  destruct b1, b2; simpl. split; [intros [-> ->]; done|intros [= -> ->]; done].
Qed.

Lemma nodupb_sound l : nodupb l = true -> List.NoDup l.
Proof.
  induction l as [|b l IH]; simpl; [constructor|].
  rewrite andb_true_iff, negb_true_iff. intros [H1 H2].
  constructor; [|by apply IH].
  intros Hin. assert (existsb (block_eqb b) l = true); [|congruence].
  apply existsb_exists. exists b. split; [done|]. by apply block_eqb_eq.
Qed.

Lemma In_bins i : In i (seqZ 0 BIN_NUM) <-> 0 <= i < BIN_NUM.
Proof. rewrite <- list_elem_of_In, elem_of_seqZ. lia. Qed.

Lemma index_okb_sound st L : index_okb a st L = true -> index_ok a st L.
Proof.
  unfold index_okb. rewrite !andb_true_iff.
  intros [[[[[[[H1 H2] H3] H4] H5] H6] H7] H8].
  rewrite forallb_forall in H6, H7, H8.
  split.
  - by apply Z.ltb_lt.
  - by apply Z.eqb_eq.
  - by apply Z.leb_le.
  - by apply Z.leb_le.
  - by apply Z.leb_le.
  - intros i Hi. apply In_bins in Hi. specialize (H6 i Hi).
    destruct (mem st !! (bin_list st + i * W)) as [h|]; [|done].
    exists h. split; [done|]. by apply segb_sound.
  - intros i Hi. apply nodupb_sound, H7, In_bins, Hi.
  - intros i j b1 b2 Hi Hj Hb1 Hb2.
    specialize (H8 i (proj2 (In_bins i) Hi)). rewrite forallb_forall in H8.
    specialize (H8 j (proj2 (In_bins j) Hj)). rewrite forallb_forall in H8.
    specialize (H8 b1 Hb1). rewrite forallb_forall in H8.
    specialize (H8 b2 Hb2). apply orb_true_iff in H8 as [H8|H8].
    + left. by apply block_eqb_eq.
    + right. unfold disjointb in H8. apply orb_true_iff in H8.
      unfold disjoint. rewrite !Z.leb_le in H8. done.
Qed.

End Checker.

Lemma index0_ok : index_ok LP64 heap0 index0.
Proof. apply index_okb_sound. vm_compute. reflexivity. Qed.

Lemma tail0_ok : tail_ok LP64 heap0 index0 4112.
Proof.
  split.
  - vm_compute. reflexivity.
  - exists 4112. split; vm_compute; reflexivity.
  - vm_compute. discriminate.
  - vm_compute. discriminate.
  - vm_compute. reflexivity.
  - right. split; [reflexivity|]. vm_compute. auto.
Qed.

(** ** Lists and their links *)

Section Links.
Context (a : arch).
Local Abbreviation W := (WSIZE a).

Lemma index_ok_ext st L L' :
  (forall j, L j = L' j) -> index_ok a st L -> index_ok a st L'.
Proof.
  intros He [H1 H2 H3 H4 H5 H6 H7 H8]. split; try done.
  - intros i Hi. rewrite <- He. by apply H6.
  - intros i Hi. rewrite <- He. by apply H7.
  - intros i j b1 b2 Hi Hj. rewrite <- !He. by apply H8.
Qed.

(** Two heaps that hold the same list hold the same links. *)
Lemma seg_links st st' i prev h h' l tl :
  seg a st i prev h l tl -> seg a st' i prev h' l tl ->
  h = h' /\
  forall c, In c l -> mem st !! c.1 = mem st' !! c.1 /\
                      mem st !! (c.1 + W) = mem st' !! (c.1 + W).
Proof.
  revert prev h h'. induction l as [|b l IH]; intros prev h h' H1 H2; simpl in *.
  - split; [congruence|]. intros c [].
  - destruct H1 as (-> & _ & Hp & nxt & Hn & Hs).
    destruct H2 as (-> & _ & Hp' & nxt' & Hn' & Hs').
    destruct (IH _ _ _ Hs Hs') as [<- Hrest].
    split; [done|]. intros c [<-|Hc].
    + unfold node_prev, node_next in *. split; congruence.
    + by apply Hrest.
Qed.

Lemma index_remove_absent st L b j :
  index_ok a st L -> 0 <= j < BIN_NUM -> ~ In b (index_remove b L j).
Proof.
  intros HL Hj Hin. unfold index_remove in Hin.
  destruct (j =? bin_of b.2) eqn:E.
  - apply remove_block_In in Hin as [_ Hne]. done.
  - apply Z.eqb_neq in E. apply E.
    by destruct (index_ok_In a _ _ _ _ HL Hj Hin).
Qed.

Lemma index_insert_remove L b :
  (forall c, In c (L (bin_of b.2)) -> c.1 <> b.1) ->
  forall j, index_remove b (index_insert b L) j = L j.
Proof.
  intros Hne j. unfold index_remove, index_insert.
  destruct (j =? bin_of b.2) eqn:E; [|done].
  apply Z.eqb_eq in E. subst j. simpl. rewrite Z.eqb_refl.
  by apply remove_block_notin.
Qed.

Lemma index_remove_ext b L L' :
  (forall j, L j = L' j) -> forall j, index_remove b L j = index_remove b L' j.
Proof. intros He j. unfold index_remove. by rewrite He. Qed.

Lemma index_insert_ext b L L' :
  (forall j, L j = L' j) -> forall j, index_insert b L j = index_insert b L' j.
Proof. intros He j. unfold index_insert. by rewrite He. Qed.

End Links.

(** ** Extending behind an allocated block *)

Section ExtendAllocated.
Context (a : arch).
Local Abbreviation W := (WSIZE a).

Ltac warith :=
  let H := fresh in
  destruct (W_cases a) as [H|H]; rewrite ?H in *; Z.div_mod_to_equations; lia.

(** A granted extension up to the call of [coalesce]: the new block is
    stamped and listed, the new epilogue is in place, and nothing below
    the old epilogue has changed. *)
Lemma extend_heap_to_coalesce st L t words :
  index_ok a st L -> tail_ok a st L t ->
  let ext := extend_size a words in
  4 * W <= ext -> ext mod W = 0 -> GET_SIZE a t + ext < 2 ^ 31 ->
  mem_brk st + ext <= mem_max_addr st -> mem_max_addr st <= 2 ^ (8 * W) ->
  let bp := mem_brk st in
  let st1 := set_brk (bp + ext) st in
  exists m,
    index_ok a (set_mem m st1) (index_insert (bp, ext) L) /\
    m !! (bp - W) = Some ext /\ m !! (bp - 2 * W) = Some t /\
    m !! (bp + ext - W) = Some 1 /\ m !! (bp + ext - 2 * W) = Some ext /\
    (forall q, bin_list st + BIN_NUM * W <= q -> q < bp - W ->
               (forall c, In c (L (bin_of ext)) -> q <> c.1 + W) ->
               m !! q = mem st !! q) /\
    (forall r st', coalesce a bp (set_mem m st1) = Some (r, st') ->
                   extend_heap a words st = Some (r, st')).
Proof.
  intros HL Ht ext Hmin Hal Hsum Hgr Hmax bp st1.
  pose proof (W_cases a) as HW. pose proof (pow_W_big a) as HWb.
  destruct Ht as [Hft (ph & Hph & Hphs) Hts Htl Hbal Hcases].
  pose proof (io_base _ _ _ HL) as Hbase.
  pose proof (io_base_low _ _ _ HL) as Hbasel.
  fold bp in Hft, Hph, Htl, Hbal, Hcases, Hgr.
  set (psz := GET_SIZE a t) in *.
  assert (Hpszal : psz mod W = 0).
  { unfold psz. rewrite GET_SIZE_eq. warith. }
  assert (0 <= psz) by lia.
  assert (HL1 : index_ok a st1 L) by (apply index_ok_grow; [done|fold bp; lia]).
  assert (Hacc : forall q, q mod W = 0 -> bin_list st <= q -> q + W <= bp + ext ->
                           accessible a st1 q = true).
  { intros q Hq1 Hq2 Hq3. apply accessible_true; simpl; [done|lia|lia]. }
  assert (Ha1 : (bp - W) mod W = 0) by warith.
  assert (Ha2 : (bp - 2 * W) mod W = 0) by warith.
  assert (Ha4 : (bp + ext - W) mod W = 0) by warith.
  assert (Ha5 : (bp + ext - 2 * W) mod W = 0) by warith.
  assert (Hpk : size_t a (PACK ext 0) = ext).
  { rewrite (PACK_add a) by auto. rewrite (size_t_small a); lia. }
  assert (Hpk1 : size_t a (PACK 0 1) = 1) by (apply (size_t_small a); simpl; lia).
  assert (Hg0 : GET_SIZE a ext = ext /\ GET_ALLOC ext = 0).
  { replace ext with (ext + 0) by lia.
    rewrite (GET_SIZE_tag a), (GET_ALLOC_tag a) by auto. lia. }
  destruct Hg0 as [Hgs Hga].
  (* listed blocks end below the old epilogue *)
  assert (Hbelow : forall j d, 0 <= j < BIN_NUM -> In d (L j) ->
                     4 * W <= d.2 /\ d.1 + d.2 <= bp).
  { intros j d Hj Hd. pose proof (index_ok_In _ _ _ _ _ HL Hj Hd) as []. done. }
  pose (m3 := <[bp + ext - W := 1]>
                (<[bp + ext - 2 * W := ext]> (<[bp - W := ext]> (mem st)))).
  assert (HL3 : index_ok a (set_mem m3 st1) L).
  { apply (index_ok_frame a st1); [done|..]; simpl.
    - intros j Hj. pose proof (slot_bound a (bin_list st) j Hj).
      unfold m3. rewrite !lookup_insert_ne by (unfold BIN_NUM in *; lia). done.
    - intros j d Hj Hd. destruct (Hbelow j d Hj Hd).
      unfold m3. rewrite !lookup_insert_ne by lia. done. }
  set (b := (bp, ext) : block).
  assert (Hb : block_ok a (set_mem m3 st1) (bin_of b.2) b).
  { split; simpl; try done; try lia.
    exists ext. split; [|done]. unfold m3. rewrite !lookup_insert_ne by lia.
    apply lookup_insert_eq. }
  assert (Hdis : forall j d, 0 <= j < BIN_NUM -> In d (L j) -> disjoint b d).
  { intros j d Hj Hd. destruct (Hbelow j d Hj Hd). right. simpl. lia. }
  destruct (insert_block_spec a _ _ b HL3 Hb Hdis) as (m4 & Hins & HL4 & Hfr4).
  change (insert_block a bp ext (set_mem m3 st1) = Some (tt, set_mem m4 st1)) in Hins.
  simpl in Hfr4.
  assert (Hk4 : forall q, bin_list st + BIN_NUM * W <= q -> q <> bp -> q <> bp + W ->
                  (forall c, In c (L (bin_of ext)) -> q <> c.1 + W) ->
                  m4 !! q = m3 !! q).
  { intros q Hq1 Hq2 Hq3 Hq4. apply Hfr4; try done.
    pose proof (slot_bound a (bin_list st) _ (bin_of_lt ext)). lia. }
  exists m4. split; [exact HL4|]. repeat apply conj.
  - rewrite Hk4; try lia.
    + unfold m3. rewrite !lookup_insert_ne by lia. apply lookup_insert_eq.
    + intros c Hc. destruct (Hbelow _ c (bin_of_lt ext) Hc). lia.
  - rewrite Hk4; try lia.
    + unfold m3. rewrite !lookup_insert_ne by lia. done.
    + intros c Hc. destruct (Hbelow _ c (bin_of_lt ext) Hc). lia.
  - rewrite Hk4; try lia.
    + unfold m3. apply lookup_insert_eq.
    + intros c Hc. destruct (Hbelow _ c (bin_of_lt ext) Hc). lia.
  - rewrite Hk4; try lia.
    + unfold m3. rewrite lookup_insert_ne by lia. apply lookup_insert_eq.
    + intros c Hc. destruct (Hbelow _ c (bin_of_lt ext) Hc). lia.
  - intros q Hq1 Hq2 Hq3. rewrite Hk4; try lia; [|done].
    unfold m3. rewrite !lookup_insert_ne by lia. done.
  - assert (Hrun : forall k : Z -> M Z,
              bind (extend_heap a words) k st = bind (coalesce a bp) k (set_mem m4 st1)).
    { intros k. unfold extend_heap. fold (extend_size a words). fold ext.
      rewrite !bind_assoc.
      rewrite (bind_step _ _ _ _ _ (mem_sbrk_granted a st ext ltac:(lia) Hgr)).
      fold bp st1.
      assert ((bp =? SBRK_FAILED a) = false) as ->.
      { apply Z.eqb_neq.
        assert (SBRK_FAILED a = 2 ^ (8 * W) - 1) as -> by (by destruct a).
        lia. }
      unfold FTRP, NEXT_BLKP, HDRP, DSIZE.
      rewrite !bind_assoc.
      rewrite bind_PUT by (apply Hacc; try done; unfold BIN_NUM in *; lia).
      rewrite Hpk. change (mem st1) with (mem st).
      rewrite !bind_assoc.
      rewrite (bind_GET_set a st1 _ _ ext), bind_ret
        by (first [apply Hacc; try done; unfold BIN_NUM in *; lia
                  |apply lookup_insert_eq]).
      rewrite Hgs.
      rewrite bind_assoc, bind_PUT_set by (apply Hacc; try done; unfold BIN_NUM in *; lia).
      rewrite Hpk.
      rewrite !bind_assoc.
      rewrite (bind_GET_set a st1 _ _ ext), bind_ret
        by (first [apply Hacc; try done; unfold BIN_NUM in *; lia
                  |rewrite lookup_insert_ne by lia; apply lookup_insert_eq]).
      rewrite Hgs.
      rewrite bind_assoc, bind_PUT_set by (apply Hacc; try done; unfold BIN_NUM in *; lia).
      rewrite Hpk1. fold m3.
      rewrite bind_assoc.
      rewrite (bind_GET_set a st1 _ _ ext)
        by (first [apply Hacc; try done; unfold BIN_NUM in *; lia
                  |unfold m3; rewrite !lookup_insert_ne by lia; apply lookup_insert_eq]).
      rewrite Hgs, int_small by lia.
      rewrite bind_assoc.
      rewrite (bind_step _ _ _ _ _ Hins). reflexivity. }
    intros r st' Hc. rewrite <- Hc, <- (bind_ret_r (extend_heap a words)), Hrun.
    apply bind_ret_r.
Qed.

(** Extending a heap whose last block is allocated: the new block is
    listed as it is, and it is the last block of the extended heap. *)
Lemma extend_heap_after_allocated st L t words :
  index_ok a st L -> tail_ok a st L t -> GET_ALLOC t <> 0 ->
  let ext := extend_size a words in
  4 * W <= ext -> ext mod W = 0 -> GET_SIZE a t + ext < 2 ^ 31 ->
  mem_brk st + ext <= mem_max_addr st -> mem_max_addr st <= 2 ^ (8 * W) ->
  let st1 := set_brk (mem_brk st + ext) st in
  exists m,
    extend_heap a words st = Some (mem_brk st, set_mem m st1) /\
    index_ok a (set_mem m st1) (index_insert (mem_brk st, ext) L) /\
    tail_ok a (set_mem m st1) (index_insert (mem_brk st, ext) L) ext.
Proof.
  intros HL Ht Htal ext Hmin Hal Hsum Hgr Hmax st1.
  destruct (extend_heap_to_coalesce st L t words HL Ht Hmin Hal Hsum Hgr Hmax)
    as (m & HL4 & T1 & T2 & T3 & T5 & Hfr & Hrun).
  fold ext in HL4, T1, T3, T5, Hfr. fold st1 in HL4, Hrun.
  pose proof (W_cases a) as HW.
  destruct Ht as [Hft (ph & Hph & Hphs) Hts Htl Hbal Hcases].
  destruct Hcases as [[_ Hlow]|[Hfree _]]; [|done].
  set (bp := mem_brk st) in *. set (psz := GET_SIZE a t) in *.
  assert (Hpszal : psz mod W = 0).
  { unfold psz. rewrite GET_SIZE_eq. warith. }
  assert (Hg0 : GET_SIZE a ext = ext /\ GET_ALLOC ext = 0).
  { replace ext with (ext + 0) by lia.
    rewrite (GET_SIZE_tag a), (GET_ALLOC_tag a) by auto. lia. }
  destruct Hg0 as [Hgs Hga].
  pose proof (io_base_low _ _ _ HL) as Hbasel.
  assert (Hacc : forall q, q mod W = 0 -> bin_list st <= q -> q + W <= bp + ext ->
                           accessible a st1 q = true).
  { intros q Hq1 Hq2 Hq3. apply accessible_true; simpl; [done|lia|lia]. }
  exists m. split; [|split; [exact HL4|]].
  - apply Hrun.
    assert (T4 : m !! (bp - psz - W) = Some ph).
    { rewrite Hfr; try lia; [done|].
      intros c Hc. pose proof (Hlow _ c (bin_of_lt ext) Hc).
      pose proof (index_ok_In _ _ _ _ _ HL (bin_of_lt ext) Hc) as [].
      fold psz in H. lia. }
    apply (coalesce_case1 _ _ bp ext t ph 1); fold psz; rewrite ?Hgs; try done;
      try (apply Hacc; try warith; unfold BIN_NUM in *; lia).
  - split; simpl; fold bp.
    + done.
    + exists ext. rewrite Hgs. replace (bp + ext - ext - W) with (bp - W) by lia.
      done.
    + rewrite Hgs. lia.
    + rewrite Hgs. lia.
    + warith.
    + right. split; [done|]. rewrite Hgs.
      replace (bp + ext - ext) with bp by lia. apply index_insert_here.
Qed.

End ExtendAllocated.

(** ** Initialisation *)

Section Init.
Context (a : arch).
Local Abbreviation W := (WSIZE a).

Ltac warith :=
  let H := fresh in
  destruct (W_cases a) as [H|H]; rewrite ?H in *; Z.div_mod_to_equations; lia.

Lemma bind_modify {B} (f : heap -> heap) (k : unit -> M B) st :
  bind (modify f) k st = k tt (f st).
Proof. reflexivity. Qed.

Lemma clear_bins_run n : forall i st,
  (forall k, i <= k < i + Z.of_nat n ->
             accessible a st (bin_list st + k * W) = true) ->
  exists m,
    clear_bins a n i st = Some (tt, set_mem m st) /\
    (forall k, i <= k < i + Z.of_nat n ->
               m !! (bin_list st + k * W) = Some NULL) /\
    (forall q, (forall k, i <= k < i + Z.of_nat n -> q <> bin_list st + k * W) ->
               m !! q = mem st !! q).
Proof.
  induction n as [|n IH]; intros i st Hacc.
  - exists (mem st). simpl. rewrite set_mem_id. split; [done|]. split; [lia|done].
  - simpl clear_bins.
    rewrite (bind_step _ _ _ _ _ (set_bin_ok a st i NULL (Hacc i ltac:(lia)))).
    set (m1 := <[bin_list st + i * W := size_t a NULL]> (mem st)).
    destruct (IH (i + 1) (set_mem m1 st)) as (m & Hrun & Hz & Hfr).
    { intros k Hk. rewrite accessible_set_mem. apply Hacc. lia. }
    simpl in Hz, Hfr. rewrite set_mem_set_mem in Hrun.
    exists m. split; [done|]. split.
    + intros k Hk. destruct (decide (k = i)) as [->|Hne].
      * rewrite Hfr; [apply lookup_insert_eq|].
        intros k' Hk'. apply slot_inj. lia.
      * apply Hz. lia.
    + intros q Hq. rewrite Hfr by (intros k Hk; apply Hq; lia).
      unfold m1. rewrite lookup_insert_ne; [done|].
      intros E. symmetry in E. by apply (Hq i ltac:(lia)).
Qed.

(** [mm_init] up to its call of [extend_heap]: the bins are empty, and the
    prologue is the last block of the heap. *)
Lemma mm_init_prologue start max :
  0 < start -> start mod W = 0 ->
  start + (4 + BIN_NUM) * W <= max -> max <= 2 ^ (8 * W) ->
  exists m,
    let st := Heap m start (start + (4 + BIN_NUM) * W) max
                   (start + (BIN_NUM + 4) * W) start 0 in
    mm_init a (mem_init start max) =
      (let! bp := extend_heap a (CHUNKSIZE / W) in
       if bp =? NULL then ret (-1) else ret 0) st /\
    index_ok a st (fun _ => []) /\
    tail_ok a st (fun _ => []) (PACK (DSIZE a) 1).
Proof.
  intros Hstart Hal Hroom Hmax.
  pose proof (W_cases a) as HW. pose proof (pow_W_big a) as HWb.
  set (s1 := Heap ∅ start (start + (4 + BIN_NUM) * W) max start start 0).
  assert (Hacc : forall q, q mod W = 0 -> start <= q ->
                           q + W <= start + (4 + BIN_NUM) * W ->
                           accessible a s1 q = true).
  { intros q H1 H2 H3. by apply accessible_true. }
  destruct (clear_bins_run (Z.to_nat BIN_NUM) 0 s1) as (mc & Hrun & Hz & Hfr).
  { intros k Hk. apply Hacc; simpl; unfold BIN_NUM in *; warith. }
  simpl bin_list in Hz, Hfr.
  assert (Hp1 : size_t a (PACK (DSIZE a) 1) = 2 * W + 1).
  { unfold DSIZE. rewrite (PACK_add a) by (auto; warith).
    apply (size_t_small a). lia. }
  assert (Hp0 : size_t a (PACK 0 1) = 1) by (apply (size_t_small a); simpl; lia).
  set (m := <[start + (BIN_NUM + 3) * W := 1]>
              (<[start + (BIN_NUM + 2) * W := 2 * W + 1]>
                 (<[start + (BIN_NUM + 1) * W := 2 * W + 1]>
                    (<[start + BIN_NUM * W := 0]> mc)))).
  exists m. cbv zeta. split; [|split].
  - unfold mm_init.
    rewrite (bind_step _ _ _ _ _
               (mem_sbrk_granted a (mem_init start max) ((4 + BIN_NUM) * W)
                  ltac:(unfold BIN_NUM; lia) Hroom)).
    rewrite bind_modify.
    assert ((mem_brk (mem_init start max) =? SBRK_FAILED a) = false) as ->.
    { apply Z.eqb_neq. simpl.
      assert (SBRK_FAILED a = 2 ^ (8 * W) - 1) as -> by (by destruct a).
      unfold BIN_NUM in *. lia. }
    rewrite bind_modify.
    change (mem_brk (mem_init start max)) with start.
    change (set_bin_list _ _) with s1.
    rewrite (bind_step _ _ _ _ _ Hrun).
    rewrite bind_PUT_set by (apply Hacc; unfold BIN_NUM in *; warith).
    rewrite bind_PUT_set by (apply Hacc; unfold BIN_NUM in *; warith).
    rewrite bind_PUT_set by (apply Hacc; unfold BIN_NUM in *; warith).
    rewrite bind_PUT_set by (apply Hacc; unfold BIN_NUM in *; warith).
    rewrite bind_modify. rewrite Hp1, Hp0.
    change (size_t a 0) with 0. reflexivity.
  - assert (Hslot : forall i, 0 <= i < BIN_NUM ->
                      m !! (start + i * W) = Some NULL).
    { intros i Hi. unfold m.
      rewrite !lookup_insert_ne by (unfold BIN_NUM in *; nia).
      apply Hz. unfold BIN_NUM in *. lia. }
    split; simpl; try done; try (unfold BIN_NUM in *; lia).
    + intros i Hi. exists NULL. split; [by apply Hslot|done].
    + intros i Hi. constructor.
  - assert (Hg : GET_SIZE a (2 * W + 1) = 2 * W /\ GET_ALLOC (2 * W + 1) = 1).
    { rewrite (GET_SIZE_tag a), (GET_ALLOC_tag a) by (auto; warith). done. }
    destruct Hg as [Hgs Hga].
    unfold DSIZE. rewrite (PACK_add a) by (auto; warith).
    split; simpl; rewrite ?Hgs.
    + unfold m. rewrite lookup_insert_ne by (unfold BIN_NUM; lia).
      replace (start + (4 + BIN_NUM) * W - 2 * W) with (start + (BIN_NUM + 2) * W) by lia.
      apply lookup_insert_eq.
    + exists (2 * W + 1). split; [|done]. unfold m.
      replace (start + (4 + BIN_NUM) * W - 2 * W - W)
        with (start + (BIN_NUM + 1) * W) by lia.
      rewrite !lookup_insert_ne by (unfold BIN_NUM; lia).
      apply lookup_insert_eq.
    + lia.
    + lia.
    + unfold BIN_NUM. warith.
    + left. split; [lia|]. intros j d _ [].
Qed.

End Init.

(** ** The block checker *)

Section CheckBlock.
Context (a : arch).
Local Abbreviation W := (WSIZE a).

Ltac warith :=
  let H := fresh in
  destruct (W_cases a) as [H|H]; rewrite ?H in *; Z.div_mod_to_equations; lia.

Lemma binl_loop_seg st L i prev h l fuel bp flag :
  index_ok a st L -> seg a st i prev h l NULL -> (length l < fuel)%nat ->
  binl_loop a fuel h bp flag st =
    Some (flag || existsb (fun c : block => c.1 =? bp) l, st).
Proof.
  intros HL. revert prev h fuel flag.
  induction l as [|b l IH]; intros prev h fuel flag Hseg Hfuel;
    (destruct fuel as [|fuel]; [simpl in Hfuel; lia|]); simpl in Hseg |- *.
  - subst h. simpl. by rewrite orb_false_r.
  - destruct Hseg as (-> & Hb & Hprev & nxt & Hnxt & Hseg).
    pose proof (block_ok_pos a _ _ _ (io_base a _ _ HL) Hb) as Hpos.
    destruct (block_ok_acc a _ _ _ _ HL Hb) as (_ & An & _).
    assert ((b.1 =? NULL) = false) as -> by (apply Z.eqb_neq; unfold NULL; lia).
    rewrite (bind_step _ _ _ _ _ (GET_ok a _ _ _ An Hnxt)).
    rewrite (IH b.1); [|done|simpl in Hfuel; lia].
    destruct (b.1 =? bp), flag; reflexivity.
Qed.

End CheckBlock.

(** ** Allocation and release on a sound index *)

Section Interface.
Context (a : arch).
Local Abbreviation W := (WSIZE a).

Ltac warith :=
  let H := fresh in
  destruct (W_cases a) as [H|H]; rewrite ?H in *; Z.div_mod_to_equations; lia.

Lemma adjusted_size_bounds size :
  0 < size <= 2 ^ 30 ->
  adjusted_size a size mod W = 0 /\
  4 * W <= adjusted_size a size /\
  size + 2 * W <= adjusted_size a size /\
  adjusted_size a size <= size + 2 * W + 128.
Proof.
  intros Hs. pose proof pow_W_big a as HWb. unfold adjusted_size.
  assert (forall z, 0 <= z < 2 ^ 32 -> size_t a z = z) as Hst
    by (intros z Hz; apply (size_t_small a); lia).
  unfold DSIZE, TSIZE, ASIZE, BOUND, CHUNKSIZE.
  destruct (size =? 4092) eqn:E3.
  { apply Z.eqb_eq in E3. rewrite Hst by warith. warith. }
  destruct ((size mod 128 =? 0) && negb (size =? 128)) eqn:E2.
  { apply andb_true_iff in E2 as [E2 _]. apply Z.eqb_eq in E2.
    rewrite Hst by warith. warith. }
  destruct (size <=? 2 * W) eqn:E1.
  { apply Z.leb_le in E1. rewrite Hst by warith. warith. }
  apply Z.leb_gt in E1.
  destruct (size mod W =? 0) eqn:E0;
    [apply Z.eqb_eq in E0|apply Z.eqb_neq in E0];
    rewrite Hst by warith; warith.
Qed.

Lemma tag_decode size alloc :
  size mod W = 0 -> alloc = 0 \/ alloc = 1 ->
  GET_SIZE a (PACK size alloc) = size /\ GET_ALLOC (PACK size alloc) = alloc.
Proof.
  intros Hs Ha. rewrite (PACK_add a) by done.
  split; [by apply GET_SIZE_tag|by apply (GET_ALLOC_tag a)].
Qed.

Lemma bins_from_In L i b :
  0 <= i -> In b (bins_from L i) -> exists j, 0 <= j < BIN_NUM /\ In b (L j).
Proof.
  intros Hi Hb. unfold bins_from in Hb. apply in_concat in Hb as (l & Hl & Hb).
  apply in_map_iff in Hl as (j & <- & Hj).
  apply list_elem_of_In, elem_of_seqZ in Hj. exists j. split; [lia|done].
Qed.

(** [mm_malloc] when the search succeeds. *)
Lemma mm_malloc_fit st L fuel size b :
  index_ok a st L -> 0 < size <= 2 ^ 30 ->
  (forall j, 0 <= j < BIN_NUM -> (length (L j) < fuel)%nat) ->
  find (fun c : block => adjusted_size a size <=? c.2)
       (bins_from L (bin_of (adjusted_size a size))) = Some b ->
  let asize := adjusted_size a size in
  let L' := if 4 * W <=? b.2 - asize
            then index_insert (b.1 + asize, b.2 - asize) (index_remove b L)
            else index_remove b L in
  exists m hd,
    mm_malloc a fuel size st = Some (b.1, set_mem m st) /\
    b.1 <> NULL /\
    m !! HDRP a b.1 = Some hd /\ GET_ALLOC hd = 1 /\
    size + 2 * W <= GET_SIZE a hd <= b.2 /\
    m !! (b.1 + GET_SIZE a hd - 2 * W) = Some hd /\
    index_ok a (set_mem m st) L'.
Proof.
  intros HL Hs Hfuel Hfind asize L'.
  destruct (adjusted_size_bounds size Hs) as (Hal & Hmin & Hroom & Hup).
  fold asize in Hal, Hmin, Hroom, Hup.
  pose proof (W_cases a) as HW.
  pose proof (find_some _ _ Hfind) as [Hin Hfits]. simpl in Hfits.
  apply Z.leb_le in Hfits. fold asize in Hfits.
  destruct (bins_from_In L (bin_of asize) b
              ltac:(pose proof (bin_of_lt asize); lia) Hin)
    as (j & Hj & Hbj).
  pose proof (index_ok_In a _ _ _ _ HL Hj Hbj) as Hb.
  assert (j = bin_of b.2) as -> by (symmetry; apply (bo_bin _ _ _ _ Hb)).
  pose proof (block_ok_pos a _ _ _ (io_base a _ _ HL) Hb) as Hpos.
  destruct (place_run a st L b asize HL Hbj ltac:(lia) Hal) as (m & r & Hrun & Hpost).
  assert (Hmalloc : mm_malloc a fuel size st = Some (b.1, set_mem m st)).
  { unfold mm_malloc.
    assert ((size =? 0) = false) as -> by (apply Z.eqb_neq; lia).
    fold asize.
    rewrite (bind_step _ _ _ _ _
               (find_fit_index a st L fuel asize HL ltac:(lia) Hfuel)).
    unfold first_fit_spec. fold asize in Hfind. rewrite Hfind.
    assert ((b.1 =? NULL) = false) as -> by (apply Z.eqb_neq; unfold NULL; lia).
    cbn [negb]. rewrite (bind_step _ _ _ _ _ Hrun). reflexivity. }
  unfold L', HDRP. destruct (4 * W <=? b.2 - asize).
  - destruct Hpost as (_ & T1 & T2 & _ & _ & HL1).
    destruct (tag_decode asize 1 Hal ltac:(auto)) as [Hgs Hga].
    exists m, (PACK asize 1). rewrite Hgs, Hga.
    repeat apply conj; try done; unfold NULL; lia.
  - destruct Hpost as (_ & T1 & T2 & HL1).
    destruct (tag_decode b.2 1 (bo_size_aligned _ _ _ _ Hb) ltac:(auto)) as [Hgs Hga].
    exists m, (PACK b.2 1). rewrite Hgs, Hga.
    repeat apply conj; try done; unfold NULL; lia.
Qed.

(** [mm_free] up to its call of [coalesce], for a block that is not
    listed: the block is marked free and put at the head of its bin, and
    of the words outside the block only the back link of the former head
    of the bin and the bin head have changed. *)
Lemma mm_free_to_coalesce st L bp h :
  index_ok a st L ->
  mem st !! (bp - W) = Some h ->
  bp mod W = 0 -> 4 * W <= GET_SIZE a h < 2 ^ 31 ->
  bin_list st + BIN_NUM * W <= bp - W -> bp + GET_SIZE a h <= mem_brk st ->
  (forall j d, 0 <= j < BIN_NUM -> In d (L j) -> disjoint (bp, GET_SIZE a h) d) ->
  let size := GET_SIZE a h in
  exists m,
    index_ok a (set_mem m st) (index_insert (bp, size) L) /\
    m !! (bp - W) = Some size /\ m !! (bp + size - 2 * W) = Some size /\
    (forall q, bin_list st + BIN_NUM * W <= q ->
               q < bp - W \/ bp + size - W <= q ->
               (forall c, In c (L (bin_of size)) -> q <> c.1 + W) ->
               m !! q = mem st !! q) /\
    (forall st', (coalesce a bp >> ret tt) (set_mem m st) = Some (tt, st') ->
                 mm_free a bp st = Some (tt, st')).
Proof.
  intros HL Hh Hal Hsize Hlow Hhigh Hdis size. fold size in Hsize, Hhigh, Hdis.
  pose proof (W_cases a) as HW. pose proof (pow_W_big a) as HWb.
  pose proof (io_base a _ _ HL) as Hbase.
  pose proof (io_base_low a _ _ HL) as Hbasel.
  assert (Hszal : size mod W = 0) by (unfold size; rewrite GET_SIZE_eq; warith).
  assert (Hacc : forall q, q mod W = 0 -> bp - W <= q -> q + W <= bp + size ->
                           accessible a st q = true).
  { intros q H1 H2 H3. apply accessible_true; [done|unfold BIN_NUM in *; lia|lia]. }
  assert (A1 : accessible a st (bp - W) = true) by (apply Hacc; [warith|lia|lia]).
  assert (A2 : accessible a st (bp + size - 2 * W) = true)
    by (apply Hacc; [warith|lia|lia]).
  assert (Hpk : size_t a (PACK size 0) = size).
  { rewrite (PACK_add a) by auto. rewrite (size_t_small a); lia. }
  assert (Hg0 : GET_SIZE a size = size /\ GET_ALLOC size = 0).
  { replace size with (size + 0) by lia.
    rewrite (GET_SIZE_tag a), (GET_ALLOC_tag a) by auto. lia. }
  destruct Hg0 as [Hgs Hga].
  assert (Hsep : forall j d, 0 <= j < BIN_NUM -> In d (L j) ->
                   4 * W <= d.2 /\ bin_list st + BIN_NUM * W <= d.1 - W /\
                   (d.1 + d.2 <= bp \/ bp + size <= d.1)).
  { intros j d Hj Hd. pose proof (index_ok_In a _ _ _ _ HL Hj Hd) as [].
    destruct (Hdis j d Hj Hd) as [E|E]; simpl in E; repeat split; try done; lia. }
  pose (m2 := <[bp + size - 2 * W := size]> (<[bp - W := size]> (mem st))).
  assert (HL2 : index_ok a (set_mem m2 st) L).
  { apply (index_ok_frame a st); [done|..].
    - intros j Hj. pose proof (slot_bound a (bin_list st) j Hj).
      unfold m2. rewrite !lookup_insert_ne by lia. done.
    - intros j d Hj Hd. destruct (Hsep j d Hj Hd) as (? & ? & ?).
      unfold m2. rewrite !lookup_insert_ne by lia. done. }
  set (b := (bp, size) : block).
  assert (Hb : block_ok a (set_mem m2 st) (bin_of b.2) b).
  { split; simpl; try done; try lia.
    exists size. split; [|done]. unfold m2. rewrite lookup_insert_ne by lia.
    apply lookup_insert_eq. }
  destruct (insert_block_spec a _ _ b HL2 Hb Hdis) as (m3 & Hins & HL3 & Hfr3).
  change (insert_block a bp size (set_mem m2 st) = Some (tt, set_mem m3 (set_mem m2 st)))
    in Hins.
  rewrite set_mem_set_mem in Hins, HL3. simpl in Hfr3.
  assert (Hk : forall q, bin_list st + BIN_NUM * W <= q -> q <> bp -> q <> bp + W ->
                 (forall c, In c (L (bin_of size)) -> q <> c.1 + W) ->
                 m3 !! q = m2 !! q).
  { intros q Hq1 Hq2 Hq3 Hq4. apply Hfr3; try done.
    pose proof (slot_bound a (bin_list st) _ (bin_of_lt size)). lia. }
  exists m3. split; [exact HL3|]. repeat apply conj.
  - rewrite Hk; try lia.
    + unfold m2. rewrite lookup_insert_ne by lia. apply lookup_insert_eq.
    + intros c Hc. destruct (Hsep _ c (bin_of_lt size) Hc) as (? & ? & ?). lia.
  - rewrite Hk; try lia.
    + unfold m2. apply lookup_insert_eq.
    + intros c Hc. destruct (Hsep _ c (bin_of_lt size) Hc) as (? & ? & ?). lia.
  - intros q Hq1 Hq2 Hq3. rewrite Hk; try lia; [|done].
    unfold m2. rewrite !lookup_insert_ne by lia. done.
  - intros st' Hco. unfold mm_free.
    assert ((bp =? NULL) = false) as ->
      by (apply Z.eqb_neq; unfold NULL, BIN_NUM in *; lia).
    unfold FTRP, HDRP, DSIZE.
    rewrite (bind_GET a st _ h) by done. fold size.
    rewrite bind_PUT by done. rewrite Hpk.
    rewrite !bind_assoc.
    rewrite (bind_GET_set a st _ _ size), bind_ret
      by (first [done|apply lookup_insert_eq]).
    rewrite Hgs.
    rewrite bind_PUT_set by done. rewrite Hpk. fold m2.
    rewrite int_small by lia.
    rewrite (bind_step _ _ _ _ _ Hins). exact Hco.
Qed.

Lemma mm_free_isolated st L bp h t ph nw :
  index_ok a st L ->
  mem st !! (bp - W) = Some h ->
  bp mod W = 0 -> 4 * W <= GET_SIZE a h < 2 ^ 31 ->
  bp + GET_SIZE a h <= mem_brk st ->
  mem st !! (bp - 2 * W) = Some t -> GET_ALLOC t <> 0 -> 2 * W <= GET_SIZE a t ->
  bin_list st + BIN_NUM * W <= bp - GET_SIZE a t - W ->
  mem st !! (bp - GET_SIZE a t - W) = Some ph -> GET_SIZE a ph = GET_SIZE a t ->
  mem st !! (bp + GET_SIZE a h - W) = Some nw -> GET_ALLOC nw <> 0 ->
  (forall j d, 0 <= j < BIN_NUM -> In d (L j) ->
               disjoint (bp - GET_SIZE a t, GET_SIZE a t + GET_SIZE a h) d) ->
  exists m,
    mm_free a bp st = Some (tt, set_mem m st) /\
    index_ok a (set_mem m st) (index_insert (bp, GET_SIZE a h) L) /\
    m !! (bp - W) = Some (PACK (GET_SIZE a h) 0) /\
    m !! (bp + GET_SIZE a h - 2 * W) = Some (PACK (GET_SIZE a h) 0).
Proof.
  intros HL Hh Hal Hsize Hhigh Ht Htal Htsz Hlow Hph Hphs Hnw Hnwal Hdis.
  pose proof (W_cases a) as HW.
  pose proof (io_base_low a _ _ HL) as Hbasel.
  set (size := GET_SIZE a h) in *. set (psz := GET_SIZE a t) in *.
  assert (Hszal : size mod W = 0) by (unfold size; rewrite GET_SIZE_eq; warith).
  assert (Hpszal : psz mod W = 0) by (unfold psz; rewrite GET_SIZE_eq; warith).
  assert (Hsep : forall j d, 0 <= j < BIN_NUM -> In d (L j) ->
                   4 * W <= d.2 /\ (d.1 + d.2 <= bp - psz \/ bp + size <= d.1)).
  { intros j d Hj Hd. pose proof (index_ok_In a _ _ _ _ HL Hj Hd) as [].
    destruct (Hdis j d Hj Hd) as [E|E]; simpl in E; split; try done; lia. }
  destruct (mm_free_to_coalesce st L bp h HL Hh Hal Hsize ltac:(lia) Hhigh)
    as (m & HLm & T1 & T2 & Hfr & Hrun).
  { intros j d Hj Hd. destruct (Hsep j d Hj Hd) as [_ [E|E]];
      [right|left]; simpl; lia. }
  fold size in HLm, T1, T2, Hfr, Hrun.
  assert (Hg0 : GET_SIZE a size = size).
  { replace size with (size + 0) by lia. rewrite (GET_SIZE_tag a) by auto. lia. }
  assert (Hacc : forall q, q mod W = 0 -> bp - psz - W <= q -> q + W <= bp + size ->
                           accessible a (set_mem m st) q = true).
  { intros q H1 H2 H3. rewrite accessible_set_mem.
    apply accessible_true; [done|unfold BIN_NUM in *; lia|lia]. }
  exists m. split; [|split; [exact HLm|]].
  - apply Hrun.
    rewrite (bind_step _ _ _ bp (set_mem m st)); [reflexivity|].
    apply (coalesce_case1 a _ bp size t ph nw); rewrite ?Hg0; fold psz; try done;
      try (apply Hacc; [warith|lia|lia]).
    + simpl. rewrite Hfr; [done|lia|lia|].
      intros c Hc. destruct (Hsep _ c (bin_of_lt size) Hc) as [? [?|?]]; lia.
    + simpl. rewrite Hfr; [done|lia|lia|].
      intros c Hc. destruct (Hsep _ c (bin_of_lt size) Hc) as [? [?|?]]; lia.
    + simpl. rewrite Hfr; [done|unfold BIN_NUM in *; lia|lia|].
      intros c Hc. destruct (Hsep _ c (bin_of_lt size) Hc) as [? [?|?]]; lia.
  - rewrite (PACK_add a) by auto. rewrite Z.add_0_r. done.
Qed.

Lemma mm_free_after_free st L bp h pb t nw :
  index_ok a st L ->
  mem st !! (bp - W) = Some h ->
  bp mod W = 0 -> 4 * W <= GET_SIZE a h -> bp + GET_SIZE a h <= mem_brk st ->
  In pb (L (bin_of pb.2)) -> pb.1 + pb.2 = bp ->
  pb.2 + GET_SIZE a h < 2 ^ 31 ->
  mem st !! (bp - 2 * W) = Some t -> GET_SIZE a t = pb.2 -> GET_ALLOC t = 0 ->
  mem st !! (bp + GET_SIZE a h - W) = Some nw -> GET_ALLOC nw <> 0 ->
  (forall j d, 0 <= j < BIN_NUM -> In d (L j) -> disjoint (bp, GET_SIZE a h) d) ->
  exists m,
    mm_free a bp st = Some (tt, set_mem m st) /\
    index_ok a (set_mem m st)
      (index_insert (pb.1, pb.2 + GET_SIZE a h) (index_remove pb L)).
Proof.
  intros HL Hh Hal Hsize Hhigh Hpin Hadj Hsum Ht Htsz Htal Hnw Hnwal Hdis.
  pose proof (W_cases a) as HW.
  set (size := GET_SIZE a h) in *.
  pose proof (index_ok_In a _ _ _ _ HL (bin_of_lt pb.2) Hpin) as Hpb.
  pose proof (bo_min _ _ _ _ Hpb) as Hpmin.
  pose proof (bo_low _ _ _ _ Hpb) as Hplow.
  assert (Hsep : forall j d, 0 <= j < BIN_NUM -> In d (L j) ->
                   4 * W <= d.2 /\ (d.1 + d.2 <= bp \/ bp + size <= d.1) /\
                   (d = pb \/ d.1 + d.2 <= pb.1 \/ pb.1 + pb.2 <= d.1)).
  { intros j d Hj Hd. pose proof (index_ok_In a _ _ _ _ HL Hj Hd) as [].
    split; [done|]. split.
    - destruct (Hdis j d Hj Hd) as [E|E]; simpl in E; lia.
    - destruct (io_sep a _ _ HL j _ d pb Hj (bin_of_lt pb.2) Hd Hpin) as [E|[E|E]];
        auto. }
  destruct (mm_free_to_coalesce st L bp h HL Hh Hal ltac:(fold size; lia)
              ltac:(lia) Hhigh Hdis)
    as (m & HLm & T1 & T2 & Hfr & Hrun).
  fold size in HLm, T1, T2, Hfr, Hrun.
  set (b := (bp, size) : block) in *.
  assert (Hpb' : In pb (index_insert b L (bin_of pb.2)))
    by (by apply index_insert_keep).
  destruct (coalesce_case3 a _ _ b pb t nw HLm (index_insert_here b L) Hpb')
    as (m5 & Hco & HL5); simpl; try done.
  - rewrite Hfr; [done|lia|lia|].
    intros c Hc.
    destruct (Hsep _ c (bin_of_lt size) Hc) as (? & ? & [->|?]); lia.
  - rewrite Hfr; [done|lia|lia|].
    intros c Hc.
    destruct (Hsep _ c (bin_of_lt size) Hc) as (? & ? & [->|?]); lia.
  - rewrite set_mem_set_mem in Hco, HL5. exists m5. split.
    + apply Hrun. rewrite (bind_step _ _ _ _ _ Hco). reflexivity.
    + revert HL5. apply index_ok_ext.
      apply index_insert_ext, index_remove_ext, index_insert_remove.
      intros c Hc. destruct (Hsep _ c (bin_of_lt size) Hc) as (? & ? & _).
      simpl. lia.
Qed.

End Interface.

Section Reuse.
Context (a : arch).
Local Abbreviation W := (WSIZE a).

Ltac warith :=
  let H := fresh in
  destruct (W_cases a) as [H|H]; rewrite ?H in *; Z.div_mod_to_equations; lia.

Lemma bins_from_insert_head (b : block) L :
  exists l, bins_from (index_insert b L) (bin_of b.2) = b :: l.
Proof.
  rewrite bins_from_cons by apply bin_of_lt.
  unfold index_insert at 1. rewrite Z.eqb_refl. simpl. eauto.
Qed.

Lemma mm_realloc_fitting fuel st ptr size h :
  0 < size <= 2 ^ 30 -> ptr <> NULL ->
  accessible a st (HDRP a ptr) = true -> mem st !! HDRP a ptr = Some h ->
  round_up size W + 2 * W <= GET_SIZE a h < round_up size W + 2 * W + 4 * W ->
  mm_realloc a fuel ptr size st = Some (ptr, st).
Proof.
  intros Hs Hp Hacc Hh Hfit.
  pose proof (W_cases a) as HW. pose proof (pow_W_big a) as HWb.
  set (need := round_up size W + 2 * W) in *.
  assert (Hn : size + 2 * W <= need <= size + 3 * W).
  { unfold need, round_up. warith. }
  unfold mm_realloc.
  assert ((size =? 0) = false) as -> by (apply Z.eqb_neq; lia).
  assert ((ptr =? NULL) = false) as -> by (by apply Z.eqb_neq).
  cbv zeta.
  rewrite (int_small size) by lia.
  rewrite (size_t_small a size) by lia.
  assert (Hneed : int ((if negb (size mod W =? 0)
                        then int (size_t a ((size / W + 1) * W)) else size)
                       + int (DSIZE a)) = need).
  { unfold need, round_up, DSIZE.
    destruct (size mod W =? 0) eqn:E; cbn [negb];
      [apply Z.eqb_eq in E|apply Z.eqb_neq in E].
    - rewrite (int_small (2 * W)) by warith. rewrite int_small by warith. warith.
    - rewrite (size_t_small a) by warith.
      rewrite (int_small (2 * W)) by warith.
      rewrite (int_small ((size / W + 1) * W)) by warith.
      rewrite int_small by warith. warith. }
  rewrite Hneed. rewrite (bind_GET a st _ h) by done.
  set (old := GET_SIZE a h) in *.
  rewrite (size_t_small a (old - need)) by lia.
  rewrite (int_small (2 * DSIZE a)) by (unfold DSIZE; lia).
  rewrite !int_small by lia.
  destruct (need =? old) eqn:E1; [reflexivity|]. apply Z.eqb_neq in E1.
  assert ((old - need >? 0) = true) as -> by (apply Z.gtb_lt; lia).
  rewrite Z.geb_leb.
  assert ((2 * DSIZE a <=? old - need) = false) as ->
    by (apply Z.leb_gt; unfold DSIZE; lia).
  reflexivity.
Qed.

End Reuse.

(** ** Concrete heaps *)

(** Closed facts about concrete heaps, by evaluation. *)
Ltac by_eval :=
  vm_compute;
  first [ reflexivity
        | let H := fresh in intro H; discriminate H
        | split; [let H := fresh in intro H; discriminate H | reflexivity] ].

Lemma index_full_ok : index_ok LP64 heap_full index_full.
Proof. apply index_okb_sound. vm_compute. reflexivity. Qed.

Lemma tail_full_ok : tail_ok LP64 heap_full index_full 3681.
Proof.
  split.
  - vm_compute. reflexivity.
  - exists 3681. split; vm_compute; reflexivity.
  - vm_compute. discriminate.
  - vm_compute. discriminate.
  - vm_compute. reflexivity.
  - left. split; [vm_compute; discriminate|]. intros j d _ [].
Qed.

Lemma index_freed_ok : index_ok LP64 heap_freed index_freed.
Proof. apply index_okb_sound. vm_compute. reflexivity. Qed.

Lemma index2_ok : index_ok LP64 heap2 index2.
Proof. apply index_okb_sound. vm_compute. reflexivity. Qed.

Lemma index_two_ok : index_ok LP64 heap_two index_two.
Proof. apply index_okb_sound. vm_compute. reflexivity. Qed.

(** * The allocator against its specification *)

(** ** Coalescing *)

(** C1.  The heap does not stay free of adjacent free blocks.  After
    [p = malloc(200); q = malloc(200); realloc(p, 1); x = malloc(176);
    free(p); free(x)] on a fresh 64-bit heap, the block at [p] is free, the
    block that follows it starts at [x], and that block is free as well:
    the allocator's own consistency test on [p] reports a free block that
    escaped coalescing. *)
Theorem coalescing_trace_escapes :
  exists st h hx,
    coalescing_trace (mem_init 4096 1048576) = Some ((4248, 4272), st) /\
    mem st !! HDRP LP64 4248 = Some h /\ GET_ALLOC h = 0 /\
    4248 + GET_SIZE LP64 h = 4272 /\
    mem st !! HDRP LP64 4272 = Some hx /\ GET_ALLOC hx = 0 /\
    escaped_coalescing LP64 4248 st = Some (true, st).
Proof.
  exists (final_state coalescing_trace (mem_init 4096 1048576)), 24, 384.
  repeat apply conj; vm_compute; reflexivity.
Qed.

(** ** The adjusted size *)

(** C2.  On the 32-bit target a request of one byte is adjusted to 20
    bytes, which is five words, where the specification asks for the four
    words of a minimum block. *)
Theorem adjusted_size_ILP32_minimum :
  adjusted_size ILP32 1 = 20 /\ 4 * WSIZE ILP32 = 16 /\
  adjusted_size_spec ILP32 1 = 16.
Proof. repeat apply conj; vm_compute; reflexivity. Qed.

(** Apart from that, the code computes the adjusted size of the
    specification: on the 64-bit target for every request up to [2 ^ 30],
    and on the 32-bit target for every such request above two words. *)
Lemma adjusted_size_LP64 s :
  0 < s <= 2 ^ 30 -> adjusted_size LP64 s = adjusted_size_spec LP64 s.
Proof.
  intros Hs. unfold adjusted_size, adjusted_size_spec, round_up.
  unfold DSIZE, TSIZE, ASIZE, BOUND, CHUNKSIZE, size_t. simpl WSIZE.
  change (2 ^ (8 * 8)) with 18446744073709551616.
  assert ((s =? 0) = false) as -> by (apply Z.eqb_neq; lia).
  rewrite andb_true_r.
  destruct (s =? 4092); [reflexivity|].
  destruct ((s mod 128 =? 0) && negb (s =? 128)).
  { rewrite Z.mod_small; lia. }
  destruct (s <=? 2 * 8) eqn:E1; [reflexivity|]. apply Z.leb_gt in E1.
  destruct (s mod 8 =? 0) eqn:E0;
    [apply Z.eqb_eq in E0|apply Z.eqb_neq in E0];
    rewrite Z.mod_small by (Z.div_mod_to_equations; lia);
    Z.div_mod_to_equations; lia.
Qed.

Lemma adjusted_size_ILP32 s :
  2 * WSIZE ILP32 < s <= 2 ^ 30 -> adjusted_size ILP32 s = adjusted_size_spec ILP32 s.
Proof.
  intros Hs. unfold adjusted_size, adjusted_size_spec, round_up.
  unfold DSIZE, TSIZE, ASIZE, BOUND, CHUNKSIZE, size_t. simpl WSIZE in *.
  change (2 ^ (8 * 4)) with 4294967296.
  assert ((s =? 0) = false) as -> by (apply Z.eqb_neq; lia).
  rewrite andb_true_r.
  destruct (s =? 4092); [reflexivity|].
  destruct ((s mod 128 =? 0) && negb (s =? 128)).
  { rewrite Z.mod_small; lia. }
  assert ((s <=? 2 * 4) = false) as -> by (apply Z.leb_gt; lia).
  destruct (s mod 4 =? 0) eqn:E0;
    [apply Z.eqb_eq in E0|apply Z.eqb_neq in E0];
    rewrite Z.mod_small by (Z.div_mod_to_equations; lia);
    Z.div_mod_to_equations; lia.
Qed.

(** ** The minimum block size *)

(** C3.  Shrinking in place stamps a block below the minimum size:
    [p = malloc(200); realloc(p, 1)] on a fresh 64-bit heap leaves at [p]
    an allocated block of 24 bytes, three words. *)
Theorem realloc_shrink_below_minimum :
  exists st h,
    shrink_trace (mem_init 4096 1048576) = Some (4248, st) /\
    mem st !! HDRP LP64 4248 = Some h /\
    GET_SIZE LP64 h = 24 /\ GET_ALLOC h = 1 /\ 24 < 4 * WSIZE LP64.
Proof.
  exists (final_state shrink_trace (mem_init 4096 1048576)), 25.
  repeat apply conj; vm_compute; reflexivity.
Qed.

(** ** Extending the heap *)

(** The extension is not the word-rounded maximum: for a request of 5000
    bytes that no free block fits, the heap grows by 5024 bytes, while
    [max(asize, CHUNKSIZE)] rounded up to a word is 5016. *)
Lemma mm_malloc_extension_not_word_rounded :
  find_fit LP64 2 (adjusted_size LP64 5000) heap0 = Some (NULL, heap0) /\
  round_up (Z.max (adjusted_size LP64 5000) CHUNKSIZE) (WSIZE LP64) = 5016 /\
  exists bp st',
    mm_malloc LP64 2 5000 heap0 = Some (bp, st') /\
    mem_brk st' = mem_brk heap0 + 5024.
Proof.
  split; [vm_compute; reflexivity|]. split; [reflexivity|].
  exists 4248, (final_state (mm_malloc LP64 2 5000) heap0).
  apply conj; vm_compute; reflexivity.
Qed.

(** C4, as the code has it.  When the search finds no block for the
    adjusted size, [mm_malloc] asks for [max(asize, CHUNKSIZE)] rounded up
    to a multiple of two words.  If the region cannot grow by that much the
    call returns [NULL] and the heap is the one before the call; if it can,
    on a heap with a sound index the call returns a block and the heap has
    grown by exactly that amount. *)
Theorem mm_malloc_extends a st fuel size :
  0 < size <= 2 ^ 30 ->
  find_fit a fuel (adjusted_size a size) st = Some (NULL, st) ->
  let ext := round_up (Z.max (adjusted_size a size) CHUNKSIZE) (2 * WSIZE a) in
  (mem_max_addr st < mem_brk st + ext ->
   mm_malloc a fuel size st = Some (NULL, note_failure st)) /\
  (forall L t,
     index_ok a st L -> tail_ok a st L t -> GET_SIZE a t + ext < 2 ^ 31 ->
     mem_brk st + ext <= mem_max_addr st -> mem_max_addr st <= 2 ^ (8 * WSIZE a) ->
     exists bp st',
       mm_malloc a fuel size st = Some (bp, st') /\ bp <> NULL /\
       mem_brk st' = mem_brk st + ext).
Proof.
  intros Hs Hfit ext. split.
  - intros Href. by apply mm_malloc_refused.
  - intros L t HL Ht Hsum Hgr Hmax. by apply (mm_malloc_granted a st L t).
Qed.

Lemma mm_malloc_extends_witness :
  0 < 5000 <= 2 ^ 30 /\
  find_fit LP64 2 (adjusted_size LP64 5000) heap0 = Some (NULL, heap0) /\
  exists bp st',
    mm_malloc LP64 2 5000 heap0 = Some (bp, st') /\ bp <> NULL /\
    mem_brk st' = mem_brk heap0 + 5024.
Proof.
  assert (H1 : 0 < 5000 <= 2 ^ 30) by lia.
  assert (H2 : find_fit LP64 2 (adjusted_size LP64 5000) heap0 = Some (NULL, heap0))
    by (vm_compute; reflexivity).
  split; [exact H1|]. split; [exact H2|].
  destruct (mm_malloc_extends LP64 heap0 2 5000 H1 H2) as [_ H].
  apply (H index0 4112).
  - exact index0_ok.
  - exact tail0_ok.
  - vm_compute. reflexivity.
  - vm_compute. discriminate.
  - vm_compute. discriminate.
Defined.

(** ** Placing a block *)

(** C5.  [place] on a listed free block [b] with an aligned size
    [asize <= b.2] splits exactly when the residue [b.2 - asize] is at
    least four words.  When it splits, the block is unlinked, header and
    footer of the front part carry [(asize, 1)], header and footer of the
    residue at [b.1 + asize] carry [(b.2 - asize, 0)], and the residue is
    listed in its bin.  Otherwise the block is unlinked and header and
    footer carry [(b.2, 1)]. *)
Theorem place_splits a st L b asize :
  index_ok a st L -> In b (L (bin_of b.2)) ->
  0 < asize <= b.2 -> asize mod WSIZE a = 0 ->
  exists m r,
    place a b.1 asize st = Some (r, set_mem m st) /\
    if 4 * WSIZE a <=? b.2 - asize then
      r = b.1 + asize /\
      m !! (b.1 - WSIZE a) = Some (PACK asize 1) /\
      m !! (b.1 + asize - 2 * WSIZE a) = Some (PACK asize 1) /\
      m !! (b.1 + asize - WSIZE a) = Some (PACK (b.2 - asize) 0) /\
      m !! (b.1 + b.2 - 2 * WSIZE a) = Some (PACK (b.2 - asize) 0) /\
      index_ok a (set_mem m st)
        (index_insert (b.1 + asize, b.2 - asize) (index_remove b L))
    else
      r = b.1 /\
      m !! (b.1 - WSIZE a) = Some (PACK b.2 1) /\
      m !! (b.1 + b.2 - 2 * WSIZE a) = Some (PACK b.2 1) /\
      index_ok a (set_mem m st) (index_remove b L).
Proof. apply place_run. Qed.

Lemma place_splits_witness :
  index_ok LP64 heap0 index0 /\ In (4248, 4112) (index0 (bin_of 4112)) /\
  0 < 32 <= 4112 /\ 32 mod WSIZE LP64 = 0 /\
  exists m r,
    place LP64 4248 32 heap0 = Some (r, set_mem m heap0) /\
    r = 4280 /\
    m !! 4240 = Some 33 /\ m !! 4264 = Some 33 /\
    m !! 4272 = Some 4080 /\ m !! 8344 = Some 4080 /\
    index_ok LP64 (set_mem m heap0)
      (index_insert (4280, 4080) (index_remove (4248, 4112) index0)).
Proof.
  assert (H2 : In (4248, 4112) (index0 (bin_of 4112))) by (vm_compute; auto).
  assert (H3 : 0 < 32 <= 4112) by lia.
  assert (H4 : 32 mod WSIZE LP64 = 0) by reflexivity.
  split; [exact index0_ok|]. split; [exact H2|]. split; [exact H3|].
  split; [exact H4|].
  destruct (place_splits LP64 heap0 index0 (4248, 4112) 32 index0_ok H2 H3 H4)
    as (m & r & Hrun & Hpost).
  exists m, r. split; [exact Hrun|]. exact Hpost.
Defined.

(** ** First fit *)

(** C6.  The search does not return the first block that is large enough
    for every requested size: [find_fit] hands the size to
    [get_list_index] and to [find_block_list] as a 32-bit [int].  On the
    fresh 64-bit heap, whose one free block has 4112 bytes, the search for
    [2 ^ 32 + 32] bytes, the adjusted size of [mm_malloc(2 ^ 32 + 16)], starts
    at bin 0 as for 32 bytes and returns that block, where no listed block
    is large enough; [mm_malloc] then places the request in it, and the
    footer it writes lies far beyond the end of the heap (the run faults). *)
Theorem find_fit_truncates_request :
  adjusted_size LP64 (2 ^ 32 + 16) = 2 ^ 32 + 32 /\
  int (2 ^ 32 + 32) = 32 /\
  find_fit LP64 2 (2 ^ 32 + 32) heap0 = Some (4248, heap0) /\
  mem heap0 !! HDRP LP64 4248 = Some (PACK 4112 0) /\
  GET_SIZE LP64 (PACK 4112 0) = 4112 /\ 4112 < 2 ^ 32 + 32 /\
  first_fit_spec (2 ^ 32 + 32) (bins_from index0 0) = NULL /\
  mm_malloc LP64 2 (2 ^ 32 + 16) heap0 = None.
Proof. repeat apply conj; vm_compute; reflexivity. Qed.

(** ** Bins *)

(** C7, as the code has it.  Sizes up to 128 bytes go to bin 0.  For a
    larger size [s] the bin is one more than the bin of [s / 2], capped at
    the last bin; the recurrence is exact as long as [s < 129 * 2 ^ 14].  Bin
    [k], for [k] from 1 to 13, holds exactly the sizes from [129 * 2 ^ (k - 1)]
    up to [129 * 2 ^ k - 1], a range that doubles from bin to bin, and every
    size from [129 * 2 ^ 13] on goes to bin 14. *)
Theorem get_list_index_doubling (s : Z) :
  0 <= s ->
  (s <= BOUND -> get_list_index s = Some 0) /\
  (BOUND < s ->
   exists j, get_list_index (Z.shiftr s 1) = Some j /\
             get_list_index s = Some (Z.min (BIN_NUM - 1) (1 + j)) /\
             (s < 129 * 2 ^ 14 -> get_list_index s = Some (1 + j))) /\
  (forall k, 1 <= k <= 13 ->
             get_list_index s = Some k <-> 129 * 2 ^ (k - 1) <= s < 129 * 2 ^ k) /\
  (129 * 2 ^ 13 <= s -> get_list_index s = Some (BIN_NUM - 1)).
Proof.
  intros Hs. rewrite get_list_index_bin_of by done.
  assert (Hlt : forall k, 0 <= k <= 13 -> bin_of s <= k <-> s < 129 * 2 ^ k).
  { intros k Hk. rewrite <- (Z2Nat.id k) by lia. apply bin_of_le_iff; lia. }
  split; [|split; [|split]].
  - intros Hle. by rewrite bin_of_small.
  - intros Hgt. exists (bin_of (Z.shiftr s 1)).
    assert (0 <= Z.shiftr s 1) as H1 by (apply Z.shiftr_nonneg; lia).
    rewrite !get_list_index_bin_of by done.
    split; [done|]. split; [by rewrite bin_of_halve|].
    intros Hlt14. f_equal. rewrite bin_of_halve by done.
    assert (bin_of (Z.shiftr s 1) <= 13); [|unfold BIN_NUM; lia].
    assert (H13 : (13 < 14)%nat) by lia.
    apply (bin_of_le_iff 13 _ H13 H1).
    rewrite Z.shiftr_div_pow2 by lia. change (2 ^ 1) with 2.
    change (Z.of_nat 13) with 13. Z.div_mod_to_equations. lia.
  - intros k Hk. pose proof (Hlt k ltac:(lia)) as Hk1.
    pose proof (Hlt (k - 1) ltac:(lia)) as Hk0.
    split.
    + intros [= Heq]. lia.
    + intros Hr. f_equal. lia.
  - intros Hge. f_equal. pose proof (Hlt 13 ltac:(lia)).
    pose proof (bin_of_range s). unfold BIN_NUM in *. lia.
Qed.

Lemma get_list_index_doubling_witness :
  get_list_index 4112 = Some 5 /\ get_list_index (Z.shiftr 4112 1) = Some 4.
Proof.
  destruct (get_list_index_doubling 4112 ltac:(lia)) as (_ & H & Hk & _).
  split.
  - apply (Hk 5); lia.
  - destruct (H ltac:(unfold BOUND; lia)) as (j & Hj & _ & Hs).
    specialize (Hs ltac:(lia)). rewrite Hj. f_equal.
    assert (get_list_index 4112 = Some 5) as E by (apply (Hk 5); lia).
    rewrite E in Hs. injection Hs. lia.
Defined.

(** The plain recurrence [bin(s) = 1 + bin(s >> 1)] does not hold for every
    size above 128: the last bin absorbs all the large sizes. *)
Lemma get_list_index_saturates :
  128 < 2113536 /\
  get_list_index 2113536 = Some 14 /\
  get_list_index (Z.shiftr 2113536 1) = Some 14 /\
  ~ (exists j, get_list_index (Z.shiftr 2113536 1) = Some j /\
               get_list_index 2113536 = Some (1 + j)).
Proof.
  split; [lia|]. split; [reflexivity|]. split; [reflexivity|].
  intros (j & Hj & Hs). vm_compute in Hj. injection Hj as <-.
  vm_compute in Hs. discriminate Hs.
Qed.

(** C10.  [get_list_index] is defined on every non-negative size, its
    value lies between 0 and 14, and it is monotone.  Hence on a heap with
    a sound index a listed block of size [s2 >= s1] lies in one of the bins
    that the search for [s1] scans, and that search returns a block of
    sufficient size. *)
Theorem bin_search_loses_no_candidate (s1 s2 : Z) :
  0 <= s1 <= s2 ->
  (exists i1 i2, get_list_index s1 = Some i1 /\ get_list_index s2 = Some i2 /\
                 0 <= i1 <= i2 /\ i2 <= BIN_NUM - 1) /\
  (forall a st L fuel bp,
     index_ok a st L -> In (bp, s2) (L (bin_of s2)) -> 0 < s1 ->
     (forall j, 0 <= j < BIN_NUM -> (length (L j) < fuel)%nat) ->
     In (bp, s2) (bins_from L (bin_of s1)) /\
     exists r, find_fit a fuel s1 st = Some (r, st) /\ r <> NULL /\
               exists sz, In (r, sz) (bins_from L (bin_of s1)) /\ s1 <= sz).
Proof.
  intros Hs. split.
  - exists (bin_of s1), (bin_of s2).
    rewrite !get_list_index_bin_of by lia.
    pose proof (bin_of_range s1). pose proof (bin_of_range s2).
    pose proof (bin_of_mono s1 s2 ltac:(lia)). repeat split; lia.
  - intros a st L fuel bp HL Hin Hpos Hfuel.
    pose proof (bin_of_lt s2) as Hi2. pose proof (bin_of_lt s1) as Hi1.
    pose proof (bin_of_mono s1 s2 ltac:(lia)) as Hmono.
    pose proof (index_ok_In a _ _ _ _ HL Hi2 Hin) as Hb.
    pose proof (bo_int _ _ _ _ Hb) as Hint. simpl in Hint.
    assert (Hinb : In (bp, s2) (bins_from L (bin_of s1))).
    { unfold bins_from. apply in_concat. exists (L (bin_of s2)). split; [|done].
      apply in_map. apply list_elem_of_In, elem_of_seqZ. lia. }
    split; [done|].
    rewrite (find_fit_index a st L fuel s1 HL ltac:(lia) Hfuel).
    unfold first_fit_spec.
    destruct (find (fun b : block => s1 <=? b.2) (bins_from L (bin_of s1)))
      as [[r sz]|] eqn:E.
    + apply find_some in E as [Hr Hsz]. simpl in Hsz. apply Z.leb_le in Hsz.
      exists r. split; [done|]. split.
      * unfold bins_from in Hr. apply in_concat in Hr as (l & Hl & Hr).
        apply in_map_iff in Hl as (j & <- & Hj).
        apply list_elem_of_In, elem_of_seqZ in Hj.
        pose proof (block_ok_pos a _ _ _ (io_base _ _ _ HL)
                      (index_ok_In a st L j (r, sz) HL ltac:(lia) Hr)) as Hp.
        simpl in Hp. unfold NULL. lia.
      * exists sz. done.
    + exfalso. pose proof (find_none _ _ E _ Hinb) as Hn. simpl in Hn.
      apply Z.leb_gt in Hn. lia.
Qed.

Lemma bin_search_loses_no_candidate_witness :
  0 <= 32 <= 4112 /\
  (exists i1 i2, get_list_index 32 = Some i1 /\ get_list_index 4112 = Some i2 /\
                 0 <= i1 <= i2 /\ i2 <= BIN_NUM - 1) /\
  exists r, find_fit LP64 2 32 heap0 = Some (r, heap0) /\ r <> NULL.
Proof.
  assert (H1 : 0 <= 32 <= 4112) by lia.
  destruct (bin_search_loses_no_candidate 32 4112 H1) as [Hm Hs].
  split; [exact H1|]. split; [exact Hm|].
  destruct (Hs LP64 heap0 index0 2%nat 4248 index0_ok) as (_ & r & Hr & Hn & _).
  - vm_compute. auto.
  - lia.
  - intros j _. unfold index0. destruct (j =? 5); simpl; lia.
  - exists r. split; [exact Hr|exact Hn].
Defined.

(** ** Reallocation *)

(** C8.  [mm_realloc] with size 0 is [mm_free] followed by returning
    [NULL], and [mm_realloc] on [NULL] is [mm_malloc], on every heap, for
    every pointer and every size. *)
Theorem mm_realloc_degenerate a fuel st :
  (forall p, mm_realloc a fuel p 0 st = (mm_free a p >> ret NULL) st) /\
  (forall s, mm_realloc a fuel NULL s st = mm_malloc a fuel s st).
Proof.
  split.
  - intros p. reflexivity.
  - intros s. unfold mm_realloc, mm_malloc. destruct (s =? 0); reflexivity.
Qed.

(** ** Refused extensions *)

(** C9.  A request during which the region provider refuses to grow the
    heap returns [NULL] and ends in the heap in which it started: no word
    of the heap and no allocator variable has changed (only the count of
    refusals, which the program does not see, went up).  Such runs exist:
    [mm_malloc] returns [NULL] from the unchanged heap whenever the search
    finds nothing and the region cannot grow by the extension, and the
    fallback of [mm_realloc] returns [NULL] from the unchanged heap
    whenever its internal [mm_malloc] does. *)
Theorem extension_failure_preserves_heap a fuel st :
  (forall req r st',
     run_request a fuel req st = Some (r, st') ->
     sbrk_failures st' <> sbrk_failures st ->
     r = NULL /\ st' = note_failure st) /\
  (forall size,
     0 < size <= 2 ^ 30 ->
     find_fit a fuel (adjusted_size a size) st = Some (NULL, st) ->
     mem_max_addr st <
       mem_brk st + round_up (Z.max (adjusted_size a size) CHUNKSIZE) (2 * WSIZE a) ->
     mm_malloc a fuel size st = Some (NULL, note_failure st)) /\
  (forall ptr size oldsize,
     mm_malloc a fuel size st = Some (NULL, note_failure st) ->
     realloc_fallback a fuel ptr size oldsize st = Some (NULL, note_failure st)).
Proof.
  split; [|split].
  - intros req r st' Hrun Hne.
    by destruct (run_request_refusal_safe a fuel req _ _ _ Hrun) as [?|?].
  - intros size Hs Hfit Href. by apply mm_malloc_refused.
  - intros ptr size oldsize H. by apply realloc_fallback_refused.
Qed.

Lemma extension_failure_preserves_heap_witness :
  run_request LP64 2 (Realloc 4248 5000) heap1 = Some (NULL, note_failure heap1) /\
  sbrk_failures (note_failure heap1) <> sbrk_failures heap1 /\
  mm_malloc LP64 2 5000 heap1 = Some (NULL, note_failure heap1).
Proof.
  assert (H1 : run_request LP64 2 (Realloc 4248 5000) heap1 =
               Some (NULL, note_failure heap1)) by (vm_compute; reflexivity).
  assert (H2 : sbrk_failures (note_failure heap1) <> sbrk_failures heap1)
    by (vm_compute; discriminate).
  destruct (extension_failure_preserves_heap LP64 2 heap1) as (Hr & Hm & _).
  destruct (Hr _ _ _ H1 H2) as [_ _].
  split; [exact H1|]. split; [exact H2|].
  apply Hm.
  - lia.
  - vm_compute. reflexivity.
  - vm_compute. reflexivity.
Defined.

(** * Further properties of the allocator *)

(** ** Boundary tags and sizes *)

(** Boundary tags decode to what was packed: for a size that is a multiple
    of the word size and an allocated bit, [GET_SIZE] and [GET_ALLOC] of
    [PACK size alloc] give back the size and the bit. *)
Theorem boundary_tag_round_trip a size alloc :
  size mod WSIZE a = 0 -> alloc = 0 \/ alloc = 1 ->
  GET_SIZE a (PACK size alloc) = size /\ GET_ALLOC (PACK size alloc) = alloc.
Proof. apply tag_decode. Qed.

Lemma boundary_tag_round_trip_witness :
  GET_SIZE ILP32 (PACK 4104 1) = 4104 /\ GET_ALLOC (PACK 4104 1) = 1.
Proof.
  apply (boundary_tag_round_trip ILP32 4104 1); [reflexivity|right; reflexivity].
Defined.

(** The adjusted size leaves room for the request: it is a multiple of the
    word size, at least four words, and exceeds the requested payload by at
    least the two words of header and footer. *)
Theorem adjusted_size_room a size :
  0 < size <= 2 ^ 30 ->
  adjusted_size a size mod WSIZE a = 0 /\
  4 * WSIZE a <= adjusted_size a size /\
  size + 2 * WSIZE a <= adjusted_size a size /\
  adjusted_size a size <= size + 2 * WSIZE a + 128.
Proof. apply adjusted_size_bounds. Qed.

Lemma adjusted_size_room_witness :
  adjusted_size LP64 100 mod WSIZE LP64 = 0 /\
  4 * WSIZE LP64 <= adjusted_size LP64 100 /\
  100 + 2 * WSIZE LP64 <= adjusted_size LP64 100 /\
  adjusted_size LP64 100 <= 100 + 2 * WSIZE LP64 + 128.
Proof. apply (adjusted_size_room LP64 100). lia. Defined.

(** ** What the routines leave alone *)

(** The search never writes: whatever the heap, [find_fit] returns in the
    state in which it started.  Freeing, placing, coalescing and the two
    list operations write heap words only: the end of the heap and the
    allocator's variables are as before. *)
Theorem footprint a fuel :
  (forall asize, read_only (find_fit a fuel asize)) /\
  (forall bp, mem_only (mm_free a bp)) /\
  (forall bp asize, mem_only (place a bp asize)) /\
  (forall bp, mem_only (coalesce a bp)) /\
  (forall bp size, mem_only (insert_block a bp size)) /\
  (forall bp, mem_only (delete_block a bp)).
Proof.
  repeat apply conj.
  - apply read_only_find_fit.
  - apply mem_only_mm_free.
  - apply mem_only_place.
  - apply mem_only_coalesce.
  - apply mem_only_insert_block.
  - apply mem_only_delete_block.
Qed.

(** ** The free lists *)

(** [delete_block] on a listed block unlinks it: the index stays sound,
    the block is in no bin any more, every other block is where it was,
    and no header of a listed block has been written. *)
Theorem delete_block_unlinks a st L b :
  index_ok a st L -> In b (L (bin_of b.2)) ->
  exists m,
    delete_block a b.1 st = Some (tt, set_mem m st) /\
    index_ok a (set_mem m st) (index_remove b L) /\
    (forall j, 0 <= j < BIN_NUM -> ~ In b (index_remove b L j)) /\
    (forall j d, 0 <= j < BIN_NUM -> In d (L j) -> d <> b ->
                 In d (index_remove b L j)) /\
    (forall j d, 0 <= j < BIN_NUM -> In d (L j) ->
                 m !! HDRP a d.1 = mem st !! HDRP a d.1).
Proof.
  intros HL Hin. pose proof (bin_of_lt b.2) as Hi.
  destruct (delete_block_spec a st L b HL Hin) as (m & Hrun & HL' & Hfr).
  exists m. split; [done|]. split; [done|]. split; [|split].
  - intros j Hj. by apply (index_remove_absent a st).
  - intros j d Hj Hd Hne. apply index_remove_keep; [done|].
    pose proof (index_apart a st L j _ d b HL Hj Hi Hd Hin Hne).
    pose proof (W_cases a). lia.
  - intros j d Hj Hd. unfold HDRP. pose proof (W_cases a) as HW.
    pose proof (index_ok_In a _ _ _ _ HL Hj Hd) as Hdb.
    apply Hfr.
    + pose proof (bo_low _ _ _ _ Hdb). unfold BIN_NUM in *. nia.
    + intros c Hc Hcb.
      destruct (decide (c = d)) as [->|Hcd]; [lia|].
      pose proof (index_apart a st L _ j c d HL Hi Hj Hc Hd Hcd). lia.
Qed.

Lemma delete_block_unlinks_witness :
  exists m,
    delete_block LP64 4248 heap0 = Some (tt, set_mem m heap0) /\
    index_ok LP64 (set_mem m heap0) (index_remove (4248, 4112) index0).
Proof.
  assert (H : In (4248, 4112) (index0 (bin_of (4248, 4112).2)))
    by (vm_compute; auto).
  destruct (delete_block_unlinks LP64 heap0 index0 (4248, 4112) index0_ok H)
    as (m & Hrun & HL & _).
  exists m. split; [exact Hrun|exact HL].
Defined.

(** Inserting a block and deleting it again restores the heap: the index
    is sound for the lists from before, and every word of the heap other
    than the block's own two link words is as it was. *)
Theorem insert_delete_round_trip a st L b :
  index_ok a st L -> block_ok a st (bin_of b.2) b ->
  (forall j d, 0 <= j < BIN_NUM -> In d (L j) -> disjoint b d) ->
  exists m,
    (insert_block a b.1 b.2 >> delete_block a b.1) st = Some (tt, set_mem m st) /\
    index_ok a (set_mem m st) L /\
    (forall p, p <> b.1 -> p <> b.1 + WSIZE a -> m !! p = mem st !! p).
Proof.
  intros HL Hb Hdis. pose proof (bin_of_lt b.2) as Hi.
  destruct (insert_block_spec a st L b HL Hb Hdis) as (m1 & Hrun1 & HL1 & Hfr1).
  pose proof (index_insert_here b L) as Hin.
  destruct (delete_block_spec a _ _ b HL1 Hin) as (m2 & Hrun2 & HL2 & Hfr2).
  rewrite set_mem_set_mem in Hrun2, HL2.
  apply (index_ok_ext a _ _ L) in HL2.
  2:{ apply index_insert_remove. intros c Hc.
      pose proof (index_ok_In a _ _ _ _ HL Hi Hc) as Hcb.
      pose proof (apart_of_disjoint a _ _ _ _ _ Hb Hcb (Hdis _ _ Hi Hc)).
      pose proof (W_cases a). lia. }
  exists m2. split; [|split; [done|]].
  { unfold bind. rewrite Hrun1. exact Hrun2. }
  intros p Hp1 Hp2.
  destruct (io_bins _ _ _ HL _ Hi) as (h & Hh & Hseg).
  destruct (io_bins _ _ _ HL2 _ Hi) as (h' & Hh' & Hseg').
  simpl in Hh'. destruct (seg_links a _ _ _ _ _ _ _ _ Hseg Hseg') as [<- Hlinks].
  destruct (decide (p = bin_list st + bin_of b.2 * WSIZE a)) as [->|Hslot];
    [congruence|].
  destruct (existsb (fun c : block => (p =? c.1) || (p =? c.1 + WSIZE a))
                    (L (bin_of b.2))) eqn:E.
  - apply existsb_exists in E as (c & Hc & E).
    destruct (Hlinks c Hc) as [E1 E2]. simpl in E1, E2.
    apply orb_true_iff in E as [E|E]; apply Z.eqb_eq in E; subst p; congruence.
  - assert (Hno : forall c, In c (L (bin_of b.2)) ->
                            p <> c.1 /\ p <> c.1 + WSIZE a).
    { intros c Hc. destruct (decide (p = c.1)) as [->|];
        [|destruct (decide (p = c.1 + WSIZE a)) as [->|]; [|done]].
      - assert (existsb (fun c0 : block => (c.1 =? c0.1) || (c.1 =? c0.1 + WSIZE a))
                        (L (bin_of b.2)) = true) as E'; [|congruence].
        apply existsb_exists. exists c. by rewrite Z.eqb_refl.
      - assert (existsb (fun c0 : block =>
                  (c.1 + WSIZE a =? c0.1) || (c.1 + WSIZE a =? c0.1 + WSIZE a))
                        (L (bin_of b.2)) = true) as E'; [|congruence].
        apply existsb_exists. exists c. rewrite Z.eqb_refl, orb_true_r. done. }
    rewrite Hfr2; simpl.
    + apply Hfr1; try done. intros c Hc. by apply Hno.
    + done.
    + intros c Hc Hcb. apply index_insert_In in Hc as [->|Hc]; [done|].
      by apply Hno.
Qed.

Lemma insert_delete_round_trip_witness :
  exists m,
    (insert_block LP64 4248 216 >> delete_block LP64 4248) heap2 =
      Some (tt, set_mem m heap2) /\
    index_ok LP64 (set_mem m heap2) index2.
Proof.
  pose proof index2_ok as HL.
  assert (Hb : block_ok LP64 heap2 (bin_of (4248, 216).2) (4248, 216))
    by (apply block_okb_sound; vm_compute; reflexivity).
  assert (Hd : forall j d, 0 <= j < BIN_NUM -> In d (index2 j) ->
                           disjoint (4248, 216) d).
  { intros j d _. unfold index2. destruct (j =? 5); [|intros []].
    intros [<-|[]]. left. simpl. lia. }
  destruct (insert_delete_round_trip LP64 heap2 index2 (4248, 216) HL Hb Hd)
    as (m & Hrun & HL' & _).
  exists m. split; [exact Hrun|exact HL'].
Defined.

(** ** First fit *)

(** For a requested size that a 32-bit [int] holds, on a heap with a
    sound index, [find_fit] starts at the bin of the requested size and
    returns the first block of sufficient size in the concatenation of
    that bin and the bins after it, each in list order,
    or [NULL] when there is none; it changes nothing.  List order is from
    the newest insertion: [insert_block] puts a block at the head of its
    bin. *)
Theorem find_fit_first_fit a st L fuel asize :
  index_ok a st L -> 0 < asize < 2 ^ 31 ->
  (forall j, 0 <= j < BIN_NUM -> (length (L j) < fuel)%nat) ->
  get_list_index (int asize) = Some (bin_of asize) /\
  find_fit a fuel asize st =
    Some (first_fit_spec asize (bins_from L (bin_of asize)), st) /\
  (forall b, block_ok a st (bin_of b.2) b ->
             (forall j d, 0 <= j < BIN_NUM -> In d (L j) -> disjoint b d) ->
             exists m, insert_block a b.1 b.2 st = Some (tt, set_mem m st) /\
                       index_ok a (set_mem m st) (index_insert b L)).
Proof.
  intros HL Hasize Hfuel. split; [|split].
  - rewrite (int_small asize) by lia. apply get_list_index_bin_of. lia.
  - by apply find_fit_index.
  - intros b Hb Hdis.
    destruct (insert_block_spec a st L b HL Hb Hdis) as (m & Hrun & HL' & _).
    eauto.
Qed.

Lemma find_fit_first_fit_witness :
  find_fit LP64 3 216 heap_two = Some (4680, heap_two).
Proof.
  assert (H2 : 0 < 216 < 2 ^ 31) by lia.
  assert (H3 : forall j, 0 <= j < BIN_NUM -> (length (index_two j) < 3)%nat).
  { intros j _. unfold index_two. destruct (j =? 1); simpl; lia. }
  destruct (find_fit_first_fit LP64 heap_two index_two 3 216 index_two_ok H2 H3)
    as (_ & H & _).
  exact H.
Defined.

(** ** Initialisation *)

(** [mm_init] on a fresh region.  When the region has room for the table
    of bin heads, the prologue and the epilogue (19 words) and for the
    first extension, [mm_init] returns 0 and establishes the invariants:
    the index is sound and holds one free block, the extension, which is
    the last block of the heap.  When the region is too small, [mm_init]
    returns -1 after one refused request. *)
Theorem mm_init_establishes_index a start max :
  0 < start -> start mod WSIZE a = 0 -> max <= 2 ^ (8 * WSIZE a) ->
  let first := start + (4 + BIN_NUM) * WSIZE a in
  let ext := match a with ILP32 => 4104 | LP64 => 4112 end in
  let L := index_insert (first, ext) (fun _ => []) in
  (first + ext <= max ->
   exists st,
     mm_init a (mem_init start max) = Some (0, st) /\
     index_ok a st L /\ tail_ok a st L ext /\
     bin_list st = start /\ heap_listp st = first /\
     mem_brk st = first + ext /\ sbrk_failures st = 0%nat) /\
  (max < first + ext ->
   exists st,
     mm_init a (mem_init start max) = Some (-1, st) /\
     sbrk_failures st = 1%nat).
Proof.
  intros Hstart Hal Hmax first ext L.
  pose proof (W_cases a) as HW.
  assert (Hext : extend_size a (CHUNKSIZE / WSIZE a) = ext) by (by destruct a).
  split.
  - intros Hroom.
    destruct (mm_init_prologue a start max Hstart Hal) as (m & Hrun & HL & Ht);
      [destruct a; simpl in *; lia|done|].
    cbv zeta in Hrun, HL, Ht. rewrite Hrun. clear Hrun.
    set (st := Heap m start _ max _ start 0) in *.
    assert (P1 : GET_ALLOC (PACK (DSIZE a) 1) <> 0)
      by (destruct a; vm_compute; discriminate).
    assert (P2 : 4 * WSIZE a <= ext) by (unfold ext; destruct a; simpl; lia).
    assert (P3 : ext mod WSIZE a = 0) by (unfold ext; destruct a; reflexivity).
    assert (P4 : GET_SIZE a (PACK (DSIZE a) 1) + ext < 2 ^ 31)
      by (unfold ext; destruct a; vm_compute; reflexivity).
    assert (P5 : mem_brk st + ext <= mem_max_addr st) by (simpl; fold first; lia).
    pose proof (extend_heap_after_allocated a st _ _ (CHUNKSIZE / WSIZE a) HL Ht P1)
      as Hx.
    cbv zeta in Hx. rewrite Hext in Hx.
    destruct (Hx P2 P3 P4 P5 Hmax) as (m' & Hrun & HL' & Ht'). clear Hx.
    rewrite (bind_step _ _ _ _ _ Hrun).
    assert ((mem_brk st =? NULL) = false) as ->
      by (apply Z.eqb_neq; simpl; unfold NULL, BIN_NUM; lia).
    eexists. split; [reflexivity|].
    split; [exact HL'|]. split; [exact Ht'|]. simpl.
    unfold first, BIN_NUM. repeat split; lia.
  - intros Hsmall. destruct (Z_lt_le_dec max first) as [Hlt|Hge].
    + eexists. unfold mm_init.
      rewrite (bind_step _ _ _ _ _ (mem_sbrk_refused a (mem_init start max) _ Hlt)).
      rewrite bind_modify, Z.eqb_refl. split; reflexivity.
    + destruct (mm_init_prologue a start max Hstart Hal Hge Hmax)
        as (m & Hrun & _ & _).
      cbv zeta in Hrun. rewrite Hrun. clear Hrun.
      set (st := Heap m start _ max _ start 0).
      unfold extend_heap. cbv zeta. rewrite Hext.
      rewrite !bind_assoc.
      rewrite (bind_step _ _ _ _ _ (mem_sbrk_refused a st ext Hsmall)).
      rewrite Z.eqb_refl. eexists. split; reflexivity.
Qed.

Lemma mm_init_establishes_index_witness :
  exists st,
    mm_init LP64 (mem_init 4096 1048576) = Some (0, st) /\
    index_ok LP64 st (index_insert (4248, 4112) (fun _ => [])) /\
    mem_brk st = 8360.
Proof.
  destruct (mm_init_establishes_index LP64 4096 1048576) as [H _];
    [lia|reflexivity|vm_compute; discriminate|].
  destruct H as (st & Hrun & HL & _ & _ & _ & Hbrk & _);
    [vm_compute; discriminate|].
  exists st. split; [exact Hrun|]. split; [exact HL|exact Hbrk].
Defined.

(** ** The block checker *)

(** [checkblock] on a free block whose two neighbours are marked
    allocated, on a heap with a sound index: it changes nothing, it
    reports a footer that differs from the header, and it ends the program
    exactly when no block at this address is on the list of the bin of the
    block's size. *)
Theorem checkblock_free_block a st L fuel bp h fw t ph nh :
  index_ok a st L ->
  0 <= bp < 2 ^ (8 * WSIZE a) -> bp mod WSIZE a = 0 ->
  mem st !! (bp - WSIZE a) = Some h ->
  GET_ALLOC h = 0 -> 0 <= GET_SIZE a h < 2 ^ 31 ->
  bp + GET_SIZE a h <= mem_brk st ->
  mem st !! (bp + GET_SIZE a h - 2 * WSIZE a) = Some fw ->
  mem st !! (bp - 2 * WSIZE a) = Some t ->
  2 * WSIZE a <= GET_SIZE a t ->
  mem_heap st <= bp - GET_SIZE a t - WSIZE a ->
  mem st !! (bp - GET_SIZE a t - WSIZE a) = Some ph -> GET_ALLOC ph = 1 ->
  mem st !! (bp + GET_SIZE a h - WSIZE a) = Some nh -> GET_ALLOC nh = 1 ->
  (length (L (bin_of (GET_SIZE a h))) < fuel)%nat ->
  let listed := existsb (fun c : block => c.1 =? bp) (L (bin_of (GET_SIZE a h))) in
  checkblock a fuel bp st =
    Some (((if h =? fw then [] else [HeaderFooterMismatch]) ++
           (if listed then [] else [NotInFreeList]), negb listed), st).
Proof.
  intros HL Hbp Hal Hh Hfree Hint Hhigh Hfw Ht Htsz Hlow Hph Hpa Hnh Hna Hfuel listed.
  pose proof (W_cases a) as HW.
  set (size := GET_SIZE a h) in *. set (psz := GET_SIZE a t) in *.
  assert (Hszal : size mod WSIZE a = 0).
  { unfold size. rewrite GET_SIZE_eq.
    destruct HW as [E|E]; rewrite E in *; Z.div_mod_to_equations; lia. }
  assert (Hpszal : psz mod WSIZE a = 0).
  { unfold psz. rewrite GET_SIZE_eq.
    destruct HW as [E|E]; rewrite E in *; Z.div_mod_to_equations; lia. }
  assert (Hacc : forall q, q mod WSIZE a = 0 -> bp - psz - WSIZE a <= q ->
                           q + WSIZE a <= bp + size -> accessible a st q = true).
  { intros q H1 H2 H3. apply accessible_true; [done|lia|lia]. }
  assert (A1 : accessible a st (bp - WSIZE a) = true)
    by (apply Hacc; [|lia|lia];
        destruct HW as [E|E]; rewrite E in *; Z.div_mod_to_equations; lia).
  assert (A2 : accessible a st (bp - 2 * WSIZE a) = true)
    by (apply Hacc; [|lia|lia];
        destruct HW as [E|E]; rewrite E in *; Z.div_mod_to_equations; lia).
  assert (A3 : accessible a st (bp - psz - WSIZE a) = true)
    by (apply Hacc; [|lia|lia];
        destruct HW as [E|E]; rewrite E in *; Z.div_mod_to_equations; lia).
  assert (A4 : accessible a st (bp + size - WSIZE a) = true)
    by (apply Hacc; [|lia|lia];
        destruct HW as [E|E]; rewrite E in *; Z.div_mod_to_equations; lia).
  assert (A5 : accessible a st (bp + size - 2 * WSIZE a) = true)
    by (apply Hacc; [|lia|lia];
        destruct HW as [E|E]; rewrite E in *; Z.div_mod_to_equations; lia).
  assert (Hesc : escaped_coalescing a bp st = Some (false, st)).
  { unfold escaped_coalescing, PREV_BLKP, NEXT_BLKP, HDRP, DSIZE.
    rewrite (bind_GET a st _ h) by done. rewrite Hfree.
    change (0 =? 0) with true. cbv iota.
    rewrite !bind_assoc.
    rewrite (bind_GET a st _ t), bind_ret by done. fold psz.
    rewrite (bind_GET a st _ ph) by done. rewrite Hpa.
    change (negb (1 =? 1)) with false. cbv iota.
    rewrite !bind_assoc.
    rewrite (bind_GET a st _ h), bind_ret by done. fold size.
    rewrite (bind_GET a st _ nh) by done. rewrite Hna. reflexivity. }
  destruct (io_bins a _ _ HL _ (bin_of_lt size)) as (hd & Hhd & Hseg).
  unfold checkblock, FTRP, HDRP, DSIZE.
  rewrite (size_t_small a) by done.
  assert ((bp mod WSIZE a =? 0) = true) as -> by (by apply Z.eqb_eq).
  rewrite (bind_GET a st _ h) by done.
  rewrite !bind_assoc.
  rewrite (bind_GET a st _ h), bind_ret by done. fold size.
  rewrite (bind_GET a st _ fw) by done.
  rewrite (bind_GET a st _ h) by done.
  rewrite Hfree. change (int 0 =? 0) with true. cbv iota.
  rewrite (bind_step _ _ _ _ _ Hesc). cbv iota.
  rewrite (bind_GET a st _ h) by done. fold size.
  rewrite int_small by lia.
  rewrite get_list_index_bin_of by lia. rewrite bind_lift_Some.
  unfold get_bin. rewrite !bind_assoc, bind_gets.
  rewrite (bind_GET a st _ hd)
    by (first [exact (slot_acc a st L _ HL (bin_of_lt size))|done]).
  rewrite (bind_step _ _ _ _ _
             (binl_loop_seg a st L _ _ _ _ fuel bp false HL Hseg Hfuel)).
  simpl orb. fold listed.
  destruct (h =? fw), listed; reflexivity.
Qed.

Lemma checkblock_free_block_witness :
  checkblock LP64 2 4248 heap0 = Some (([], false), heap0).
Proof.
  apply (checkblock_free_block LP64 heap0 index0 2 4248 4112 4112 17 17 1 index0_ok);
    vm_compute;
    first [reflexivity | discriminate | split; [discriminate|reflexivity] | lia].
Defined.

(** ** Allocation, release and reallocation *)

(** [mm_malloc] when a listed block fits, on a heap with a sound index: it
    returns the first fitting block of the search order without extending
    the heap; the block is stamped allocated, header equal to footer, with
    room for the payload between them; the residue, when it is at least
    four words, is listed as a free block, and the index stays sound. *)
Theorem mm_malloc_from_free_list a st L fuel size b :
  index_ok a st L -> 0 < size <= 2 ^ 30 ->
  (forall j, 0 <= j < BIN_NUM -> (length (L j) < fuel)%nat) ->
  find (fun c : block => adjusted_size a size <=? c.2)
       (bins_from L (bin_of (adjusted_size a size))) = Some b ->
  let asize := adjusted_size a size in
  let L' := if 4 * WSIZE a <=? b.2 - asize
            then index_insert (b.1 + asize, b.2 - asize) (index_remove b L)
            else index_remove b L in
  exists m hd,
    mm_malloc a fuel size st = Some (b.1, set_mem m st) /\
    b.1 <> NULL /\
    m !! HDRP a b.1 = Some hd /\ GET_ALLOC hd = 1 /\
    size + 2 * WSIZE a <= GET_SIZE a hd <= b.2 /\
    m !! (b.1 + GET_SIZE a hd - 2 * WSIZE a) = Some hd /\
    index_ok a (set_mem m st) L'.
Proof. apply mm_malloc_fit. Qed.

Lemma mm_malloc_from_free_list_witness :
  exists m hd,
    mm_malloc LP64 2 200 heap0 = Some (4248, set_mem m heap0) /\
    m !! 4240 = Some hd /\ GET_ALLOC hd = 1 /\
    index_ok LP64 (set_mem m heap0)
      (index_insert (4464, 3896) (index_remove (4248, 4112) index0)).
Proof.
  assert (H2 : 0 < 200 <= 2 ^ 30) by lia.
  assert (H3 : forall j, 0 <= j < BIN_NUM -> (length (index0 j) < 2)%nat).
  { intros j _. unfold index0. destruct (j =? 5); simpl; lia. }
  assert (H4 : find (fun c : block => adjusted_size LP64 200 <=? c.2)
                 (bins_from index0 (bin_of (adjusted_size LP64 200))) =
               Some (4248, 4112)) by (vm_compute; reflexivity).
  destruct (mm_malloc_from_free_list LP64 heap0 index0 2 200 (4248, 4112)
              index0_ok H2 H3 H4) as (m & hd & Hrun & _ & Hhd & Hal & _ & _ & HL).
  exists m, hd. split; [exact Hrun|]. split; [exact Hhd|]. split; [exact Hal|].
  exact HL.
Defined.

(** [mm_free] on a block that lies between two allocated blocks, on a heap
    with a sound index in which neither the block nor the one before it is
    listed: header and footer are stamped free, the block is put at the
    head of the bin of its size, and the index stays sound. *)
Theorem mm_free_between_allocated a st L bp h t ph nw :
  index_ok a st L ->
  mem st !! (bp - WSIZE a) = Some h ->
  bp mod WSIZE a = 0 -> 4 * WSIZE a <= GET_SIZE a h < 2 ^ 31 ->
  bp + GET_SIZE a h <= mem_brk st ->
  mem st !! (bp - 2 * WSIZE a) = Some t ->
  GET_ALLOC t <> 0 -> 2 * WSIZE a <= GET_SIZE a t ->
  bin_list st + BIN_NUM * WSIZE a <= bp - GET_SIZE a t - WSIZE a ->
  mem st !! (bp - GET_SIZE a t - WSIZE a) = Some ph ->
  GET_SIZE a ph = GET_SIZE a t ->
  mem st !! (bp + GET_SIZE a h - WSIZE a) = Some nw -> GET_ALLOC nw <> 0 ->
  (forall j d, 0 <= j < BIN_NUM -> In d (L j) ->
               disjoint (bp - GET_SIZE a t, GET_SIZE a t + GET_SIZE a h) d) ->
  exists m,
    mm_free a bp st = Some (tt, set_mem m st) /\
    index_ok a (set_mem m st) (index_insert (bp, GET_SIZE a h) L) /\
    m !! (bp - WSIZE a) = Some (PACK (GET_SIZE a h) 0) /\
    m !! (bp + GET_SIZE a h - 2 * WSIZE a) = Some (PACK (GET_SIZE a h) 0).
Proof. apply mm_free_isolated. Qed.

Lemma mm_free_between_allocated_witness :
  exists m,
    mm_free LP64 4464 heap_full = Some (tt, set_mem m heap_full) /\
    index_ok LP64 (set_mem m heap_full) (index_insert (4464, 216) index_full).
Proof.
  assert (H1 : mem heap_full !! (4464 - WSIZE LP64) = Some 217) by by_eval.
  assert (H2 : 4464 mod WSIZE LP64 = 0) by by_eval.
  assert (H3 : 4 * WSIZE LP64 <= GET_SIZE LP64 217 < 2 ^ 31) by by_eval.
  assert (H4 : 4464 + GET_SIZE LP64 217 <= mem_brk heap_full) by by_eval.
  assert (H5 : mem heap_full !! (4464 - 2 * WSIZE LP64) = Some 217) by by_eval.
  assert (H6 : GET_ALLOC 217 <> 0) by by_eval.
  assert (H7 : 2 * WSIZE LP64 <= GET_SIZE LP64 217) by by_eval.
  assert (H8 : bin_list heap_full + BIN_NUM * WSIZE LP64 <=
               4464 - GET_SIZE LP64 217 - WSIZE LP64) by by_eval.
  assert (H9 : mem heap_full !! (4464 - GET_SIZE LP64 217 - WSIZE LP64) = Some 217)
    by by_eval.
  assert (H10 : GET_SIZE LP64 217 = GET_SIZE LP64 217) by reflexivity.
  assert (H11 : mem heap_full !! (4464 + GET_SIZE LP64 217 - WSIZE LP64) = Some 3681)
    by by_eval.
  assert (H12 : GET_ALLOC 3681 <> 0) by by_eval.
  assert (H13 : forall j d, 0 <= j < BIN_NUM -> In d (index_full j) ->
                  disjoint (4464 - GET_SIZE LP64 217,
                            GET_SIZE LP64 217 + GET_SIZE LP64 217) d)
    by (intros j d _ []).
  destruct (mm_free_between_allocated LP64 heap_full index_full 4464 217 217 217 3681
              index_full_ok H1 H2 H3 H4 H5 H6 H7 H8 H9 H10 H11 H12 H13)
    as (m & Hrun & HL & _).
  exists m. split; [exact Hrun|exact HL].
Defined.

(** [mm_free] on a block that follows a listed free block and precedes
    an allocated one: the two are merged.  The index, still sound, holds
    one block of the combined size at the address of the earlier block in
    place of that block. *)
Theorem mm_free_merges_previous a st L bp h pb t nw :
  index_ok a st L ->
  mem st !! (bp - WSIZE a) = Some h ->
  bp mod WSIZE a = 0 -> 4 * WSIZE a <= GET_SIZE a h ->
  bp + GET_SIZE a h <= mem_brk st ->
  In pb (L (bin_of pb.2)) -> pb.1 + pb.2 = bp ->
  pb.2 + GET_SIZE a h < 2 ^ 31 ->
  mem st !! (bp - 2 * WSIZE a) = Some t -> GET_SIZE a t = pb.2 -> GET_ALLOC t = 0 ->
  mem st !! (bp + GET_SIZE a h - WSIZE a) = Some nw -> GET_ALLOC nw <> 0 ->
  (forall j d, 0 <= j < BIN_NUM -> In d (L j) -> disjoint (bp, GET_SIZE a h) d) ->
  exists m,
    mm_free a bp st = Some (tt, set_mem m st) /\
    index_ok a (set_mem m st)
      (index_insert (pb.1, pb.2 + GET_SIZE a h) (index_remove pb L)).
Proof. apply mm_free_after_free. Qed.

Lemma mm_free_merges_previous_witness :
  exists m,
    mm_free LP64 4464 heap_freed = Some (tt, set_mem m heap_freed) /\
    index_ok LP64 (set_mem m heap_freed)
      (index_insert (4248, 432) (index_remove (4248, 216) index_freed)).
Proof.
  assert (H1 : mem heap_freed !! (4464 - WSIZE LP64) = Some 217) by by_eval.
  assert (H2 : 4464 mod WSIZE LP64 = 0) by by_eval.
  assert (H3 : 4 * WSIZE LP64 <= GET_SIZE LP64 217) by by_eval.
  assert (H4 : 4464 + GET_SIZE LP64 217 <= mem_brk heap_freed) by by_eval.
  assert (H5 : In (4248, 216) (index_freed (bin_of (4248, 216).2)))
    by (vm_compute; auto).
  assert (H6 : (4248, 216).1 + (4248, 216).2 = 4464) by reflexivity.
  assert (H7 : (4248, 216).2 + GET_SIZE LP64 217 < 2 ^ 31) by by_eval.
  assert (H8 : mem heap_freed !! (4464 - 2 * WSIZE LP64) = Some 216) by by_eval.
  assert (H9 : GET_SIZE LP64 216 = (4248, 216).2) by by_eval.
  assert (H10 : GET_ALLOC 216 = 0) by by_eval.
  assert (H11 : mem heap_freed !! (4464 + GET_SIZE LP64 217 - WSIZE LP64) = Some 3681)
    by by_eval.
  assert (H12 : GET_ALLOC 3681 <> 0) by by_eval.
  assert (H13 : forall j d, 0 <= j < BIN_NUM -> In d (index_freed j) ->
                  disjoint (4464, GET_SIZE LP64 217) d).
  { intros j d _. unfold index_freed. destruct (j =? 1); [|intros []].
    intros [<-|[]]. right. by_eval. }
  destruct (mm_free_merges_previous LP64 heap_freed index_freed 4464 217 (4248, 216)
              216 3681 index_freed_ok H1 H2 H3 H4 H5 H6 H7 H8 H9 H10 H11 H12 H13)
    as (m & Hrun & HL).
  exists m. split; [exact Hrun|exact HL].
Defined.

(** Freed blocks are reused first: after [mm_free] of a block between two
    allocated blocks, [mm_malloc] of a size whose adjusted size fits the
    block and falls into the same bin returns that very block. *)
Theorem free_then_malloc_reuses a st L fuel bp h t ph nw size :
  index_ok a st L ->
  mem st !! (bp - WSIZE a) = Some h ->
  bp mod WSIZE a = 0 -> 4 * WSIZE a <= GET_SIZE a h < 2 ^ 31 ->
  bp + GET_SIZE a h <= mem_brk st ->
  mem st !! (bp - 2 * WSIZE a) = Some t ->
  GET_ALLOC t <> 0 -> 2 * WSIZE a <= GET_SIZE a t ->
  bin_list st + BIN_NUM * WSIZE a <= bp - GET_SIZE a t - WSIZE a ->
  mem st !! (bp - GET_SIZE a t - WSIZE a) = Some ph ->
  GET_SIZE a ph = GET_SIZE a t ->
  mem st !! (bp + GET_SIZE a h - WSIZE a) = Some nw -> GET_ALLOC nw <> 0 ->
  (forall j d, 0 <= j < BIN_NUM -> In d (L j) ->
               disjoint (bp - GET_SIZE a t, GET_SIZE a t + GET_SIZE a h) d) ->
  0 < size <= 2 ^ 30 ->
  adjusted_size a size <= GET_SIZE a h ->
  bin_of (adjusted_size a size) = bin_of (GET_SIZE a h) ->
  (forall j, 0 <= j < BIN_NUM -> (S (length (L j)) < fuel)%nat) ->
  exists st',
    (mm_free a bp >> mm_malloc a fuel size) st = Some (bp, st') /\
    mem_brk st' = mem_brk st.
Proof.
  intros HL Hh Hal Hsize Hhigh Ht Htal Htsz Hlow Hph Hphs Hnw Hnwal Hdis
         Hs Hfits Hbin Hfuel.
  destruct (mm_free_isolated a st L bp h t ph nw) as (m & Hfree & HLm & _);
    try done.
  set (b := (bp, GET_SIZE a h) : block) in *.
  destruct (bins_from_insert_head b L) as (l & Hl).
  destruct (mm_malloc_fit a (set_mem m st) (index_insert b L) fuel size b HLm Hs)
    as (m' & hd & Hmalloc & _).
  - intros j Hj. unfold index_insert. destruct (j =? bin_of b.2); simpl.
    + apply Hfuel, Hj.
    + pose proof (Hfuel j Hj). lia.
  - rewrite Hbin. change (GET_SIZE a h) with b.2. rewrite Hl. simpl.
    apply Z.leb_le in Hfits. by rewrite Hfits.
  - exists (set_mem m' (set_mem m st)). split; [|reflexivity].
    unfold bind. rewrite Hfree. exact Hmalloc.
Qed.

Lemma free_then_malloc_reuses_witness :
  exists st',
    (mm_free LP64 4464 >> mm_malloc LP64 2 200) heap_full = Some (4464, st') /\
    mem_brk st' = mem_brk heap_full.
Proof.
  assert (H1 : mem heap_full !! (4464 - WSIZE LP64) = Some 217) by by_eval.
  assert (H2 : 4464 mod WSIZE LP64 = 0) by by_eval.
  assert (H3 : 4 * WSIZE LP64 <= GET_SIZE LP64 217 < 2 ^ 31) by by_eval.
  assert (H4 : 4464 + GET_SIZE LP64 217 <= mem_brk heap_full) by by_eval.
  assert (H5 : mem heap_full !! (4464 - 2 * WSIZE LP64) = Some 217) by by_eval.
  assert (H6 : GET_ALLOC 217 <> 0) by by_eval.
  assert (H7 : 2 * WSIZE LP64 <= GET_SIZE LP64 217) by by_eval.
  assert (H8 : bin_list heap_full + BIN_NUM * WSIZE LP64 <=
               4464 - GET_SIZE LP64 217 - WSIZE LP64) by by_eval.
  assert (H9 : mem heap_full !! (4464 - GET_SIZE LP64 217 - WSIZE LP64) = Some 217)
    by by_eval.
  assert (H10 : GET_SIZE LP64 217 = GET_SIZE LP64 217) by reflexivity.
  assert (H11 : mem heap_full !! (4464 + GET_SIZE LP64 217 - WSIZE LP64) = Some 3681)
    by by_eval.
  assert (H12 : GET_ALLOC 3681 <> 0) by by_eval.
  assert (H13 : forall j d, 0 <= j < BIN_NUM -> In d (index_full j) ->
                  disjoint (4464 - GET_SIZE LP64 217,
                            GET_SIZE LP64 217 + GET_SIZE LP64 217) d)
    by (intros j d _ []).
  assert (H14 : 0 < 200 <= 2 ^ 30) by lia.
  assert (H15 : adjusted_size LP64 200 <= GET_SIZE LP64 217) by by_eval.
  assert (H16 : bin_of (adjusted_size LP64 200) = bin_of (GET_SIZE LP64 217))
    by by_eval.
  assert (H17 : forall j, 0 <= j < BIN_NUM -> (S (length (index_full j)) < 2)%nat)
    by (intros j _; simpl; lia).
  exact (free_then_malloc_reuses LP64 heap_full index_full 2 4464 217 217 217 3681 200
           index_full_ok H1 H2 H3 H4 H5 H6 H7 H8 H9 H10 H11 H12 H13 H14 H15 H16 H17).
Defined.

(** [mm_realloc] to a size that the block already accommodates, with less
    than four words to spare, returns the same pointer and leaves the heap
    as it is. *)
Theorem mm_realloc_keeps_fitting_block a fuel st ptr size h :
  0 < size <= 2 ^ 30 -> ptr <> NULL ->
  accessible a st (HDRP a ptr) = true -> mem st !! HDRP a ptr = Some h ->
  round_up size (WSIZE a) + 2 * WSIZE a <= GET_SIZE a h
    < round_up size (WSIZE a) + 2 * WSIZE a + 4 * WSIZE a ->
  mm_realloc a fuel ptr size st = Some (ptr, st).
Proof. apply mm_realloc_fitting. Qed.

Lemma mm_realloc_keeps_fitting_block_witness :
  mm_realloc LP64 2 4248 190 heap_full = Some (4248, heap_full).
Proof.
  assert (H1 : 0 < 190 <= 2 ^ 30) by lia.
  assert (H2 : 4248 <> NULL) by by_eval.
  assert (H3 : accessible LP64 heap_full (HDRP LP64 4248) = true) by by_eval.
  assert (H4 : mem heap_full !! HDRP LP64 4248 = Some 217) by by_eval.
  assert (H5 : round_up 190 (WSIZE LP64) + 2 * WSIZE LP64 <= GET_SIZE LP64 217
               < round_up 190 (WSIZE LP64) + 2 * WSIZE LP64 + 4 * WSIZE LP64)
    by by_eval.
  exact (mm_realloc_keeps_fitting_block LP64 2 heap_full 4248 190 217 H1 H2 H3 H4 H5).
Defined.

(** [extend_heap] on a heap with a sound index whose last block is
    allocated.  When the region can grow, the call returns the old end of
    the heap as a new free block of the requested size, rounded up to an
    even number of words; the block is listed, it is the last block of the
    heap, and the heap has grown by exactly its size.  When the region
    cannot grow, the call returns [NULL] and changes nothing. *)
Theorem extend_heap_appends a st L t words :
  index_ok a st L -> tail_ok a st L t -> GET_ALLOC t <> 0 ->
  let ext := extend_size a words in
  4 * WSIZE a <= ext -> ext mod WSIZE a = 0 -> GET_SIZE a t + ext < 2 ^ 31 ->
  mem_max_addr st <= 2 ^ (8 * WSIZE a) ->
  (mem_brk st + ext <= mem_max_addr st ->
   exists st',
     extend_heap a words st = Some (mem_brk st, st') /\
     mem_brk st' = mem_brk st + ext /\
     index_ok a st' (index_insert (mem_brk st, ext) L) /\
     tail_ok a st' (index_insert (mem_brk st, ext) L) ext) /\
  (mem_max_addr st < mem_brk st + ext ->
   extend_heap a words st = Some (NULL, note_failure st)).
Proof.
  intros HL Ht Htal ext Hmin Hal Hsum Hmax. split.
  - intros Hgr.
    destruct (extend_heap_after_allocated a st L t words HL Ht Htal
                Hmin Hal Hsum Hgr Hmax) as (m & Hrun & HL' & Ht').
    eexists. split; [exact Hrun|]. split; [reflexivity|]. split; done.
  - intros Href. unfold extend_heap. cbv zeta. fold ext.
    rewrite (bind_step _ _ _ _ _ (mem_sbrk_refused a st ext Href)).
    rewrite Z.eqb_refl. reflexivity.
Qed.

Lemma extend_heap_appends_witness :
  exists st',
    extend_heap LP64 10 heap_full = Some (8360, st') /\
    mem_brk st' = 8440 /\
    index_ok LP64 st' (index_insert (8360, 80) index_full).
Proof.
  assert (H1 : GET_ALLOC 3681 <> 0) by by_eval.
  assert (H2 : 4 * WSIZE LP64 <= extend_size LP64 10) by by_eval.
  assert (H3 : extend_size LP64 10 mod WSIZE LP64 = 0) by by_eval.
  assert (H4 : GET_SIZE LP64 3681 + extend_size LP64 10 < 2 ^ 31) by by_eval.
  assert (H5 : mem_max_addr heap_full <= 2 ^ (8 * WSIZE LP64)) by by_eval.
  assert (H6 : mem_brk heap_full + extend_size LP64 10 <= mem_max_addr heap_full)
    by by_eval.
  destruct (extend_heap_appends LP64 heap_full index_full 3681 10
              index_full_ok tail_full_ok H1 H2 H3 H4 H5) as [H _].
  destruct (H H6) as (st' & Hrun & Hbrk & HL & _).
  exists st'. split; [exact Hrun|]. split; [exact Hbrk|exact HL].
Defined.
